(** * Training job orchestration: controller handlers and placeholder ids

    A shallow embedding of
      - backend/src/utils/replicateTraining.js
      - backend/src/controllers/trainingController.js
        (getAllTrainings / getTrainingsLean query parameters, pagination and
         result shaping, getTrainingLogs, escapeRegex, startTraining and its
         helpers, checkTrainingStatus, cancelTraining, streamTrainings)
      - config/s3 (sanitizeFileName, generateTrainingImageKey)

    JavaScript values are an inductive type, Mongo collections are finite maps
    keyed by the document id, and every awaited call is a step of a small
    state-and-exception monad.  Calls that leave the process (Replicate, S3,
    the file system, the clock, the random generator) and the helpers of
    services/trainingWorkflow and services/trainingEvents, whose sources are
    not part of the controller, are fields of an environment record [Env]:
    the handlers are proved correct for every environment.  Outward calls
    are recorded, in order, in the [trace] of the world.

    Modelling conventions:
      - strings are byte strings; [toLowerCase] and the character classes of
        the regular expressions act on ASCII letters;
      - Mongo operations themselves do not fail, and the ids they are given
        are well formed (a lookup of an id that is not stored answers null,
        an update of such an id changes nothing; an id that is not the text
        of an ObjectId is rejected by Mongoose before any lookup, which the
        model leaves out);
      - [new Date()] reads a clock that may advance with every recorded
        outward call. *)

From stdpp Require Import base strings gmap list pretty.
From Stdlib Require Import ZArith QArith.
Open Scope string_scope.
Open Scope nat_scope.
Open Scope list_scope.

(** ** JavaScript values *)

Module Js.

Inductive Value :=
| Undefined
| Null
| Bool (b : bool)
| Num (q : Q)
| NaN
| Str (s : string)
| Obj (ref : positive).

(** The [typeof] operator. *)
Definition typeof (v : Value) : string :=
  match v with
  | Undefined => "undefined"
  | Null => "object"
  | Bool _ => "boolean"
  | Num _ | NaN => "number"
  | Str _ => "string"
  | Obj _ => "object"
  end.

(** ToBoolean: what [!v] and [v || w] test. *)
Definition truthy (v : Value) : bool :=
  match v with
  | Undefined | Null | NaN => false
  | Bool b => b
  | Num q => negb (Z.eqb (Qnum q) 0)
  | Str s => negb (String.eqb s EmptyString)
  | Obj _ => true
  end.

Definition is_string (v : Value) : bool :=
  String.eqb (typeof v) "string".

(** A thrown [Error]: only its [message] is ever read. *)
Record Error := mkError { message : string }.

Definition ascii_toLowerCase (c : Ascii.ascii) : Ascii.ascii :=
  let n := Ascii.nat_of_ascii c in
  if Nat.leb 65 n && Nat.leb n 90 then Ascii.ascii_of_nat (n + 32) else c.

Fixpoint toLowerCase (s : string) : string :=
  match s with
  | EmptyString => EmptyString
  | String.String c rest => String.String (ascii_toLowerCase c) (toLowerCase rest)
  end.

(** [s.replace(re, by)] for a global regular expression that is one
    character class: every character outside [keep] becomes [by]. *)
Fixpoint replace_class (keep : Ascii.ascii -> bool) (by_ : Ascii.ascii) (s : string) : string :=
  match s with
  | EmptyString => EmptyString
  | String.String c rest =>
      String.String (if keep c then c else by_) (replace_class keep by_ rest)
  end.

(** [list.includes(s)] for strings. *)
Definition includes (l : list string) (s : string) : bool :=
  existsb (String.eqb s) l.

(** Truthiness of a property that holds a string, null or undefined. *)
Definition truthy_str (o : option string) : bool :=
  match o with
  | Some s => negb (String.eqb s EmptyString)
  | None => false
  end.

(** [if (o) { then_ o } else { else_ }] for such properties. *)
Definition when_str {A} (o : option string) (then_ : string -> A) (else_ : A) : A :=
  match o with
  | Some s => if String.eqb s EmptyString then else_ else then_ s
  | None => else_
  end.

(** The line feed character, as a string. *)
Definition nl : string := String.String (Ascii.ascii_of_nat 10) EmptyString.

(** The double quote character, as a string. *)
Definition dquote : string := String.String (Ascii.ascii_of_nat 34) EmptyString.

(** [a || b] for such properties. *)
Definition or_str (a b : option string) : option string :=
  if truthy_str a then a else b.

(** [str.startsWith(prefix)]. *)
Definition startsWith (str prefix : string) : bool := String.prefix prefix str.

End Js.

(** ** utils/replicateTraining.js *)

(** [createPendingReplicateId (modelName = 'model')].  [now] is the value of
    [Date.now()] and [token] the value of [randomToken()] at the call. *)
Definition createPendingReplicateId (modelName : Js.Value) (now : Z) (token : string) : string :=
  let modelName := match modelName with Js.Undefined => Js.Str "model" | v => v end in
  let safeName := match modelName with Js.Str s => s | _ => "model" end in
  "pending:" +:+ safeName +:+ ":" +:+ pretty now +:+ ":" +:+ token.

Definition isPendingReplicateId (value : Js.Value) : bool :=
  match value with
  | Js.Str s => Js.startsWith s "pending:"
  | _ => false
  end.

(** ** The state-and-exception monad of the handlers *)

Inductive Result (A : Type) :=
| Ok (a : A)
| Throw (e : Js.Error).
Arguments Ok {A} a.
Arguments Throw {A} e.

Definition M (S A : Type) : Type := S -> Result A * S.

#[global] Instance M_ret {S} : MRet (M S) := fun A a s => (Ok a, s).
#[global] Instance M_bind {S} : MBind (M S) := fun A B f m s =>
  match m s with
  | (Ok a, s') => f a s'
  | (Throw e, s') => (Throw e, s')
  end.

Definition throw {S A} (e : Js.Error) : M S A := fun s => (Throw e, s).

(** [try { body } catch (error) { handler error }]. *)
Definition try_catch {S A} (body : M S A) (handler : Js.Error -> M S A) : M S A :=
  fun s =>
    match body s with
    | (Ok a, s') => (Ok a, s')
    | (Throw e, s') => handler e s'
    end.

(** A promise that settles to [r]. *)
Definition settle {S A} (r : Result A) : M S A := fun s => (r, s).

Definition gets {S A} (f : S -> A) : M S A := fun s => (Ok (f s), s).
Definition modify {S} (f : S -> S) : M S unit := fun s => (Ok tt, f s).

(** [for (const x of xs) await f(x)]: the first rejection stops the loop. *)
Fixpoint forM {S A B} (f : A -> M S B) (xs : list A) : M S (list B) :=
  match xs with
  | [] => mret []
  | x :: rest => y ← f x; ys ← forM f rest; mret (y :: ys)
  end.

(** ** Documents *)

(** A [Buffer]: its bytes. *)
Definition Buffer := list N.

(** An image asset sub-document (models/User.js, [imageAssetSchema]; the
    assets of a training have the same shape). *)
Module Asset.
Record t := mk {
  _id : option string;
  key : option string;
  url : option string;
  size : option nat;
  contentType : option string;
  uploadedAt : option Z;
  originalName : option string;
  name : option string;
}.
End Asset.

(** A document's [_id] is the key under which its collection holds it. *)
Module User.
Record t := mk {
  name : string;
  (** [None]: the stored value is not an array. *)
  imageAssets : option (list Asset.t);
}.
End User.

(** An entry of the event log of a training. *)
Module Event.
Record t := mk {
  type : string;
  message : string;
  metadata : list (string * Js.Value);
  timestamp : Z;
}.
End Event.

(** [trainingConfigRecord] of startTraining. *)
Module Config.
Record t := mk {
  steps : Js.Value;
  learningRate : Js.Value;
  batchSize : Js.Value;
  triggerWord : string;
  source : string;
  zipPath : string;
  zipUrl : option string;
  userAssetIds : option (list (option string));
}.
End Config.

Module Training.
Record t := mk {
  userId : string;
  modelName : string;
  (** [None] for the two arrays: absent, or not an array. *)
  imageUrls : option (list (option string));
  imageAssets : option (list Asset.t);
  status : string;
  progress : Z;
  logsUrl : option string;
  replicateTrainingId : Js.Value;
  trainingConfig : option Config.t;
  attempts : Z;
  events : list Event.t;
  error : option string;
  completedAt : option Z;
}.
End Training.

(** What [replicate.trainings.get] resolves to: the provider's status and
    the rest of the payload, which the controller only passes on. *)
Module Replicate.
Record Training := mk {
  status : string;
  payload : positive;
}.

(** The argument of [replicate.trainings.create], built by startTraining. *)
Record Input := mkInput {
  input_images : option string;
  steps : Js.Value;
  lora_rank : Js.Value;
  batch_size : Js.Value;
  learning_rate : Js.Value;
  trigger_word : string;
}.

Record Args := mkArgs {
  owner : string;
  project : string;
  version : string;
  input : Input;
  destination : option string;
}.
End Replicate.

(** What [populateTrainingForClient] resolves to: a training with its user
    reference populated. *)
Record ClientTraining := mkClientTraining {
  client_training : Training.t;
  client_user : option User.t;
}.

(** ** HTTP responses *)

Inductive Data :=
| Document (t : Training.t)
| Populated (c : ClientTraining).

Inductive Body :=
(** [{ success: false, message, error }] *)
| Failure (message : string) (error : option string)
(** [{ success: true, message, data }] *)
| Success (message : option string) (data : Data).

Record Response := mkResponse {
  res_status : nat;
  res_body : Body;
}.

(** ** Outward calls, in the order in which they are made *)

(** The update operators the controller uses: [$set] and [$push]. *)
Inductive SetField :=
| SetStatus (s : string)
| SetError (e : string)
| SetCompletedAt (d : Z).

Record Update := mkUpdate {
  upd_set : list SetField;
  upd_push_events : list Event.t;
}.

Inductive Effect :=
| EReplicateTrainingsGet (id : Js.Value)
| EReplicateTrainingsCancel (id : Js.Value)
| EReplicateModelsCreate (owner name : string)
| ETrainingCreate (id : string) (doc : Training.t)
| ETrainingFindByIdAndUpdate (id : string) (update : Update)
| EBroadcastTraining (id : string)
| EDispatchTraining (id : string) (args : Replicate.Args) (reason : string)
| EProcessTrainingEvent (id : string) (replicateTraining : Replicate.Training) (eventType : string)
| EPopulateTrainingForClient (id : string)
| EDownloadFromS3 (key : string)
| EFetch (url : string)
| EUploadBufferToS3 (key : string)
| EDeleteFromS3 (key : string)
| EFsEnsureDir (dir : string)
| EArchiveFinalize (path : string)
| EFsReadFile (path : string)
| EFsRemove (path : string)
| ERespond (r : Response).

(** [a] is recorded before [b]. *)
Definition precedes (a b : Effect) (tr : list Effect) : Prop :=
  exists l1 l2 l3, tr = l1 ++ a :: l2 ++ b :: l3.

(** Calls to the external provider. *)
Definition is_provider_call (e : Effect) : bool :=
  match e with
  | EReplicateTrainingsGet _ | EReplicateTrainingsCancel _ | EReplicateModelsCreate _ _ => true
  | _ => false
  end.

(** ** The world *)

Record World := mkWorld {
  trainings : gmap string Training.t;
  users : gmap string User.t;
  trace : list Effect;
}.

Definition set_trainings (f : gmap string Training.t -> gmap string Training.t) (w : World) : World :=
  {| trainings := f (trainings w); users := users w; trace := trace w |}.

Definition log (e : Effect) (w : World) : World :=
  {| trainings := trainings w; users := users w; trace := trace w ++ [e] |}.

(** ** The environment

    A handler runs against one environment.  Where a handler can make the
    same call more than once, the answer may depend on the moment of the
    call, the number of outward calls made before it. *)

Record Env := mkEnv {
  (** [Date.now()], [new Date()] *)
  clock : nat -> Z;
  (** [Math.random().toString(36).slice(2, 10)] *)
  randomToken : nat -> string;
  (** config/replicate *)
  replicate_trainings_get : Js.Value -> Result Replicate.Training;
  replicate_trainings_cancel : Js.Value -> Result unit;
  replicate_models_create : string -> string -> Result unit;
  REPLICATE_USERNAME : option string;
  (** services/trainingWorkflow; the first two write the training store *)
  dispatchTraining_run :
    string -> Replicate.Args -> string ->
    gmap string Training.t -> Result unit * gmap string Training.t;
  processTrainingEvent_run :
    string -> Replicate.Training -> string ->
    gmap string Training.t -> Result unit * gmap string Training.t;
  broadcastTraining_run : nat -> string -> gmap string Training.t -> Result unit;
  populateTrainingForClient_run :
    string -> gmap string Training.t -> gmap string User.t -> Result ClientTraining;
  (** S3 and node-fetch: [Some n] is the status of a response that is
      not ok *)
  s3_get_object : nat -> string -> Result Buffer;
  fetch_get : nat -> string -> Result (Buffer + nat);
  s3_upload_done : nat -> string -> Result unit;
  s3_delete_object : nat -> string -> Result unit;
  BUCKET : string;
  generateTrainingImageKey : nat -> string -> string -> nat -> string;
  (** fs, os, path, archiver, URL *)
  os_tmpdir : string;
  path_join : string -> string -> string;
  path_basename : string -> string;
  path_extname : string -> string;
  url_normalise : string -> string;
  fs_ensureDir : nat -> string -> Result unit;
  archive_finalize : nat -> string -> list (string * Buffer) -> Result unit;
  fs_readFile : nat -> string -> Result Buffer;
  fs_remove : nat -> string -> Result unit;
  (** [Number(v)] *)
  to_number : Js.Value -> Js.Value;
}.

(** An awaited outward call: record it, take the environment's answer. *)
Definition call {A} (e : Effect) (answer : nat -> Result A) : M World A :=
  fun w => (answer (length (trace w)), log e w).

Definition new_Date (env : Env) : M World Z :=
  gets (fun w => clock env (length (trace w))).

(** [res.status(code).json(body)] *)
Definition res_json (code : nat) (body : Body) : M World Response :=
  let r := mkResponse code body in
  fun w => (Ok r, log (ERespond r) w).

(** ** The Training collection *)

Definition Training_findById (id : string) : M World (option Training.t) :=
  gets (fun w => trainings w !! id).

Definition User_findById (id : string) : M World (option User.t) :=
  gets (fun w => users w !! id).

Definition apply_set (t : Training.t) (f : SetField) : Training.t :=
  let '(Training.mk u m iu ia st pr lu rid cfg att evs err done) := t in
  match f with
  | SetStatus s => Training.mk u m iu ia s pr lu rid cfg att evs err done
  | SetError e => Training.mk u m iu ia st pr lu rid cfg att evs (Some e) done
  | SetCompletedAt d => Training.mk u m iu ia st pr lu rid cfg att evs err (Some d)
  end.

Definition push_events (es : list Event.t) (t : Training.t) : Training.t :=
  let '(Training.mk u m iu ia st pr lu rid cfg att evs err done) := t in
  Training.mk u m iu ia st pr lu rid cfg att (evs ++ es) err done.

Definition apply_update (u : Update) (t : Training.t) : Training.t :=
  push_events (upd_push_events u) (foldl apply_set t (upd_set u)).

(** [Training.findByIdAndUpdate(id, { $set, $push })] *)
Definition Training_findByIdAndUpdate (id : string) (u : Update) : M World unit :=
  fun w => (Ok tt, log (ETrainingFindByIdAndUpdate id u) (set_trainings (alter (apply_update u) id) w)).

(** [Training.create(doc)]: the document is stored under an unused id. *)
Definition Training_create (doc : Training.t) : M World string :=
  fun w =>
    let id := fresh (dom (trainings w)) in
    (Ok id, log (ETrainingCreate id doc) (set_trainings (insert id doc) w)).

(** ** services/trainingWorkflow, as the environment provides it *)

Definition broadcastTraining (env : Env) (id : string) : M World unit :=
  fun w =>
    (broadcastTraining_run env (length (trace w)) id (trainings w),
     log (EBroadcastTraining id) w).

Definition populateTrainingForClient (env : Env) (id : string) : M World ClientTraining :=
  fun w =>
    (populateTrainingForClient_run env id (trainings w) (users w),
     log (EPopulateTrainingForClient id) w).

Definition processTrainingEvent (env : Env) (trainingId : string)
    (replicateTraining : Replicate.Training) (eventType : string) : M World unit :=
  fun w =>
    let '(r, store) :=
      processTrainingEvent_run env trainingId replicateTraining eventType (trainings w) in
    (r, log (EProcessTrainingEvent trainingId replicateTraining eventType)
          (set_trainings (fun _ => store) w)).

Definition dispatchTraining (env : Env) (trainingId : string)
    (replicateArgs : Replicate.Args) (reason : string) : M World unit :=
  fun w =>
    let '(r, store) :=
      dispatchTraining_run env trainingId replicateArgs reason (trainings w) in
    (r, log (EDispatchTraining trainingId replicateArgs reason)
          (set_trainings (fun _ => store) w)).

(** ** checkTrainingStatus and cancelTraining *)

Definition TERMINAL_STATUSES : list string := ["succeeded"; "failed"; "canceled"].

(** The guard shared by the two handlers:
    [!training.replicateTrainingId || isPendingReplicateId(training.replicateTrainingId)] *)
Definition not_dispatched (training : Training.t) : bool :=
  negb (Js.truthy (Training.replicateTrainingId training))
  || isPendingReplicateId (Training.replicateTrainingId training).

(** [GET /api/trainings/:id/status]; [id] is [req.params.id]. *)
Definition checkTrainingStatus (env : Env) (id : string) : M World Response :=
  try_catch
    (training ← Training_findById id;
     match training with
     | None => res_json 404 (Failure "Training not found" None)
     | Some training =>
         if not_dispatched training then
           res_json 200 (Success None (Document training))
         else
           let handle := Training.replicateTrainingId training in
           replicateTraining ←
             call (EReplicateTrainingsGet handle) (fun _ => replicate_trainings_get env handle);
           let eventType :=
             if Js.includes TERMINAL_STATUSES (Replicate.status replicateTraining)
             then "completed" else "update" in
           _ ← processTrainingEvent env id replicateTraining eventType;
           updated ← populateTrainingForClient env id;
           res_json 200 (Success None (Populated updated))
     end)
    (fun error =>
       res_json 500 (Failure "Failed to check training status" (Some (Js.message error)))).

(** [POST /api/trainings/:id/cancel] *)
Definition cancelTraining (env : Env) (id : string) : M World Response :=
  try_catch
    (training ← Training_findById id;
     match training with
     | None => res_json 404 (Failure "Training not found" None)
     | Some training =>
         if not_dispatched training then
           res_json 400 (Failure "Training has not been dispatched to Replicate yet." None)
         else
           let handle := Training.replicateTrainingId training in
           _ ← call (EReplicateTrainingsCancel handle)
                 (fun _ => replicate_trainings_cancel env handle);
           now ← new_Date env;
           _ ← Training_findByIdAndUpdate id
                 (mkUpdate
                    [SetStatus "canceled"; SetCompletedAt now]
                    [Event.mk "canceled" "Training canceled by user"
                       [("replicateTrainingId", handle)] now]);
           updatedTraining ← populateTrainingForClient env id;
           _ ← broadcastTraining env id;
           res_json 200 (Success (Some "Training canceled successfully") (Populated updatedTraining))
     end)
    (fun error =>
       res_json 500 (Failure "Failed to cancel training" (Some (Js.message error)))).

(** ** startTraining: the request and the helpers above the handler *)

Definition MAX_TRAINING_IMAGES : nat := 25.

(** A file of [req.files]. *)
Record UploadedFile := mkFile {
  file_buffer : Buffer;
  file_originalname : option string;
  file_mimetype : option string;
  file_size : option nat;
}.

(** [req.body.trainingConfig] when it is an object. *)
Record ConfigInput := mkConfigInput {
  in_steps : Js.Value;
  in_loraRank : Js.Value;
  in_batchSize : Js.Value;
  in_learningRate : Js.Value;
}.

Record StartRequest := mkStartRequest {
  (** [None]: [req.files] is not an array. *)
  req_files : option (list UploadedFile);
  body_userId : string;
  body_modelName : Js.Value;
  (** [None]: [req.body.trainingConfig] is missing or not an object. *)
  body_trainingConfig : option ConfigInput;
}.

(** An entry of [sourceAssets]. *)
Record SourceAsset := mkSource {
  src_buffer : Buffer;
  src_originalName : string;
  src_contentType : string;
  src_size : option nat;
}.

Definition guessContentType (env : Env) (fileName : option string) : string :=
  let fileName := default EmptyString fileName in
  let ext := Js.toLowerCase (path_extname env fileName) in
  if String.eqb ext ".png" then "image/png"
  else if String.eqb ext ".webp" then "image/webp"
  else if String.eqb ext ".gif" then "image/gif"
  else if String.eqb ext ".bmp" then "image/bmp"
  else if String.eqb ext ".tiff" || String.eqb ext ".tif" then "image/tiff"
  else "image/jpeg".

Definition default_file_name (index : nat) : string :=
  "training-image-" +:+ pretty (index + 1) +:+ ".jpg".

Definition buildFileNameFromAsset (env : Env) (asset : option Asset.t) (index : nat) : string :=
  match asset with
  | None => default_file_name index
  | Some asset =>
      Js.when_str (Asset.originalName asset) (fun originalName => originalName)
        (Js.when_str (Asset.key asset) (fun key => path_basename env key)
           (Js.when_str (Asset.name asset) (fun name => name)
              (default_file_name index)))
  end.

Definition normaliseUrl (env : Env) (url : option string) : option string :=
  Js.when_str url (fun url => Some (url_normalise env url)) None.

(** config/s3 *)
Definition downloadFromS3 (env : Env) (key : string) : M World (option Buffer) :=
  if String.eqb key EmptyString then mret None
  else buffer ← call (EDownloadFromS3 key) (fun n => s3_get_object env n key); mret (Some buffer).

Definition getPublicUrl (env : Env) (key : string) : option string :=
  if String.eqb key EmptyString then None
  else Some ("https://" +:+ BUCKET env +:+ ".s3.amazonaws.com/" +:+ key).

(** Resolves to the [url] of [{ key, url }]. *)
Definition uploadBufferToS3 (env : Env) (key : string) : M World (option string) :=
  _ ← call (EUploadBufferToS3 key) (fun n => s3_upload_done env n key);
  mret (getPublicUrl env key).

Definition deleteFromS3 (env : Env) (key : option string) : M World unit :=
  Js.when_str key
    (fun key => call (EDeleteFromS3 key) (fun n => s3_delete_object env n key))
    (mret tt).

(** [buildKey('trainings', modelName, `${modelName}.zip`)] *)
Definition generateTrainingZipKey (modelName : string) : string :=
  String.concat "/"
    (filter (fun segment => segment ≠ EmptyString) ["trainings"; modelName; modelName +:+ ".zip"]).

Definition downloadAssetBuffer (env : Env) (asset : option Asset.t) (index : nat)
    : M World (option Buffer) :=
  match asset with
  | None => mret None
  | Some asset =>
      fromS3 ←
        Js.when_str (Asset.key asset)
          (fun key =>
             try_catch
               (buffer ← downloadFromS3 env key;
                match buffer with
                | Some ((_ :: _) as buffer) => mret (Some buffer)
                | _ => mret None
                end)
               (fun error => mret None))
          (mret None);
      match fromS3 with
      | Some buffer => mret (Some buffer)
      | None =>
          Js.when_str (Asset.url asset)
            (fun url =>
               Js.when_str (normaliseUrl env (Some url))
                 (fun targetUrl =>
                    response ← call (EFetch targetUrl) (fun n => fetch_get env n targetUrl);
                    match response with
                    | inl arrayBuffer => mret (Some arrayBuffer)
                    | inr status =>
                        throw (Js.mkError
                          ("Failed to download image from " +:+ targetUrl +:+ " (status "
                           +:+ pretty status +:+ ")"))
                    end)
                 (mret None))
            (mret None)
      end
  end.

(** The loop over [assetsToProcess], from [index] on. *)
Fixpoint loadUserAssets (env : Env) (assetsToProcess : list Asset.t) (index : nat)
    (sourceAssets : list SourceAsset) : M World (list SourceAsset) :=
  match assetsToProcess with
  | [] => mret sourceAssets
  | asset :: rest =>
      sourceAssets ←
        try_catch
          (buffer ← downloadAssetBuffer env (Some asset) index;
           match buffer with
           | Some ((_ :: _) as buffer) =>
               let originalName := buildFileNameFromAsset env (Some asset) index in
               mret (sourceAssets ++
                     [mkSource buffer originalName
                        (Js.when_str (Asset.contentType asset) (fun c => c)
                           (guessContentType env (Some originalName)))
                        (Some (length buffer))])
           | _ => mret sourceAssets
           end)
          (fun downloadError =>
             throw (Js.mkError
               ("Failed to load user asset " +:+ Js.dquote
                +:+ Js.when_str (Asset.originalName asset) (fun s => s)
                      (Js.when_str (Asset.key asset) (fun s => s) (pretty index))
                +:+ Js.dquote +:+ " for training: " +:+ Js.message downloadError)));
      loadUserAssets env rest (S index) sourceAssets
  end.

Definition file_as_asset (file : UploadedFile) : Asset.t :=
  Asset.mk None None None (file_size file) None None None None.

(** [incomingFiles.map((file, index) => ...)], from [index] on. *)
Fixpoint sourceAssetsOfFiles (env : Env) (incomingFiles : list UploadedFile) (index : nat)
    : list SourceAsset :=
  match incomingFiles with
  | [] => []
  | file :: rest =>
      mkSource (file_buffer file)
        (Js.when_str (file_originalname file) (fun s => s)
           (buildFileNameFromAsset env (Some (file_as_asset file)) index))
        (Js.when_str (file_mimetype file) (fun s => s)
           (guessContentType env (file_originalname file)))
        (file_size file)
      :: sourceAssetsOfFiles env rest (S index)
  end.

(** ** startTraining: the handler *)

(** The [let] variables declared above the [try], which the [catch] reads. *)
Record Locals := mkLocals {
  uploadedAssets : list Asset.t;
  generatedZipKey : option string;
  localZipPath : option string;
}.

Definition StartState : Type := World * Locals.

Definition liftW {A} (m : M World A) : M StartState A :=
  fun '(w, l) => let '(r, w') := m w in (r, (w', l)).

Definition get_local {A} (f : Locals -> A) : M StartState A :=
  gets (fun '(_, l) => f l).

Definition set_uploadedAssets (v : list Asset.t) : M StartState unit :=
  modify (fun '(w, l) => (w, mkLocals v (generatedZipKey l) (localZipPath l))).
Definition set_generatedZipKey (v : string) : M StartState unit :=
  modify (fun '(w, l) => (w, mkLocals (uploadedAssets l) (Some v) (localZipPath l))).
Definition set_localZipPath (v : string) : M StartState unit :=
  modify (fun '(w, l) => (w, mkLocals (uploadedAssets l) (generatedZipKey l) (Some v))).

(** The character class [a-z0-9-]. *)
Definition is_model_name_char (c : Ascii.ascii) : bool :=
  let n := Ascii.nat_of_ascii c in
  (Nat.leb 97 n && Nat.leb n 122) || (Nat.leb 48 n && Nat.leb n 57) || Nat.eqb n 45.

Definition dash : Ascii.ascii := Ascii.ascii_of_nat 45.

(** Lines 624-684: the images to train on.  [inl message] is the early
    return of a 400 response with that message. *)
Definition gatherSourceAssets (env : Env) (user : User.t) (incomingFiles : list UploadedFile)
    (useUserAssets : bool)
    : M World (string + list SourceAsset * list (option string)) :=
  if useUserAssets then
    let userAssets := default [] (User.imageAssets user) in
    if Nat.eqb (length userAssets) 0 then
      mret (inl "Selected user has no uploaded images. Add reference photos before starting training.")
    else
      let assetsToProcess := take MAX_TRAINING_IMAGES userAssets in
      let userAssetIdsUsed := map Asset._id assetsToProcess in
      sourceAssets ← loadUserAssets env assetsToProcess 0 [];
      if Nat.eqb (length sourceAssets) 0 then
        mret (inl "Unable to load user images for training. Please verify the uploaded files and try again.")
      else mret (inr (sourceAssets, userAssetIdsUsed))
  else mret (inr (sourceAssetsOfFiles env incomingFiles 0, [])).

Definition source_file_name (asset : SourceAsset) (index : nat) : string :=
  Js.when_str (Some (src_originalName asset)) (fun s => s) (default_file_name index).

(** The entries appended to the archive by [sourceAssets.map], from [index] on. *)
Fixpoint archiveEntries (sourceAssets : list SourceAsset) (index : nat) : list (string * Buffer) :=
  match sourceAssets with
  | [] => []
  | asset :: rest =>
      (source_file_name asset index, src_buffer asset) :: archiveEntries rest (S index)
  end.

(** [Promise.all(uploadPromises)], from [index] on.  The uploads are started
    by [sourceAssets.map]; the trace records each where it is awaited, and
    a rejection is taken to reach the handler there, at [Promise.all]: an
    upload that is rejected while the archive is still being written is
    not handled by the source, and is outside this model. *)
Fixpoint uploadSourceAssets (env : Env) (uniqueModelName : string)
    (sourceAssets : list SourceAsset) (index : nat) : M World (list Asset.t) :=
  match sourceAssets with
  | [] => mret []
  | asset :: rest =>
      let fileName := source_file_name asset index in
      moment ← gets (fun w => length (trace w));
      let key := generateTrainingImageKey env moment uniqueModelName fileName index in
      url ← uploadBufferToS3 env key;
      uploadedAt ← new_Date env;
      uploaded ← uploadSourceAssets env uniqueModelName rest (S index);
      mret (Asset.mk None (Some key) url
              (Some (default (length (src_buffer asset)) (src_size asset)))
              (Some (src_contentType asset)) (Some uploadedAt) (Some fileName) None
            :: uploaded)
  end.

(** Lines 708-743: zip the images, upload them and the zip.  Resolves to
    [zipUrl]. *)
Definition prepareDataset (env : Env) (uniqueModelName : string)
    (sourceAssets : list SourceAsset) : M StartState (option string) :=
  let tempDir := path_join env (os_tmpdir env) "training-zips" in
  _ ← liftW (call (EFsEnsureDir tempDir) (fun n => fs_ensureDir env n tempDir));
  let zipPath := path_join env tempDir (uniqueModelName +:+ ".zip") in
  _ ← set_localZipPath zipPath;
  _ ← liftW (call (EArchiveFinalize zipPath)
               (fun n => archive_finalize env n zipPath (archiveEntries sourceAssets 0)));
  uploaded ← liftW (uploadSourceAssets env uniqueModelName sourceAssets 0);
  _ ← set_uploadedAssets uploaded;
  zipBuffer ← liftW (call (EFsReadFile zipPath) (fun n => fs_readFile env n zipPath));
  let zipKey := generateTrainingZipKey uniqueModelName in
  _ ← set_generatedZipKey zipKey;
  zipUrl ← liftW (uploadBufferToS3 env zipKey);
  _ ← liftW (call (EFsRemove zipPath) (fun n => fs_remove env n zipPath));
  mret zipUrl.

(** [v ? Number(v) : fallback] *)
Definition number_or (env : Env) (v : Js.Value) (fallback : Q) : Js.Value :=
  if Js.truthy v then to_number env v else Js.Num fallback.

Definition TRAINER_VERSION : string :=
  "e440909d3512c31646ee2e0c7d6f6f4923224863a6a10c494606e79fb5844497".

(** The document handed to [Training.create] (lines 790-814). *)
Definition newTrainingDocument (userId uniqueModelName : string) (uploaded : list Asset.t)
    (pendingReplicateTrainingId : string) (trainingConfigRecord : Config.t) (now : Z)
    : Training.t :=
  Training.mk userId uniqueModelName
    (Some (map Asset.url uploaded)) (Some uploaded)
    "queued" 0 None (Js.Str pendingReplicateTrainingId) (Some trainingConfigRecord) 0
    [Event.mk "created" "Training dataset prepared and queued"
       [("userId", Js.Str userId);
        ("modelName", Js.Str uniqueModelName);
        ("images", Js.Num (inject_Z (Z.of_nat (length uploaded))));
        ("source", Js.Str (Config.source trainingConfigRecord))]
       now]
    None None.

(** The update of the [catch] around [dispatchTraining] (lines 833-846). *)
Definition dispatchFailureUpdate (dispatchError : Js.Error) (failureTime : Z) : Update :=
  mkUpdate
    [SetStatus "failed"; SetError (Js.message dispatchError); SetCompletedAt failureTime]
    [Event.mk "error" ("Failed to dispatch training: " +:+ Js.message dispatchError)
       [("attempt", Js.Num 1%Q)] failureTime].

(** Lines 788-858: create the record, broadcast it, dispatch it. *)
Definition createAndDispatch (env : Env) (userId uniqueModelName : string)
    (uploaded : list Asset.t) (trainingConfigRecord : Config.t)
    (replicateArgs : Replicate.Args) : M World Response :=
  now ← new_Date env;
  token ← gets (fun w => randomToken env (length (trace w)));
  let pendingReplicateTrainingId := createPendingReplicateId (Js.Str uniqueModelName) now token in
  created ← new_Date env;
  newTraining ← Training_create
    (newTrainingDocument userId uniqueModelName uploaded pendingReplicateTrainingId
       trainingConfigRecord created);
  _ ← broadcastTraining env newTraining;
  _ ← try_catch
        (dispatchTraining env newTraining replicateArgs "initial")
        (fun dispatchError =>
           failureTime ← new_Date env;
           _ ← Training_findByIdAndUpdate newTraining
                 (dispatchFailureUpdate dispatchError failureTime);
           _ ← broadcastTraining env newTraining;
           throw dispatchError);
  populatedTraining ← populateTrainingForClient env newTraining;
  res_json 202 (Success (Some "Training started successfully") (Populated populatedTraining)).

(** The body of the [try] of startTraining. *)
Definition startTraining_try (env : Env) (req : StartRequest)
    (incomingFiles : list UploadedFile) : M StartState Response :=
  let userId := body_userId req in
  let modelName := body_modelName req in
  let trainingConfigInput :=
    default (mkConfigInput Js.Undefined Js.Undefined Js.Undefined Js.Undefined)
      (body_trainingConfig req) in
  user ← liftW (User_findById userId);
  match user with
  | None => liftW (res_json 404 (Failure "User not found" None))
  | Some user =>
      let useUserAssets := Nat.eqb (length incomingFiles) 0 in
      gathered ← liftW (gatherSourceAssets env user incomingFiles useUserAssets);
      match gathered with
      | inl message => liftW (res_json 400 (Failure message None))
      | inr (sourceAssets, userAssetIdsUsed) =>
          if Nat.eqb (length sourceAssets) 0 then
            liftW (res_json 400 (Failure
              "No training images available. Upload reference photos for the user before starting training."
              None))
          else
            timestamp ← liftW (new_Date env);
            rawName ←
              (if Js.truthy modelName then
                 match modelName with
                 | Js.Str s => mret s
                 | _ => throw (Js.mkError "(modelName || user.name.toLowerCase(...)).replace is not a function")
                 end
               else mret (Js.toLowerCase (User.name user)));
            let baseModelName := Js.replace_class is_model_name_char dash rawName in
            let uniqueModelName := baseModelName +:+ "-" +:+ pretty timestamp in
            zipUrl ← prepareDataset env uniqueModelName sourceAssets;
            uploaded ← get_local uploadedAssets;
            zipKey ← get_local generatedZipKey;
            let triggerWord := baseModelName in
            let trainingInput :=
              Replicate.mkInput zipUrl
                (number_or env (in_steps trainingConfigInput) 1000)
                (number_or env (in_loraRank trainingConfigInput) 16)
                (number_or env (in_batchSize trainingConfigInput) 1)
                (number_or env (in_learningRate trainingConfigInput) (4 # 10000))
                triggerWord in
            let trainingConfigRecord :=
              Config.mk (Replicate.steps trainingInput) (Replicate.learning_rate trainingInput)
                (Replicate.batch_size trainingInput) triggerWord
                (if useUserAssets then "user-library" else "upload")
                (default EmptyString zipKey) zipUrl
                (if useUserAssets && negb (Nat.eqb (length userAssetIdsUsed) 0)
                 then Some userAssetIdsUsed else None) in
            destination ←
              match REPLICATE_USERNAME env with
              | Some username =>
                  if String.eqb username EmptyString then mret None
                  else
                    _ ← liftW (try_catch
                          (call (EReplicateModelsCreate username uniqueModelName)
                             (fun _ => replicate_models_create env username uniqueModelName))
                          (fun modelError =>
                             throw (Js.mkError
                               ("Failed to create model: " +:+ Js.message modelError))));
                    mret (Some (username +:+ "/" +:+ uniqueModelName))
              | None => mret None
              end;
            let replicateArgs :=
              Replicate.mkArgs "ostris" "flux-dev-lora-trainer" TRAINER_VERSION
                trainingInput destination in
            liftW (createAndDispatch env userId uniqueModelName uploaded
                     trainingConfigRecord replicateArgs)
      end
  end.

(** The [catch] of startTraining: remove what was uploaded, answer 500. *)
Definition startTraining_catch (env : Env) (error : Js.Error) : M StartState Response :=
  zipKey ← get_local generatedZipKey;
  _ ← liftW (Js.when_str zipKey
               (fun key => try_catch (deleteFromS3 env (Some key)) (fun cleanupError => mret tt))
               (mret tt));
  uploaded ← get_local uploadedAssets;
  _ ← liftW (forM
               (fun asset =>
                  try_catch (deleteFromS3 env (Asset.key asset)) (fun cleanupError => mret tt))
               uploaded);
  zipPath ← get_local localZipPath;
  _ ← liftW (Js.when_str zipPath
               (fun path =>
                  try_catch (call (EFsRemove path) (fun n => fs_remove env n path))
                    (fun _ => mret tt))
               (mret tt));
  liftW (res_json 500 (Failure "Failed to start training" (Some (Js.message error)))).

(** [POST /api/trainings] *)
Definition startTraining (env : Env) (req : StartRequest) : M World Response :=
  fun w =>
    let incomingFiles := default [] (req_files req) in
    let '(r, (w', _)) :=
      try_catch (startTraining_try env req incomingFiles) (startTraining_catch env)
        (w, mkLocals [] None None) in
    (r, w').

(** ** getAllTrainings and getTrainingsLean: the shape of the listed trainings

    Both handlers are modelled from the documents their query selects (the
    stored documents that pass the filter, in sort order, cut to the page)
    to the [data] of the response. *)

Module Listing.

(** [typeof minimal === 'string' && minimal.toLowerCase() === 'true'] *)
Definition isMinimal (minimal : Js.Value) : bool :=
  match minimal with
  | Js.Str s => String.eqb (Js.toLowerCase s) "true"
  | _ => false
  end.

(** An element of [data] in minimal mode: the selected fields of the
    document ([plain]), with four properties overwritten. *)
Record Minimal := mkMinimal {
  plain : Training.t;
  imageAssets : list Asset.t;
  imageAssetCount : nat;
  imageUrls : list (option string);
  imageUrlCount : nat;
}.

(** The callback of [trainings.map] (lines 224-237). *)
Definition minimalView (training : Training.t) : Minimal :=
  let plain := training in
  let imageAssets := default [] (Training.imageAssets plain) in
  let imageUrls := default [] (Training.imageUrls plain) in
  mkMinimal plain (take 12 imageAssets) (length imageAssets)
    (take 12 imageUrls) (length imageUrls).

(** [data] of getAllTrainings. *)
Definition getAllTrainings_data (minimal : Js.Value) (trainings : list Training.t)
    : list Training.t + list Minimal :=
  if isMinimal minimal then inr (map minimalView trainings) else inl trainings.

(** What [$map] keeps of an asset in the lean projection. *)
Record LeanAsset := mkLeanAsset {
  lean_url : option string;
  lean_size : option nat;
  lean_contentType : option string;
}.

Definition leanAsset (asset : Asset.t) : LeanAsset :=
  mkLeanAsset (Asset.url asset) (Asset.size asset) (Asset.contentType asset).

(** A document after the [$project] stage, and an element of [data]. *)
Record Lean := mkLean {
  l_userId : string;
  l_modelName : string;
  l_status : string;
  l_progress : Z;
  l_attempts : Z;
  l_error : option string;
  l_completedAt : option Z;
  l_imageAssets : list LeanAsset;
  l_imageUrls : option (list (option string));
  l_imageAssetCount : nat;
  l_imageUrlCount : nat;
}.

(** The [$project] stage (lines 355-386); [$ifNull] turns a missing array
    into the empty one. *)
Definition project (training : Training.t) : Lean :=
  mkLean (Training.userId training) (Training.modelName training)
    (Training.status training) (Training.progress training) (Training.attempts training)
    (Training.error training) (Training.completedAt training)
    (map leanAsset (default [] (Training.imageAssets training)))
    (Training.imageUrls training)
    (length (default [] (Training.imageAssets training)))
    (length (default [] (Training.imageUrls training))).

(** The callback of [trainings.map] (lines 447-452). *)
Definition processTraining (training : Lean) : Lean :=
  mkLean (l_userId training) (l_modelName training) (l_status training)
    (l_progress training) (l_attempts training) (l_error training) (l_completedAt training)
    (take 12 (l_imageAssets training))
    (Some (take 12 (default [] (l_imageUrls training))))
    (l_imageAssetCount training) (l_imageUrlCount training).

(** [data] of getTrainingsLean. *)
Definition getTrainingsLean_data (selected : list Training.t) : list Lean :=
  map processTraining (map project selected).

End Listing.

(** ** streamTrainings

    The server holds, per connection, what was written to [res]; the
    subscribers of the broadcaster; the timers of [setInterval]; and the
    ['close'] listeners of each [req].  Closures are data: each names the
    connection (and the timer and subscription) it has captured. *)

Module Stream.

(** What is published: a falsy value, an object with a [toJSON] method
    (a Mongoose document; [json] is what the method returns, [None] when
    that is falsy), or a plain object. *)
Inductive Payload :=
| Nothing
| Doc (json : option Training.t)
| Plain (data : Training.t).

Definition serialiseTraining (payload : Payload) : option Training.t :=
  match payload with
  | Nothing => None
  | Doc json => json
  | Plain data => Some data
  end.

(** The [send] closure of a connection. *)
Inductive Callback := Send (conn : nat).

(** The arrow function handed to [setInterval]. *)
Inductive TimerCallback := Ping (conn : nat).

(** The ['close'] listener: [clearInterval(heartbeat); unsubscribe()]. *)
Inductive Listener := OnClose (heartbeat : nat) (unsubscribe : nat).

#[global] Instance Callback_eq_dec : EqDecision Callback.
Proof. solve_decision. Defined.

Record Res := mkRes {
  headers : list (string * string);
  flushed : bool;
  written : list string;
}.

Record Server := mk {
  responses : gmap nat Res;
  subscribers : gmap nat Callback;
  intervals : gmap nat (N * TimerCallback);
  listeners : gmap nat (list Listener);
}.

Definition res_of (s : Server) (conn : nat) : Res :=
  default (mkRes [] false []) (responses s !! conn).

Definition frames (s : Server) (conn : nat) : list string := written (res_of s conn).

Definition set_res (conn : nat) (f : Res -> Res) (s : Server) : Server :=
  mk (<[conn := f (res_of s conn)]> (responses s)) (subscribers s) (intervals s) (listeners s).

Definition res_setHeader (conn : nat) (name value : string) : Server -> Server :=
  set_res conn (fun r => mkRes (headers r ++ [(name, value)]) (flushed r) (written r)).

Definition res_flushHeaders (conn : nat) : Server -> Server :=
  set_res conn (fun r => mkRes (headers r) true (written r)).

Definition res_write (conn : nat) (chunk : string) : Server -> Server :=
  set_res conn (fun r => mkRes (headers r) (flushed r) (written r ++ [chunk])).

(** Modelled from the spec: services/trainingEvents is not part of the
    controller.  [subscribe(callback) -> unsubscribe]: the callback is
    registered under an unused handle, which [unsubscribe] removes. *)
Definition subscribeToTrainingUpdates (callback : Callback) (s : Server) : nat * Server :=
  let handle := fresh (dom (subscribers s)) in
  (handle, mk (responses s) (<[handle := callback]> (subscribers s)) (intervals s) (listeners s)).

Definition unsubscribe (handle : nat) (s : Server) : Server :=
  mk (responses s) (delete handle (subscribers s)) (intervals s) (listeners s).

Definition setInterval (callback : TimerCallback) (ms : N) (s : Server) : nat * Server :=
  let timer := fresh (dom (intervals s)) in
  (timer, mk (responses s) (subscribers s) (<[timer := (ms, callback)]> (intervals s)) (listeners s)).

Definition clearInterval (timer : nat) (s : Server) : Server :=
  mk (responses s) (subscribers s) (delete timer (intervals s)) (listeners s).

(** [req.on('close', listener)] *)
Definition req_on_close (conn : nat) (listener : Listener) (s : Server) : Server :=
  mk (responses s) (subscribers s) (intervals s)
    (<[conn := default [] (listeners s !! conn) ++ [listener]]> (listeners s)).

Definition stream_start : string := ": stream-start" +:+ Js.nl +:+ Js.nl.
Definition ping : string := ": ping" +:+ Js.nl +:+ Js.nl.
Definition data_frame (stringify : Training.t -> string) (data : Training.t) : string :=
  "data: " +:+ stringify data +:+ Js.nl +:+ Js.nl.

Definition HEARTBEAT_MS : N := 25000.

(** The body of [send]; [stringify] is [JSON.stringify]. *)
Definition send (stringify : Training.t -> string) (conn : nat) (payload : Payload)
    (s : Server) : Server :=
  match serialiseTraining payload with
  | None => s
  | Some data => res_write conn (data_frame stringify data) s
  end.

(** [streamTrainings(req, res)] for the connection [conn]. *)
Definition streamTrainings (conn : nat) (s : Server) : Server :=
  let s := res_setHeader conn "Content-Type" "text/event-stream" s in
  let s := res_setHeader conn "Cache-Control" "no-cache" s in
  let s := res_setHeader conn "Connection" "keep-alive" s in
  let s := res_flushHeaders conn s in
  let s := res_write conn stream_start s in
  let '(unsubscribe, s) := subscribeToTrainingUpdates (Send conn) s in
  let '(heartbeat, s) := setInterval (Ping conn) HEARTBEAT_MS s in
  req_on_close conn (OnClose heartbeat unsubscribe) s.

(** What happens to the server afterwards. *)
Inductive Input :=
| Connect (conn : nat)
| Publish (payload : Payload)
| Elapse (timer : nat)
| Disconnect (conn : nat).

Definition invoke (stringify : Training.t -> string) (payload : Payload)
    (s : Server) (callback : Callback) : Server :=
  match callback with
  | Send conn => send stringify conn payload s
  end.

(** Modelled from the spec: [publish] invokes every current subscriber
    callback with the record. *)
Definition publish (stringify : Training.t -> string) (payload : Payload) (s : Server) : Server :=
  foldl (invoke stringify payload) s (map snd (map_to_list (subscribers s))).

(** A timer of [setInterval] fires. *)
Definition elapse (timer : nat) (s : Server) : Server :=
  match intervals s !! timer with
  | Some (_, Ping conn) => res_write conn ping s
  | None => s
  end.

Definition run_listener (s : Server) (listener : Listener) : Server :=
  match listener with
  | OnClose heartbeat handle => unsubscribe handle (clearInterval heartbeat s)
  end.

(** The client goes away: ['close'] is emitted, once, on its [req]. *)
Definition disconnect (conn : nat) (s : Server) : Server :=
  let s := foldl run_listener s (default [] (listeners s !! conn)) in
  mk (responses s) (subscribers s) (intervals s) (delete conn (listeners s)).

Definition step (stringify : Training.t -> string) (s : Server) (i : Input) : Server :=
  match i with
  | Connect conn => streamTrainings conn s
  | Publish payload => publish stringify payload s
  | Elapse timer => elapse timer s
  | Disconnect conn => disconnect conn s
  end.

Definition run (stringify : Training.t -> string) (s : Server) (inputs : list Input) : Server :=
  foldl (step stringify) s inputs.

Definition empty : Server := mk ∅ ∅ ∅ ∅.

(** What [send] writes for a payload. *)
Definition sent (stringify : Training.t -> string) (payload : Payload) : list string :=
  match serialiseTraining payload with
  | Some data => [data_frame stringify data]
  | None => []
  end.

(** What an input of the server adds to the response of an open connection
    whose heartbeat timer is [timer]. *)
Definition frames_for (stringify : Training.t -> string) (timer : nat) (i : Input) : list string :=
  match i with
  | Publish payload => sent stringify payload
  | Elapse t => if decide (t = timer) then [ping] else []
  | _ => []
  end.

End Stream.

(** ** Query parameters and pagination of the list handlers

    Numbers here are integers below 2^53, where the double arithmetic of
    these expressions is exact: the statements about them carry that
    bound.  A limit beyond the largest double, which [parseInt] reads as
    Infinity, is outside these definitions. *)

Module Paging.

(** The white space [parseInt] skips, among the ASCII characters. *)
Definition is_white_space (c : Ascii.ascii) : bool :=
  let n := Ascii.nat_of_ascii c in
  (Nat.leb 9 n && Nat.leb n 13) || Nat.eqb n 32.

Fixpoint trim_start (s : string) : string :=
  match s with
  | String.String c rest => if is_white_space c then trim_start rest else s
  | EmptyString => EmptyString
  end.

Definition digit_of (c : Ascii.ascii) : option Z :=
  let n := Ascii.nat_of_ascii c in
  if Nat.leb 48 n && Nat.leb n 57 then Some (Z.of_nat (n - 48)) else None.

(** The value of the longest prefix of decimal digits, after the digits
    already read ([None]: none was read). *)
Fixpoint read_digits (s : string) (read : option Z) : option Z :=
  match s with
  | String.String c rest =>
      match digit_of c with
      | Some d => read_digits rest (Some (default 0 read * 10 + d)%Z)
      | None => read
      end
  | EmptyString => read
  end.

(** [Number.parseInt(s, 10)] of a string; [None] is NaN. *)
Definition parseInt (s : string) : option Z :=
  match trim_start s with
  | String.String c rest =>
      if Ascii.eqb c dash then Z.opp <$> read_digits rest None
      else if Ascii.eqb c (Ascii.ascii_of_nat 43) then read_digits rest None
      else read_digits (String.String c rest) None
  | EmptyString => None
  end.

(** [toPositiveInteger(value, fallback)]; [parsed] is
    [Number.parseInt(value, 10)]. *)
Definition toPositiveInteger (parsed : option Z) (fallback : Z) : Z :=
  match parsed with
  | Some parsed => if (parsed <? 0)%Z then fallback else parsed
  | None => fallback
  end.

(** A query parameter with a numeric default: [None] when the request
    does not carry it. *)
Definition parsed_param (param : option string) (default_ : Z) : option Z :=
  match param with
  | Some s => parseInt s
  | None => Some default_
  end.

(** [toPositiveInteger(limit, 10)] of getAllTrainings. *)
Definition numericLimit (limit : option string) : Z :=
  toPositiveInteger (parsed_param limit 10) 10.

(** [Math.min(toPositiveInteger(limit, 10), 100)] of getTrainingsLean. *)
Definition leanLimit (limit : option string) : Z :=
  Z.min (toPositiveInteger (parsed_param limit 10) 10) 100.

(** [toPositiveInteger(page, 1) || 1] *)
Definition rawPage (page : option string) : Z :=
  let parsed := toPositiveInteger (parsed_param page 1) 1 in
  if (parsed =? 0)%Z then 1%Z else parsed.

(** [Math.ceil(a / b)] for [a >= 0] and [b > 0]. *)
Definition ceil_div (a b : Z) : Z := ((a + b - 1) / b)%Z.

Definition totalPages (numericLimit totalTrainings : Z) : Z :=
  if (0 <? numericLimit)%Z && (0 <? totalTrainings)%Z then ceil_div totalTrainings numericLimit
  else if (0 <? totalTrainings)%Z then 1%Z
  else 0%Z.

Definition effectivePage (numericLimit rawPage totalTrainings : Z) : Z :=
  if (0 <? numericLimit)%Z
  then Z.min (Z.max rawPage 1) (Z.max (totalPages numericLimit totalTrainings) 1)
  else 1%Z.

Definition skip (numericLimit rawPage totalTrainings : Z) : Z :=
  if (0 <? numericLimit)%Z
  then ((effectivePage numericLimit rawPage totalTrainings - 1) * numericLimit)%Z
  else 0%Z.

(** [query.skip(skip).limit(numericLimit)], when [numericLimit > 0], of the
    matching documents in sort order. *)
Definition page_of {A} (numericLimit rawPage : Z) (matching : list A) : list A :=
  if (0 <? numericLimit)%Z
  then take (Z.to_nat numericLimit)
         (drop (Z.to_nat (skip numericLimit rawPage (Z.of_nat (length matching)))) matching)
  else matching.

(** The [pagination] object of the response. *)
Record Pagination := mkPagination {
  page : Z;
  limit : Z;
  total : Z;
  pages : Z;
  hasNextPage : bool;
  hasPrevPage : bool;
}.

Definition pagination (numericLimit rawPage totalTrainings : Z) : Pagination :=
  let totalPages := totalPages numericLimit totalTrainings in
  let effectivePage := effectivePage numericLimit rawPage totalTrainings in
  mkPagination
    (if (totalPages =? 0)%Z then 1%Z else effectivePage)
    numericLimit totalTrainings totalPages
    ((0 <? numericLimit)%Z && (effectivePage <? totalPages)%Z)
    ((0 <? numericLimit)%Z && (1 <? effectivePage)%Z).

(** [accumulator[id] = count] on a plain object, of which the model holds
    the own properties: the assignment adds or replaces the property [id],
    except for the name [__proto__], where it goes to the accessor of
    [Object.prototype], which ignores a number. *)
Definition assign (accumulator : gmap string Z) (id : string) (count : Z) : gmap string Z :=
  if String.eqb id "__proto__" then accumulator else <[id := count]> accumulator.

(** [statusAggregation.reduce(...)]: an item of the aggregation is its
    [_id] ([None] when null) and its [count]. *)
Definition statusBreakdown (statusAggregation : list (option string * Z)) : gmap string Z :=
  foldl
    (fun accumulator item =>
       Js.when_str (fst item) (fun id => assign accumulator id (snd item)) accumulator)
    ∅ statusAggregation.

End Paging.

(** ** getTrainingLogs *)

Module Logs.

(** What [select('logs logsUrl modelName status userId')] gives of a
    training; [logs] is [None] when the stored value is not an array. *)
Record Doc (A : Type) := mkDoc {
  logs : option (list A);
  logsUrl : option string;
}.
Arguments mkDoc {A} logs logsUrl.
Arguments logs {A} d.
Arguments logsUrl {A} d.

(** [typeof req.query.order === 'string' ? req.query.order.toLowerCase() : 'desc'],
    then [orderInput === 'asc' ? 'asc' : 'desc']. *)
Definition order_of (order : Js.Value) : string :=
  let orderInput := match order with Js.Str s => Js.toLowerCase s | _ => "desc" end in
  if String.eqb orderInput "asc" then "asc" else "desc".

(** Lines 566-574: the logs to return; [limit] is what toPositiveInteger
    gave. *)
Definition selectLogs {A} (limit : Z) (order : string) (fullLogs : list A) : list A :=
  let logs :=
    if (0 <? limit)%Z && (limit <? Z.of_nat (length fullLogs))%Z
    then drop (length fullLogs - Z.to_nat limit) fullLogs
    else fullLogs in
  if String.eqb order "desc" then reverse logs else logs.

Record Body (A : Type) := mkBody {
  trainingId : string;
  count : nat;
  logsReturned : nat;
  order : string;
  limit : option Z;
  returned : list A;
  url : option string;
}.
Arguments mkBody {A}.
Arguments count {A} b.
Arguments logsReturned {A} b.
Arguments returned {A} b.
Arguments limit {A} b.
Arguments order {A} b.

Inductive Answer (A : Type) :=
| Rejected (code : nat) (message : string)
| Listed (body : Body A).
Arguments Rejected {A} code message.
Arguments Listed {A} body.

(** The handler, from what [mongoose.Types.ObjectId.isValid(id)], the
    parsing of [req.query.limit] and [Training.findById(id)] give. *)
Definition getTrainingLogs {A} (id : string) (valid : bool) (limit : Z) (order : Js.Value)
    (found : option (Doc A)) : Answer A :=
  if negb valid then Rejected 400 "Invalid training ID provided"
  else
    let order := order_of order in
    match found with
    | None => Rejected 404 "Training not found"
    | Some training =>
        let fullLogs := default [] (logs training) in
        let logs := selectLogs limit order fullLogs in
        Listed (mkBody id (length fullLogs) (length logs) order
                  (if (limit =? 0)%Z then None else Some limit) logs
                  (Js.or_str (logsUrl training) None))
    end.

End Logs.

(** ** escapeRegex *)

Module Regex.

Definition backslash : Ascii.ascii := Ascii.ascii_of_nat 92.

(** The class [.*+?^${}()|[\]\\]. *)
Definition is_special (c : Ascii.ascii) : bool :=
  existsb (Nat.eqb (Ascii.nat_of_ascii c))
    [46; 42; 43; 63; 94; 36; 123; 125; 40; 41; 124; 91; 93; 92].

(** [s.replace(/[.*+?^${}()|[\]\\]/g, '\\$&')] *)
Fixpoint escape (s : string) : string :=
  match s with
  | EmptyString => EmptyString
  | String.String c rest =>
      if is_special c then String.String backslash (String.String c (escape rest))
      else String.String c (escape rest)
  end.

Definition escapeRegex (value : Js.Value) : Js.Value :=
  match value with
  | Js.Str s => Js.Str (escape s)
  | other => other
  end.

(** The text a pattern matches when it is made of plain characters and of
    escaped special characters only; [None] when it holds a special
    character that is not escaped, or ends in a backslash. *)
Fixpoint literal (pattern : string) : option string :=
  match pattern with
  | EmptyString => Some EmptyString
  | String.String c rest =>
      if Ascii.eqb c backslash then
        match rest with
        | String.String d rest' =>
            if is_special d then String.String d <$> literal rest' else None
        | EmptyString => None
        end
      else if is_special c then None
      else String.String c <$> literal rest
  end.

End Regex.

(** ** config/s3: the names of uploaded objects *)

Module S3.

(** [s.replace(re, by)] for a global regular expression [[class]+]: every
    run of characters outside [keep] becomes one [by]. *)
Fixpoint replace_runs (keep : Ascii.ascii -> bool) (by_ : Ascii.ascii) (in_run : bool)
    (s : string) : string :=
  match s with
  | EmptyString => EmptyString
  | String.String c rest =>
      if keep c then String.String c (replace_runs keep by_ false rest)
      else if in_run then replace_runs keep by_ true rest
      else String.String by_ (replace_runs keep by_ true rest)
  end.

(** The class [a-zA-Z0-9._-]. *)
Definition is_file_name_char (c : Ascii.ascii) : bool :=
  let n := Ascii.nat_of_ascii c in
  (Nat.leb 97 n && Nat.leb n 122) || (Nat.leb 65 n && Nat.leb n 90)
  || (Nat.leb 48 n && Nat.leb n 57) || Nat.eqb n 46 || Nat.eqb n 95 || Nat.eqb n 45.

Definition is_not_dash (c : Ascii.ascii) : bool := negb (Nat.eqb (Ascii.nat_of_ascii c) 45).

(** [sanitizeFileName(value, fallback)]; [basename] is [path.basename] and
    [now] the value of [Date.now()]. *)
Definition sanitizeFileName (basename : string -> string) (now : Z)
    (value fallback : option string) : string :=
  let safeFallback := Js.when_str fallback (fun s => s) ("asset-" +:+ pretty now) in
  Js.when_str value
    (fun value =>
       Js.toLowerCase
         (replace_runs is_not_dash dash false
            (replace_runs is_file_name_char dash false (basename value))))
    safeFallback.

(** [buildKey(...segments)] *)
Definition buildKey (segments : list string) : string :=
  String.concat "/" (filter (fun segment => segment ≠ EmptyString) segments).

(** [generateTrainingImageKey(modelName, originalName, index)]; [unique] is
    the value of [buildUniqueSuffix()]. *)
Definition generateTrainingImageKey (basename : string -> string) (now : Z) (unique : string)
    (modelName : string) (originalName : option string) (index : nat) : string :=
  let baseName :=
    Js.when_str originalName
      (fun originalName =>
         Js.toLowerCase (replace_runs (fun c => negb (Paging.is_white_space c)) dash false
                           (basename originalName)))
      ("image-" +:+ pretty (index + 1) +:+ ".jpg") in
  let safeName :=
    sanitizeFileName basename now (Some baseName)
      (Some ("image-" +:+ pretty (index + 1) +:+ "-" +:+ unique +:+ ".jpg")) in
  buildKey ["trainings"; modelName; "images"; safeName].

End S3.

(** ** Vocabulary of the statements *)

(** The outward calls made between two worlds. *)
Definition effects_since (w w' : World) : list Effect :=
  drop (length (trace w)) (trace w').

(** The external handle is absent (undefined, null, empty) or a placeholder. *)
Definition handle_pending (training : Training.t) : Prop :=
  Js.truthy (Training.replicateTrainingId training) = false
  \/ isPendingReplicateId (Training.replicateTrainingId training) = true.

Definition is_terminal (status : string) : Prop := status ∈ TERMINAL_STATUSES.

(** What a minimal-mode element shows of the stored training. *)
Definition minimal_shows (stored : Training.t) (shown : Listing.Minimal) : Prop :=
  let assets := default [] (Training.imageAssets stored) in
  let urls := default [] (Training.imageUrls stored) in
  Listing.imageAssets shown = take 12 assets
  /\ Listing.imageUrls shown = take 12 urls
  /\ length (Listing.imageAssets shown) <= 12
  /\ length (Listing.imageUrls shown) <= 12
  /\ Listing.imageAssetCount shown = length assets
  /\ Listing.imageUrlCount shown = length urls.

(** What a lean-mode element shows of the stored training: of each of the
    first 12 assets, its url, size and content type. *)
Definition lean_shows (stored : Training.t) (shown : Listing.Lean) : Prop :=
  let assets := default [] (Training.imageAssets stored) in
  let urls := default [] (Training.imageUrls stored) in
  Listing.l_imageAssets shown = map Listing.leanAsset (take 12 assets)
  /\ Listing.l_imageUrls shown = Some (take 12 urls)
  /\ length (Listing.l_imageAssets shown) <= 12
  /\ length (default [] (Listing.l_imageUrls shown)) <= 12
  /\ Listing.l_imageAssetCount shown = length assets
  /\ Listing.l_imageUrlCount shown = length urls.

(** Outward calls that read or write the Training collection, or notify
    its subscribers. *)
Definition touches_trainings (e : Effect) : bool :=
  match e with
  | ETrainingCreate _ _ | ETrainingFindByIdAndUpdate _ _ | EBroadcastTraining _
  | EDispatchTraining _ _ _ | EProcessTrainingEvent _ _ _
  | EPopulateTrainingForClient _ => true
  | _ => false
  end.

(** From [w] to [w'] the collections are unchanged and none of the calls
    made touches the trainings. *)
Definition quiet_step (w w' : World) : Prop :=
  trainings w' = trainings w
  /\ users w' = users w
  /\ exists es, trace w' = trace w ++ es /\ Forall (fun e => touches_trainings e = false) es.

Definition quiet {A} (m : M World A) : Prop := forall w, quiet_step w (m w).2.

Definition quietS {A} (m : M StartState A) : Prop := forall w l, quiet_step w (m (w, l)).2.1.

(** A computation that never throws and is quiet. *)
Definition calm {A} (m : M World A) : Prop :=
  forall w, exists a w', m w = (Ok a, w') /\ quiet_step w w'.

(** A part of the [try] of startTraining either stops (answers, or throws)
    after quiet steps, with an answer that is not 202, or runs quiet steps
    and ends as [createAndDispatch]. *)
Definition reaches (env : Env) (userId : string) (m : M StartState Response) : Prop :=
  forall w l,
    let '(r, (w', _)) := m (w, l) in
    (quiet_step w w' /\ forall resp, r = Ok resp -> res_status resp ≠ 202)
    \/ exists w1 name uploaded cfg args,
         quiet_step w w1
         /\ createAndDispatch env userId name uploaded cfg args w1 = (r, w').

(** The answer of the [catch] of startTraining. *)
Definition start_failure (error : Js.Error) : Response :=
  mkResponse 500 (Failure "Failed to start training" (Some (Js.message error))).

(** The record as startTraining creates it. *)
Definition freshly_queued (doc : Training.t) : Prop :=
  Training.status doc = "queued"
  /\ Training.progress doc = 0%Z
  /\ Training.attempts doc = 0%Z
  /\ isPendingReplicateId (Training.replicateTrainingId doc) = true
  /\ exists event, Training.events doc = [event] /\ Event.type event = "created".

(** The ['close'] listeners of a connection. *)
Definition listeners_of (s : Stream.Server) (conn : nat) : list Stream.Listener :=
  default [] (Stream.listeners s !! conn).

(** Every listener names a live timer and a live subscription of its own
    connection, and every timer and subscription is named by a listener of
    the connection it serves. *)
Definition registered (s : Stream.Server) : Prop :=
  (forall conn heartbeat handle,
     Stream.OnClose heartbeat handle ∈ listeners_of s conn ->
     (exists ms, Stream.intervals s !! heartbeat = Some (ms, Stream.Ping conn))
     /\ Stream.subscribers s !! handle = Some (Stream.Send conn))
  /\ (forall handle conn,
        Stream.subscribers s !! handle = Some (Stream.Send conn) ->
        exists heartbeat, Stream.OnClose heartbeat handle ∈ listeners_of s conn)
  /\ (forall heartbeat ms conn,
        Stream.intervals s !! heartbeat = Some (ms, Stream.Ping conn) ->
        exists handle, Stream.OnClose heartbeat handle ∈ listeners_of s conn).

(** The connection [conn] is open, with this heartbeat timer and this
    subscription. *)
Definition streaming (s : Stream.Server) (conn heartbeat handle : nat) : Prop :=
  registered s
  /\ listeners_of s conn = [Stream.OnClose heartbeat handle]
  /\ Stream.intervals s !! heartbeat = Some (Stream.HEARTBEAT_MS, Stream.Ping conn).

(** Inputs that leave the connection [conn] open. *)
Definition keeps_open (conn : nat) (i : Stream.Input) : Prop :=
  i ≠ Stream.Connect conn /\ i ≠ Stream.Disconnect conn.


(** Every character of [s] satisfies [p]. *)
Fixpoint all_chars (p : Ascii.ascii -> bool) (s : string) : bool :=
  match s with
  | EmptyString => true
  | String.String c rest => p c && all_chars p rest
  end.

(** No two dashes of [s] are adjacent ([after_dash]: the character before
    [s] is a dash). *)
Fixpoint no_double_dash (after_dash : bool) (s : string) : bool :=
  match s with
  | EmptyString => true
  | String.String c rest =>
      if S3.is_not_dash c then no_double_dash false rest
      else negb after_dash && no_double_dash true rest
  end.

(** The class [a-z0-9._-]. *)
Definition is_lower_file_name_char (c : Ascii.ascii) : bool :=
  let n := Ascii.nat_of_ascii c in
  (Nat.leb 97 n && Nat.leb n 122) || (Nat.leb 48 n && Nat.leb n 57)
  || Nat.eqb n 46 || Nat.eqb n 95 || Nat.eqb n 45.

(** The text of an ObjectId: 24 hexadecimal digits. *)
Definition is_hex_digit (c : Ascii.ascii) : bool :=
  let n := Ascii.nat_of_ascii c in
  (Nat.leb 48 n && Nat.leb n 57) || (Nat.leb 97 n && Nat.leb n 102)
  || (Nat.leb 65 n && Nat.leb n 70).

Definition is_object_id (id : string) : bool :=
  Nat.eqb (String.length id) 24 && all_chars is_hex_digit id.

(** Answers *)

Definition is_response (e : Effect) : bool :=
  match e with
  | ERespond _ => true
  | _ => false
  end.

(** The run answers: it does not throw, and its one [res.json] is its last
    outward call and carries one of [codes]. *)
Definition answers_once (codes : list nat) (w : World) (run : Result Response * World) : Prop :=
  exists response before,
    run.1 = Ok response
    /\ effects_since w run.2 = before ++ [ERespond response]
    /\ Forall (fun e => is_response e = false) before
    /\ res_status response ∈ codes.

(** From [w] to [w'] only calls that [allowed] accepts are made. *)
Definition calls_only (allowed : Effect -> bool) (w w' : World) : Prop :=
  exists es, trace w' = trace w ++ es /\ Forall (fun e => allowed e = true) es.

Definition makes_only {A} (allowed : Effect -> bool) (m : M World A) : Prop :=
  forall w, calls_only allowed w (m w).2.

Definition makes_onlyS {A} (allowed : Effect -> bool) (m : M StartState A) : Prop :=
  forall w l, calls_only allowed w (m (w, l)).2.1.

Definition unanswered (e : Effect) : bool := negb (is_response e).

(** A part of the [try] of startTraining: when it returns, it has answered
    last, once, with one of [codes]; when it throws, it has not answered. *)
Definition answering (codes : list nat) (m : M StartState Response) : Prop :=
  forall w l,
    let '(r, (w', _)) := m (w, l) in
    match r with
    | Ok response =>
        res_status response ∈ codes
        /\ exists w1, calls_only unanswered w w1 /\ trace w' = trace w1 ++ [ERespond response]
    | Throw _ => calls_only unanswered w w'
    end.

(** The calls that remove what a failed startTraining has uploaded. *)
Definition deletion (key : option string) : list Effect :=
  Js.when_str key (fun key => [EDeleteFromS3 key]) [].

Definition removal (path : option string) : list Effect :=
  Js.when_str path (fun path => [EFsRemove path]) [].

(** The model names a call carries hold only characters of [a-z0-9-]:
    the name of the model created at the provider, the name stored with
    the training, and the trigger word of the dispatched arguments. *)
Definition names_clean (e : Effect) : bool :=
  match e with
  | EReplicateModelsCreate _ name => all_chars is_model_name_char name
  | ETrainingCreate _ doc => all_chars is_model_name_char (Training.modelName doc)
  | EDispatchTraining _ args _ =>
      all_chars is_model_name_char (Replicate.trigger_word (Replicate.input args))
  | _ => true
  end.

Definition uncreated (e : Effect) : bool :=
  match e with
  | ETrainingCreate _ _ => false
  | _ => true
  end.

(** Every training created from [w] to [w'] holds the images [uploaded]. *)
Definition creates_with (uploaded : list Asset.t) (w w' : World) : Prop :=
  exists es,
    trace w' = trace w ++ es
    /\ forall id doc, ETrainingCreate id doc ∈ es -> Training.imageAssets doc = Some uploaded.

(** A part of the [try] of startTraining: the trainings it creates hold
    the images that [uploadedAssets] holds when it ends. *)
Definition creating (m : M StartState Response) : Prop :=
  forall w l, let '(_, (w', l')) := m (w, l) in creates_with (uploadedAssets l') w w'.

(** A source image as the loop over the user's library adds it. *)
Definition loaded (source : SourceAsset) : Prop :=
  src_buffer source ≠ [] /\ src_size source = Some (length (src_buffer source)).

(** No subscription and no timer serves the connection [conn]. *)
Definition detached (s : Stream.Server) (conn : nat) : Prop :=
  (forall handle, Stream.subscribers s !! handle ≠ Some (Stream.Send conn))
  /\ (forall timer ms, Stream.intervals s !! timer ≠ Some (ms, Stream.Ping conn)).

(** ** A small world to run the handlers on *)

Module Sample.

(** An environment in which everything works, except that the provider
    answers a cancel request with [cancel] and dispatchTraining settles to
    [dispatch]; the provider reports [provider_status]. *)
Definition env (cancel dispatch : Result unit) (provider_status : string) : Env :=
  mkEnv
    (fun moment => 1700000000000 + Z.of_nat moment)%Z
    (fun _ => "k3j9x0aa")
    (fun _ => Ok (Replicate.mk provider_status 1))
    (fun _ => cancel)
    (fun _ _ => Ok tt)
    None
    (fun _ _ _ store => (dispatch, store))
    (fun trainingId replicateTraining _ store =>
       (Ok tt,
        alter (fun t => apply_set t (SetStatus (Replicate.status replicateTraining)))
          trainingId store))
    (fun _ _ _ => Ok tt)
    (fun trainingId store people =>
       match store !! trainingId with
       | Some t => Ok (mkClientTraining t (people !! Training.userId t))
       | None => Throw (Js.mkError "Training not found")
       end)
    (fun _ _ => Ok [255; 216]%N)
    (fun _ _ => Ok (inl [255; 216]%N))
    (fun _ _ => Ok tt)
    (fun _ _ => Ok tt)
    "book-story-ai-generate"
    (fun _ modelName fileName _ => "trainings/" +:+ modelName +:+ "/images/" +:+ fileName)
    "/tmp"
    (fun a b => a +:+ "/" +:+ b)
    (fun p => p)
    (fun _ => ".jpg")
    (fun u => u)
    (fun _ _ => Ok tt)
    (fun _ _ _ => Ok tt)
    (fun _ _ => Ok [80; 75]%N)
    (fun _ _ => Ok tt)
    (fun v => v).

Definition working : Env := env (Ok tt) (Ok tt) "succeeded".
Definition provider_rejects_cancel : Env :=
  env (Throw (Js.mkError "training already finished")) (Ok tt) "processing".
Definition dispatch_fails : Env :=
  env (Ok tt) (Throw (Js.mkError "replicate unreachable")) "processing".

Definition training (status : string) (handle : Js.Value) (completedAt : option Z) : Training.t :=
  Training.mk "u2" "ada-1699999999000" (Some []) (Some []) status 0 None handle None 1
    [Event.mk "created" "Training dataset prepared and queued" [] 1699999999000]
    None completedAt.

Definition finished : Training.t :=
  training "succeeded" (Js.Str "trn_123") (Some 1699999999500%Z).
Definition running : Training.t := training "processing" (Js.Str "trn_456") None.
Definition waiting : Training.t :=
  training "queued" (Js.Str "pending:ada-1699999999000:1699999999000:zz") None.

Definition world : World :=
  mkWorld
    {[ "t1" := finished; "t2" := running; "t3" := waiting ]}
    {[ "u1" := User.mk "Noa" (Some []); "u2" := User.mk "Ada L" None ]}
    [].

(** A start request with one uploaded photo for user u2, one for a user
    that is not stored, and one without photos for user u1, who has none. *)
Definition upload : StartRequest :=
  mkStartRequest (Some [mkFile [255; 216]%N (Some "ada.jpg") (Some "image/jpeg") (Some 2)])
    "u2" Js.Undefined None.
Definition unknown_user : StartRequest := mkStartRequest None "nobody" Js.Undefined None.
Definition no_images : StartRequest := mkStartRequest None "u1" Js.Undefined None.

(** The first training created, and the first dispatch, among some calls. *)
Fixpoint created_in (es : list Effect) : option (string * Training.t) :=
  match es with
  | [] => None
  | ETrainingCreate id doc :: _ => Some (id, doc)
  | _ :: rest => created_in rest
  end.

Fixpoint dispatched_in (es : list Effect) : option Replicate.Args :=
  match es with
  | [] => None
  | EDispatchTraining _ args _ :: _ => Some args
  | _ :: rest => dispatched_in rest
  end.

End Sample.

(** ** Runs with a provider or a storage that fails *)

Module Outage.

(** The working environment, except that the provider answers a status
    request with [get], the ingestion settles to [ingest] and leaves the
    store as it is, S3 answers a read with [s3] and a fetch gives
    [fetched]. *)
Definition env (get : Result Replicate.Training) (ingest : Result unit)
    (s3 : Result Buffer) (fetched : Result (Buffer + nat)) : Env :=
  let e := Sample.working in
  mkEnv (clock e) (randomToken e)
    (fun _ => get) (replicate_trainings_cancel e) (replicate_models_create e)
    (REPLICATE_USERNAME e)
    (dispatchTraining_run e)
    (fun _ _ _ store => (ingest, store))
    (broadcastTraining_run e) (populateTrainingForClient_run e)
    (fun _ _ => s3) (fun _ _ => fetched)
    (s3_upload_done e) (s3_delete_object e) (BUCKET e) (generateTrainingImageKey e)
    (os_tmpdir e) (path_join e) (path_basename e) (path_extname e) (url_normalise e)
    (fs_ensureDir e) (archive_finalize e) (fs_readFile e) (fs_remove e) (to_number e).

Definition provider_down : Env :=
  env (Throw (Js.mkError "provider unreachable")) (Ok tt) (Ok []) (Ok (inr 404)).

Definition storage_down : Env :=
  env (Ok (Replicate.mk "processing" 1)) (Ok tt)
    (Throw (Js.mkError "NoSuchKey")) (Ok (inl [255; 216; 255]%N)).

(** An image that is stored under a key, one that only has a url, and one
    that has neither. *)
Definition stored : Asset.t :=
  Asset.mk (Some "a1") (Some "users/u2/images/ada.jpg") None (Some 2) None None
    (Some "ada.jpg") None.
Definition linked : Asset.t :=
  Asset.mk (Some "a2") None (Some "https://cdn.example/ada.jpg") None None None None None.
Definition bare : Asset.t := Asset.mk (Some "a3") None None None None None None None.

End Outage.

(** * Theorems *)

(** ** Placeholder ids *)

Lemma prefix_app (p s : string) : String.prefix p (p +:+ s) = true.
Proof.
  induction p as [|c p IH]; [by destruct s|].
  simpl. by destruct (Ascii.ascii_dec c c).
Qed.

(** C9. For every model name, string or not, [createPendingReplicateId]
    yields ["pending:"], then the name ("model" when the argument is not a
    string), the timestamp and the random suffix, separated by colons;
    [isPendingReplicateId] accepts that id, and rejects every value that is
    not a string. *)
Theorem pending_id_roundtrip (modelName : Js.Value) (now : Z) (token : string) :
  (exists safeName,
      createPendingReplicateId modelName now token
        = "pending:" +:+ safeName +:+ ":" +:+ pretty now +:+ ":" +:+ token
      /\ (forall s, modelName = Js.Str s -> safeName = s)
      /\ (Js.typeof modelName ≠ "string" -> safeName = "model"))
  /\ isPendingReplicateId (Js.Str (createPendingReplicateId modelName now token)) = true
  /\ (forall value, Js.typeof value ≠ "string" -> isPendingReplicateId value = false).
Proof.
  split; [|split].
  - exists (match modelName with Js.Str s => s | _ => "model" end).
    split; [by destruct modelName|]. split.
    + by intros s ->.
    + by destruct modelName.
  - unfold isPendingReplicateId, Js.startsWith.
    destruct modelName; apply prefix_app.
  - by intros [] Hty.
Qed.

Lemma pending_id_roundtrip_witness :
  isPendingReplicateId (Js.Num 7) = false
  /\ createPendingReplicateId (Js.Str "ada-17") 1700000000000 "k3j9x0aa"
     = "pending:ada-17:1700000000000:k3j9x0aa"
  /\ createPendingReplicateId Js.Null 5 "zz" = "pending:model:5:zz".
Proof.
  destruct (pending_id_roundtrip (Js.Str "ada-17") 1700000000000 "k3j9x0aa")
    as [[safeName [Hid [Hname _]]] [_ Hreject]].
  split; [apply Hreject; discriminate|].
  split; [by rewrite Hid, (Hname "ada-17" eq_refl)|].
  destruct (pending_id_roundtrip Js.Null 5 "zz") as [[safeNull [HidN [_ Hmodel]]] _].
  rewrite HidN, Hmodel; [reflexivity | discriminate].
Defined.

(** ** Listed trainings *)

Section ListedImages.
Import Listing.

Lemma minimalView_shows (stored : Training.t) : minimal_shows stored (minimalView stored).
Proof.
  unfold minimal_shows, minimalView; simpl.
  repeat split; rewrite ?length_take; lia.
Qed.

Lemma lean_shows_project (stored : Training.t) :
  lean_shows stored (processTraining (project stored)).
Proof.
  unfold lean_shows, processTraining, project; simpl.
  repeat split; rewrite ?firstn_map, ?length_map, ?length_take; try lia; done.
Qed.

(** C10. In minimal mode of getAllTrainings and in getTrainingsLean, each
    listed training carries at most 12 image assets and 12 image urls,
    the first 12 stored ones in stored order, and its two counts are the
    full stored lengths. *)
Theorem listed_images_capped (minimal : Js.Value) (selected : list Training.t) :
  (isMinimal minimal = true ->
   exists data,
     getAllTrainings_data minimal selected = inr data
     /\ Forall2 minimal_shows selected data)
  /\ Forall2 lean_shows selected (getTrainingsLean_data selected).
Proof.
  split.
  - intros Hmin. exists (map minimalView selected).
    unfold getAllTrainings_data. rewrite Hmin. split; [done|].
    induction selected as [|t rest IH]; constructor; auto using minimalView_shows.
  - unfold getTrainingsLean_data.
    induction selected as [|t rest IH]; constructor; auto using lean_shows_project.
Qed.

End ListedImages.

(** ** The status and cancel handlers *)

Lemma not_dispatched_pending (training : Training.t) :
  not_dispatched training = true <-> handle_pending training.
Proof.
  unfold not_dispatched, handle_pending.
  rewrite orb_true_iff, negb_true_iff. tauto.
Qed.

Lemma not_dispatched_real (training : Training.t) :
  not_dispatched training = false <-> ¬ handle_pending training.
Proof.
  rewrite <- not_dispatched_pending. by destruct (not_dispatched training).
Qed.

Lemma effects_since_log (w : World) (es : list Effect) :
  effects_since w (foldl (fun w e => log e w) w es) = es.
Proof.
  unfold effects_since.
  assert (forall w0, trace (foldl (fun w e => log e w) w0 es) = trace w0 ++ es) as ->.
  { induction es as [|e es IH]; intros w0; simpl; [by rewrite app_nil_r|].
    rewrite IH. simpl. by rewrite <- app_assoc. }
  by rewrite drop_app_length.
Qed.

Arguments Js.includes : simpl never.

(** Unfold one handler down to the environment's answers. *)
Ltac run_handler :=
  unfold checkTrainingStatus, cancelTraining, try_catch, mbind, M_bind,
    Training_findById, gets, call, res_json, new_Date, Training_findByIdAndUpdate,
    processTrainingEvent, populateTrainingForClient, broadcastTraining; simpl.

Section StatusAndCancel.
Variable env : Env.
Variables (id : string) (w : World) (training : Training.t).
Hypothesis Hstored : trainings w !! id = Some training.

Let handle := Training.replicateTrainingId training.

Lemma checkTrainingStatus_pending :
  handle_pending training ->
  checkTrainingStatus env id w
  = (Ok (mkResponse 200 (Success None (Document training))),
     log (ERespond (mkResponse 200 (Success None (Document training)))) w).
Proof.
  intros Hp%not_dispatched_pending. run_handler. by rewrite Hstored, Hp.
Qed.

Lemma cancelTraining_pending :
  handle_pending training ->
  let r := mkResponse 400 (Failure "Training has not been dispatched to Replicate yet." None) in
  cancelTraining env id w = (Ok r, log (ERespond r) w).
Proof.
  intros Hp%not_dispatched_pending. run_handler. by rewrite Hstored, Hp.
Qed.

End StatusAndCancel.

Lemma effects_since_log1 (w : World) (e : Effect) : effects_since w (log e w) = [e].
Proof. apply (effects_since_log w [e]). Qed.

Lemma effects_since_log2 (w : World) (a b : Effect) :
  effects_since w (log b (log a w)) = [a; b].
Proof. apply (effects_since_log w [a; b]). Qed.

Lemma effects_since_app (w w' : World) (es : list Effect) :
  trace w' = trace w ++ es -> effects_since w w' = es.
Proof. intros Htr. unfold effects_since. by rewrite Htr, drop_app_length. Qed.

Lemma alter_stored {A} (f : A -> A) (k : string) (x : A) (m : gmap string A) :
  m !! k = Some x -> alter f k m = <[k := f x]> m.
Proof.
  intros Hk. apply map_eq. intros j.
  destruct (decide (k = j)) as [<-|Hne].
  - by rewrite lookup_alter_eq, lookup_insert_eq, Hk.
  - by rewrite lookup_alter_ne, lookup_insert_ne.
Qed.

(** C3. When the external handle of a stored training is a placeholder or
    absent, checkTrainingStatus answers 200 with the stored record and
    cancelTraining answers 400 with an error; neither changes the store and
    neither makes a call to the provider. *)
Theorem pending_handle_never_reaches_provider
    (env : Env) (id : string) (w : World) (training : Training.t) :
  trainings w !! id = Some training ->
  handle_pending training ->
  (let '(r, w') := checkTrainingStatus env id w in
   r = Ok (mkResponse 200 (Success None (Document training)))
   /\ trainings w' = trainings w
   /\ Forall (fun e => is_provider_call e = false) (effects_since w w'))
  /\
  (let '(r, w') := cancelTraining env id w in
   (exists message, r = Ok (mkResponse 400 (Failure message None)))
   /\ trainings w' = trainings w
   /\ Forall (fun e => is_provider_call e = false) (effects_since w w')).
Proof.
  intros Hstored Hpending. split.
  - rewrite (checkTrainingStatus_pending env id w training Hstored Hpending).
    rewrite effects_since_log1. repeat split. by repeat constructor.
  - pose proof (cancelTraining_pending env id w training Hstored Hpending) as Hrun.
    simpl in Hrun. rewrite Hrun.
    rewrite effects_since_log1. repeat split; [eauto|]. by repeat constructor.
Qed.

(** C1 (as amended). cancelTraining is rejected with a 400 error, no state
    change and no outward call whenever the external handle of the stored
    training is absent or a placeholder; whenever the handle is real, the
    cancel request goes to the provider first, whatever the status of the
    record is. *)
Theorem cancelTraining_guard
    (env : Env) (id : string) (w : World) (training : Training.t) :
  trainings w !! id = Some training ->
  let '(r, w') := cancelTraining env id w in
  (handle_pending training ->
   exists message,
     r = Ok (mkResponse 400 (Failure message None))
     /\ trainings w' = trainings w
     /\ effects_since w w' = [ERespond (mkResponse 400 (Failure message None))])
  /\
  (¬ handle_pending training ->
   exists rest,
     effects_since w w'
     = EReplicateTrainingsCancel (Training.replicateTrainingId training) :: rest).
Proof.
  intros Hstored.
  destruct (not_dispatched training) eqn:Hguard.
  - pose proof (cancelTraining_pending env id w training Hstored
                  (proj1 (not_dispatched_pending training) Hguard)) as Hrun.
    simpl in Hrun. rewrite Hrun. split.
    + intros _. eexists. split; [done|]. split; [done|]. apply effects_since_log1.
    + intros Hreal. by apply not_dispatched_real in Hreal; congruence.
  - run_handler. rewrite Hstored, Hguard.
    set (handle := Training.replicateTrainingId training).
    destruct (replicate_trainings_cancel env handle) as [[]|e];
      [destruct (populateTrainingForClient_run _ _ _ _);
       [destruct (broadcastTraining_run _ _ _ _)|]|];
      (split; [intros Hp%not_dispatched_pending; congruence|]);
      intros _; eexists; apply effects_since_app; simpl;
      rewrite <- ?app_assoc; simpl; reflexivity.
Qed.

Lemma includes_terminal (status : string) :
  Js.includes TERMINAL_STATUSES status = true <-> is_terminal status.
Proof.
  unfold Js.includes, is_terminal, TERMINAL_STATUSES.
  rewrite existsb_exists. split.
  - intros [x [Hin Heq]]. apply String.eqb_eq in Heq. subst x.
    by apply list_elem_of_In.
  - intros Hin. exists status. split; [by apply list_elem_of_In|apply String.eqb_refl].
Qed.


(** C5. For a stored training with a real external handle: when the
    provider acknowledges the cancel request, the record becomes canceled,
    with completedAt set and one "canceled" event appended to its log, and
    nothing else in the store changes; when the provider rejects it, the
    answer is a 500 that carries the provider's message, the store is
    unchanged, and the request is not repeated. *)
Theorem cancelTraining_atomic
    (env : Env) (id : string) (w : World) (training : Training.t) :
  trainings w !! id = Some training ->
  ¬ handle_pending training ->
  let handle := Training.replicateTrainingId training in
  let '(r, w') := cancelTraining env id w in
  (forall ack, replicate_trainings_cancel env handle = Ok ack ->
   exists now canceled event,
     trainings w' = <[id := canceled]> (trainings w)
     /\ Training.status canceled = "canceled"
     /\ Training.completedAt canceled = Some now
     /\ Training.events canceled = Training.events training ++ [event]
     /\ Event.type event = "canceled"
     /\ Event.timestamp event = now
     /\ Training.replicateTrainingId canceled = handle)
  /\
  (forall e, replicate_trainings_cancel env handle = Throw e ->
   let failure :=
     mkResponse 500 (Failure "Failed to cancel training" (Some (Js.message e))) in
   r = Ok failure
   /\ trainings w' = trainings w
   /\ effects_since w w' = [EReplicateTrainingsCancel handle; ERespond failure]).
Proof.
  intros Hstored Hreal%not_dispatched_real handle.
  run_handler. rewrite Hstored, Hreal. fold handle.
  destruct (replicate_trainings_cancel env handle) as [[]|e] eqn:Hcancel.
  - rewrite (alter_stored _ _ _ _ Hstored).
    set (now := clock env (length (trace w ++ [EReplicateTrainingsCancel handle]))).
    set (event := Event.mk "canceled" "Training canceled by user"
                    [("replicateTrainingId", handle)] now).
    set (update := mkUpdate [SetStatus "canceled"; SetCompletedAt now] [event]).
    assert (Hfields :
      Training.status (apply_update update training) = "canceled"
      /\ Training.completedAt (apply_update update training) = Some now
      /\ Training.events (apply_update update training) = Training.events training ++ [event]
      /\ Event.type event = "canceled"
      /\ Event.timestamp event = now
      /\ Training.replicateTrainingId (apply_update update training) = handle).
    { subst handle. by destruct training. }
    destruct (populateTrainingForClient_run _ _ _ _);
      [destruct (broadcastTraining_run _ _ _ _)|];
      (split; [|by intros e' [=]]); intros _ _;
      exists now, (apply_update update training), event;
      (split; [simpl; by rewrite ?(alter_stored _ _ _ _ Hstored)|]);
      exact Hfields.
  - split; [by intros ack [=]|]. intros e' [= <-]. simpl.
    split; [done|]. split; [done|]. apply effects_since_log2.
Qed.

(** ** startTraining *)

(** C7. A start request whose user is not stored is answered 404, and one
    that brings no files for a user without stored image assets is answered
    400; in both cases the answer is the only outward call of the handler:
    no training is created and the store is unchanged. *)
Theorem startTraining_validation (env : Env) (req : StartRequest) (w : World) :
  let '(r, w') := startTraining env req w in
  (users w !! body_userId req = None ->
   let notFound := mkResponse 404 (Failure "User not found" None) in
   r = Ok notFound
   /\ trainings w' = trainings w
   /\ effects_since w w' = [ERespond notFound])
  /\
  (forall user,
     users w !! body_userId req = Some user ->
     default [] (req_files req) = [] ->
     default [] (User.imageAssets user) = [] ->
     exists message,
       r = Ok (mkResponse 400 (Failure message None))
       /\ trainings w' = trainings w
       /\ effects_since w w' = [ERespond (mkResponse 400 (Failure message None))]).
Proof.
  destruct (startTraining env req w) as [r w'] eqn:Hrun.
  revert Hrun.
  unfold startTraining, try_catch, startTraining_try, liftW, mbind, M_bind,
    User_findById, gets; simpl.
  intros Hrun. split.
  - intros Hnone. rewrite Hnone in Hrun. simpl in Hrun.
    injection Hrun as <- <-. split; [done|]. split; [done|]. apply effects_since_log1.
  - intros user Huser Hfiles Hassets. rewrite Huser, Hfiles in Hrun.
    unfold gatherSourceAssets in Hrun. rewrite Hassets in Hrun. simpl in Hrun.
    injection Hrun as <- <-. eexists.
    split; [done|]. split; [done|]. apply effects_since_log1.
Qed.

(** *** The steps of startTraining before the record is created are quiet *)

Lemma quiet_step_refl (w : World) : quiet_step w w.
Proof. repeat split. exists []. by rewrite app_nil_r. Qed.

Lemma quiet_step_trans (w1 w2 w3 : World) :
  quiet_step w1 w2 -> quiet_step w2 w3 -> quiet_step w1 w3.
Proof.
  intros (Ht1 & Hu1 & es1 & Htr1 & Hq1) (Ht2 & Hu2 & es2 & Htr2 & Hq2).
  split; [congruence|]. split; [congruence|].
  exists (es1 ++ es2). split; [by rewrite Htr2, Htr1, app_assoc|by apply Forall_app].
Qed.

Lemma quiet_step_log (w : World) (e : Effect) :
  touches_trainings e = false -> quiet_step w (log e w).
Proof. intros He. repeat split. exists [e]. split; [done|by constructor]. Qed.

Lemma quiet_mret {A} (a : A) : quiet (mret a : M World A).
Proof. intros w. apply quiet_step_refl. Qed.

Lemma quiet_throw {A} (e : Js.Error) : quiet (throw e : M World A).
Proof. intros w. apply quiet_step_refl. Qed.

Lemma quiet_gets {A} (f : World -> A) : quiet (gets f).
Proof. intros w. apply quiet_step_refl. Qed.

Lemma quiet_new_Date (env : Env) : quiet (new_Date env).
Proof. apply quiet_gets. Qed.

Lemma quiet_call {A} (e : Effect) (answer : nat -> Result A) :
  touches_trainings e = false -> quiet (call e answer).
Proof. intros He w. by apply quiet_step_log. Qed.

Lemma quiet_bind {A B} (m : M World A) (f : A -> M World B) :
  quiet m -> (forall a, quiet (f a)) -> quiet (m ≫= f).
Proof.
  intros Hm Hf w. unfold mbind, M_bind. specialize (Hm w).
  destruct (m w) as [[a|e] w1]; simpl in *; [|done].
  eapply quiet_step_trans; [done|apply Hf].
Qed.

Lemma quiet_try_catch {A} (body : M World A) (handler : Js.Error -> M World A) :
  quiet body -> (forall e, quiet (handler e)) -> quiet (try_catch body handler).
Proof.
  intros Hm Hh w. unfold try_catch. specialize (Hm w).
  destruct (body w) as [[a|e] w1]; simpl in *; [done|].
  eapply quiet_step_trans; [done|apply Hh].
Qed.

Lemma quiet_when_str {A} (o : option string) (then_ : string -> M World A) (else_ : M World A) :
  (forall s, quiet (then_ s)) -> quiet else_ -> quiet (Js.when_str o then_ else_).
Proof. intros Ht He. unfold Js.when_str. destruct o as [s|]; [destruct (_ =? _)%string|]; auto. Qed.

Lemma quiet_res_json (code : nat) (body : Body) : quiet (res_json code body).
Proof. intros w. by apply quiet_step_log. Qed.

Lemma quiet_forM {A B} (f : A -> M World B) (xs : list A) :
  (forall x, quiet (f x)) -> quiet (forM f xs).
Proof.
  intros Hf. induction xs as [|x xs IH]; simpl; [apply quiet_mret|].
  apply quiet_bind; [done|]. intros y. apply quiet_bind; [done|].
  intros ys. apply quiet_mret.
Qed.

Create HintDb quiet.
#[local] Hint Resolve quiet_mret quiet_throw quiet_gets quiet_new_Date quiet_res_json : quiet.
#[local] Hint Extern 2 (quiet (call _ _)) => apply quiet_call; reflexivity : quiet.
#[local] Hint Extern 3 (quiet (_ ≫= _)) => apply quiet_bind; [|intros ?] : quiet.
#[local] Hint Extern 3 (quiet (try_catch _ _)) => apply quiet_try_catch; [|intros ?] : quiet.
#[local] Hint Extern 3 (quiet (Js.when_str _ _ _)) => apply quiet_when_str; [intros ?|] : quiet.
#[local] Hint Extern 4 (quiet (match ?x with _ => _ end)) => destruct x : quiet.

Lemma quiet_downloadFromS3 (env : Env) (key : string) : quiet (downloadFromS3 env key).
Proof. unfold downloadFromS3. auto 10 with quiet. Qed.

Lemma quiet_uploadBufferToS3 (env : Env) (key : string) : quiet (uploadBufferToS3 env key).
Proof. unfold uploadBufferToS3. auto 10 with quiet. Qed.

Lemma quiet_deleteFromS3 (env : Env) (key : option string) : quiet (deleteFromS3 env key).
Proof. unfold deleteFromS3. auto 10 with quiet. Qed.

#[local] Hint Resolve quiet_downloadFromS3 quiet_uploadBufferToS3 quiet_deleteFromS3 : quiet.

Lemma quiet_downloadAssetBuffer (env : Env) (asset : option Asset.t) (index : nat) :
  quiet (downloadAssetBuffer env asset index).
Proof. unfold downloadAssetBuffer, normaliseUrl. auto 20 with quiet. Qed.

#[local] Hint Resolve quiet_downloadAssetBuffer : quiet.

Lemma quiet_loadUserAssets (env : Env) (assets : list Asset.t) :
  forall index sourceAssets, quiet (loadUserAssets env assets index sourceAssets).
Proof.
  induction assets as [|asset rest IH]; intros index sourceAssets; simpl;
    auto 20 with quiet.
Qed.

#[local] Hint Resolve quiet_loadUserAssets : quiet.

Lemma quiet_gatherSourceAssets (env : Env) (user : User.t) (files : list UploadedFile)
    (useUserAssets : bool) :
  quiet (gatherSourceAssets env user files useUserAssets).
Proof. unfold gatherSourceAssets. auto 20 with quiet. Qed.

Lemma quiet_uploadSourceAssets (env : Env) (name : string) (sourceAssets : list SourceAsset) :
  forall index, quiet (uploadSourceAssets env name sourceAssets index).
Proof.
  induction sourceAssets as [|asset rest IH]; intros index; simpl; auto 20 with quiet.
Qed.

#[local] Hint Resolve quiet_gatherSourceAssets quiet_uploadSourceAssets : quiet.

Lemma quietS_liftW {A} (m : M World A) : quiet m -> quietS (liftW m).
Proof.
  intros Hm w l. unfold liftW. specialize (Hm w). by destruct (m w) as [r w'].
Qed.

Lemma quietS_mret {A} (a : A) : quietS (mret a : M StartState A).
Proof. intros w l. apply quiet_step_refl. Qed.

Lemma quietS_throw {A} (e : Js.Error) : quietS (throw e : M StartState A).
Proof. intros w l. apply quiet_step_refl. Qed.

Lemma quietS_get_local {A} (f : Locals -> A) : quietS (get_local f).
Proof. intros w l. apply quiet_step_refl. Qed.

Lemma quietS_set_uploadedAssets v : quietS (set_uploadedAssets v).
Proof. intros w l. apply quiet_step_refl. Qed.

Lemma quietS_set_generatedZipKey v : quietS (set_generatedZipKey v).
Proof. intros w l. apply quiet_step_refl. Qed.

Lemma quietS_set_localZipPath v : quietS (set_localZipPath v).
Proof. intros w l. apply quiet_step_refl. Qed.

Lemma quietS_bind {A B} (m : M StartState A) (f : A -> M StartState B) :
  quietS m -> (forall a, quietS (f a)) -> quietS (m ≫= f).
Proof.
  intros Hm Hf w l. unfold mbind, M_bind. specialize (Hm w l).
  destruct (m (w, l)) as [[a|e] [w1 l1]]; simpl in *; [|done].
  eapply quiet_step_trans; [done|apply Hf].
Qed.

#[local] Hint Resolve quietS_mret quietS_throw quietS_get_local quietS_set_uploadedAssets
  quietS_set_generatedZipKey quietS_set_localZipPath : quiet.
#[local] Hint Extern 2 (quietS (liftW _)) => apply quietS_liftW : quiet.
#[local] Hint Extern 3 (quietS (_ ≫= _)) => apply quietS_bind; [|intros ?] : quiet.
#[local] Hint Extern 4 (quietS (match ?x with _ => _ end)) => destruct x : quiet.

Lemma quietS_prepareDataset (env : Env) (name : string) (sourceAssets : list SourceAsset) :
  quietS (prepareDataset env name sourceAssets).
Proof. unfold prepareDataset. auto 30 with quiet. Qed.

#[local] Hint Resolve quietS_prepareDataset : quiet.

Lemma reaches_stop (env : Env) (userId : string) (code : nat) (body : Body) :
  code ≠ 202 -> reaches env userId (liftW (res_json code body)).
Proof.
  intros Hcode w l. simpl. left. split; [by apply quiet_step_log|].
  by intros resp [= <-].
Qed.

Lemma reaches_createAndDispatch (env : Env) (userId name : string) uploaded cfg args :
  reaches env userId (liftW (createAndDispatch env userId name uploaded cfg args)).
Proof.
  intros w l. unfold liftW.
  destruct (createAndDispatch env userId name uploaded cfg args w) as [r w'] eqn:Hrun.
  right. exists w, name, uploaded, cfg, args. split; [apply quiet_step_refl|done].
Qed.

Lemma reaches_bind {A} (env : Env) (userId : string)
    (m : M StartState A) (f : A -> M StartState Response) :
  quietS m -> (forall a, reaches env userId (f a)) -> reaches env userId (m ≫= f).
Proof.
  intros Hm Hf w l. unfold mbind, M_bind. specialize (Hm w l).
  destruct (m (w, l)) as [[a|e] [w1 l1]]; simpl in *.
  - specialize (Hf a w1 l1). destruct (f a (w1, l1)) as [r [w' l']].
    destruct Hf as [[Hq Hr]|(w2 & name & uploaded & cfg & args & Hq & Hrun)].
    + left. split; [by eapply quiet_step_trans|done].
    + right. exists w2, name, uploaded, cfg, args.
      split; [by eapply quiet_step_trans|done].
  - left. split; [done|]. by intros resp [=].
Qed.

Lemma startTraining_try_reaches (env : Env) (req : StartRequest) (files : list UploadedFile) :
  reaches env (body_userId req) (startTraining_try env req files).
Proof.
  unfold startTraining_try.
  apply reaches_bind; [unfold User_findById; auto with quiet|]. intros [user|];
    [|by apply reaches_stop].
  apply reaches_bind; [auto with quiet|]. intros [message|[sourceAssets userAssetIdsUsed]];
    [by apply reaches_stop|].
  destruct (length sourceAssets =? 0); [by apply reaches_stop|].
  apply reaches_bind; [auto with quiet|]. intros timestamp.
  apply reaches_bind; [auto 10 with quiet|]. intros rawName.
  apply reaches_bind; [auto with quiet|]. intros zipUrl.
  apply reaches_bind; [auto with quiet|]. intros uploaded.
  apply reaches_bind; [auto with quiet|]. intros zipKey.
  apply reaches_bind; [auto 20 with quiet|]. intros destination.
  apply reaches_createAndDispatch.
Qed.

(** *** The [catch] of startTraining *)

Lemma calm_mret {A} (a : A) : calm (mret a : M World A).
Proof. intros w. exists a, w. split; [done|apply quiet_step_refl]. Qed.

Lemma calm_swallow {A} (m : M World A) (a : A) :
  quiet m -> calm (try_catch m (fun _ => mret a)).
Proof.
  intros Hm w. unfold try_catch. specialize (Hm w).
  destruct (m w) as [[a'|e] w']; simpl in *; eauto.
Qed.

Lemma calm_when_str {A} (o : option string) (then_ : string -> M World A) (else_ : M World A) :
  (forall s, calm (then_ s)) -> calm else_ -> calm (Js.when_str o then_ else_).
Proof. intros Ht He. unfold Js.when_str. destruct o as [s|]; [destruct (_ =? _)%string|]; auto. Qed.

Lemma calm_forM {A B} (f : A -> M World B) (xs : list A) :
  (forall x, calm (f x)) -> calm (forM f xs).
Proof.
  intros Hf. induction xs as [|x xs IH]; simpl; [apply calm_mret|].
  intros w. unfold mbind, M_bind.
  destruct (Hf x w) as (y & w1 & -> & Hq1).
  destruct (IH w1) as (ys & w2 & -> & Hq2).
  exists (y :: ys), w2. split; [done|by eapply quiet_step_trans].
Qed.

Lemma startTraining_catch_run (env : Env) (error : Js.Error) (w : World) (l : Locals) :
  exists w' l' cleanup,
    startTraining_catch env error (w, l) = (Ok (start_failure error), (w', l'))
    /\ trainings w' = trainings w
    /\ users w' = users w
    /\ trace w' = trace w ++ cleanup ++ [ERespond (start_failure error)]
    /\ Forall (fun e => touches_trainings e = false) cleanup.
Proof.
  unfold startTraining_catch, mbind, M_bind, get_local, gets, liftW. cbv beta iota.
  destruct (calm_when_str (generatedZipKey l)
              (fun key => try_catch (deleteFromS3 env (Some key)) (fun _ => mret tt))
              (mret tt)
              (fun key => calm_swallow _ tt (quiet_deleteFromS3 env (Some key)))
              (calm_mret tt) w)
    as (a1 & w1 & -> & Hq1).
  destruct (calm_forM
              (fun asset => try_catch (deleteFromS3 env (Asset.key asset)) (fun _ => mret tt))
              (uploadedAssets l)
              (fun asset => calm_swallow _ tt (quiet_deleteFromS3 env (Asset.key asset))) w1)
    as (a2 & w2 & -> & Hq2).
  destruct (calm_when_str (localZipPath l)
              (fun path => try_catch (call (EFsRemove path) (fun n => fs_remove env n path))
                             (fun _ => mret tt))
              (mret tt)
              (fun path => calm_swallow _ tt
                             (quiet_call (EFsRemove path) _ eq_refl))
              (calm_mret tt) w2)
    as (a3 & w3 & -> & Hq3).
  simpl.
  destruct (quiet_step_trans _ _ _ Hq1 (quiet_step_trans _ _ _ Hq2 Hq3))
    as (Ht & Hu & cleanup & Htr & Hquiet).
  eexists _, _, cleanup. split; [reflexivity|]. simpl.
  split; [done|]. split; [done|]. split; [|done].
  by rewrite Htr, app_assoc.
Qed.

(** *** Creating and dispatching the record, case by case *)

Lemma newTrainingDocument_queued (userId name : string) uploaded (pending : string) cfg now :
  Js.startsWith pending "pending:" = true ->
  freshly_queued (newTrainingDocument userId name uploaded pending cfg now).
Proof. intros Hp. unfold freshly_queued. simpl. repeat split; eauto. Qed.

Lemma fresh_training_id (store : gmap string Training.t) : store !! fresh (dom store) = None.
Proof. apply not_elem_of_dom, is_fresh. Qed.

Lemma createAndDispatch_run (env : Env) (userId name : string) (uploaded : list Asset.t)
    (cfg : Config.t) (args : Replicate.Args) (w : World) :
  let id := fresh (dom (trainings w)) in
  exists doc,
    freshly_queued doc
    /\ trainings w !! id = None
    /\ let store0 := <[id := doc]> (trainings w) in
       let created := [ETrainingCreate id doc; EBroadcastTraining id] in
       let dispatched := EDispatchTraining id args "initial" in
       let '(r, w') := createAndDispatch env userId name uploaded cfg args w in
       users w' = users w
       /\ match broadcastTraining_run env (length (trace w) + 1) id store0 with
          | Throw e => r = Throw e /\ trainings w' = store0 /\ trace w' = trace w ++ created
          | Ok _ =>
              match dispatchTraining_run env id args "initial" store0 with
              | (Ok _, store1) =>
                  trainings w' = store1
                  /\ match populateTrainingForClient_run env id store1 (users w) with
                     | Ok populated =>
                         let accepted :=
                           mkResponse 202 (Success (Some "Training started successfully")
                                             (Populated populated)) in
                         r = Ok accepted
                         /\ trace w'
                            = trace w ++ created
                              ++ [dispatched; EPopulateTrainingForClient id; ERespond accepted]
                     | Throw e =>
                         r = Throw e
                         /\ trace w'
                            = trace w ++ created ++ [dispatched; EPopulateTrainingForClient id]
                     end
              | (Throw e, store1) =>
                  let update := dispatchFailureUpdate e (clock env (length (trace w) + 3)) in
                  trainings w' = alter (apply_update update) id store1
                  /\ trace w'
                     = trace w ++ created
                       ++ [dispatched; ETrainingFindByIdAndUpdate id update;
                           EBroadcastTraining id]
                  /\ exists e', r = Throw e'
              end
          end.
Proof.
  intros id.
  set (now := clock env (length (trace w))).
  set (pending := createPendingReplicateId (Js.Str name) now
                    (randomToken env (length (trace w)))).
  exists (newTrainingDocument userId name uploaded pending cfg now).
  split; [apply newTrainingDocument_queued, prefix_app|].
  split; [apply fresh_training_id|].
  unfold createAndDispatch, try_catch, mbind, M_bind, new_Date, gets, Training_create,
    broadcastTraining, dispatchTraining, populateTrainingForClient, res_json,
    Training_findByIdAndUpdate, throw.
  simpl. fold id now pending.
  set (doc := newTrainingDocument userId name uploaded pending cfg now).
  rewrite !length_app. simpl.
  replace (length (trace w) + 1 + 1 + 1) with (length (trace w) + 3) by lia.
  destruct (broadcastTraining_run env (length (trace w) + 1) id _) as [[]|e]; simpl.
  - destruct (dispatchTraining_run env id args "initial" _) as [[[]|e] store1]; simpl.
    + destruct (populateTrainingForClient_run env id store1 (users w)) as [p|e]; simpl;
        rewrite <- ?app_assoc; simpl; done.
    + destruct (broadcastTraining_run _ _ _ _) as [[]|e2]; simpl;
        rewrite <- ?app_assoc; simpl; rewrite ?length_app; simpl; eauto.
  - rewrite <- ?app_assoc. done.
Qed.

(** *** Every run of startTraining, case by case *)

Lemma startTraining_cases (env : Env) (req : StartRequest) (w : World) :
  let '(r, w') := startTraining env req w in
  (quiet_step w w' /\ forall resp, r = Ok resp -> res_status resp ≠ 202)
  \/ exists w1 name uploaded cfg args,
       quiet_step w w1
       /\ match createAndDispatch env (body_userId req) name uploaded cfg args w1 with
          | (Ok resp, w2) => r = Ok resp /\ w' = w2
          | (Throw e, w2) =>
              r = Ok (start_failure e)
              /\ trainings w' = trainings w2
              /\ users w' = users w2
              /\ exists cleanup,
                   trace w' = trace w2 ++ cleanup ++ [ERespond (start_failure e)]
                   /\ Forall (fun e => touches_trainings e = false) cleanup
          end.
Proof.
  unfold startTraining, try_catch.
  pose proof (startTraining_try_reaches env req (default [] (req_files req)) w
                (mkLocals [] None None)) as Hreach.
  destruct (startTraining_try env req (default [] (req_files req))
              (w, mkLocals [] None None)) as [r [w1 l1]].
  destruct r as [resp|e].
  - destruct Hreach as [Hstop|(w0 & name & uploaded & cfg & args & Hq & Hrun)];
      [by left|].
    right. exists w0, name, uploaded, cfg, args. split; [done|]. by rewrite Hrun.
  - destruct (startTraining_catch_run env e w1 l1)
      as (w2 & l2 & cleanup & -> & Ht & Hu & Htr & Hquiet).
    destruct Hreach as [[Hq _]|(w0 & name & uploaded & cfg & args & Hq & Hrun)].
    + left. split; [|by intros resp [= <-]].
      eapply quiet_step_trans; [done|]. split; [done|]. split; [done|].
      exists (cleanup ++ [ERespond (start_failure e)]). split; [done|].
      apply Forall_app. split; [done|]. by repeat constructor.
    + right. exists w0, name, uploaded, cfg, args. split; [done|].
      rewrite Hrun. eauto 10.
Qed.

Lemma startTraining_trace (env : Env) (req : StartRequest) (w : World) :
  let '(r, w') := startTraining env req w in
  (quiet_step w w' /\ forall resp, r = Ok resp -> res_status resp ≠ 202)
  \/ exists before id doc args,
       Forall (fun e => touches_trainings e = false) before
       /\ trainings w !! id = None
       /\ freshly_queued doc
       /\ users w' = users w
       /\ let store0 := <[id := doc]> (trainings w) in
          let created := before ++ [ETrainingCreate id doc; EBroadcastTraining id] in
          let dispatched := EDispatchTraining id args "initial" in
          match broadcastTraining_run env (length (trace w ++ before) + 1) id store0 with
          | Throw e =>
              r = Ok (start_failure e)
              /\ trainings w' = store0
              /\ exists cleanup,
                   effects_since w w' = created ++ cleanup ++ [ERespond (start_failure e)]
                   /\ Forall (fun e => touches_trainings e = false) cleanup
          | Ok _ =>
              match dispatchTraining_run env id args "initial" store0 with
              | (Ok _, store1) =>
                  trainings w' = store1
                  /\ match populateTrainingForClient_run env id store1 (users w) with
                     | Ok populated =>
                         let accepted :=
                           mkResponse 202 (Success (Some "Training started successfully")
                                             (Populated populated)) in
                         r = Ok accepted
                         /\ effects_since w w'
                            = created
                              ++ [dispatched; EPopulateTrainingForClient id; ERespond accepted]
                     | Throw e =>
                         r = Ok (start_failure e)
                         /\ exists cleanup,
                              effects_since w w'
                              = created ++ [dispatched; EPopulateTrainingForClient id]
                                ++ cleanup ++ [ERespond (start_failure e)]
                              /\ Forall (fun e => touches_trainings e = false) cleanup
                     end
              | (Throw e, store1) =>
                  let update :=
                    dispatchFailureUpdate e (clock env (length (trace w ++ before) + 3)) in
                  trainings w' = alter (apply_update update) id store1
                  /\ exists e' cleanup,
                       r = Ok (start_failure e')
                       /\ effects_since w w'
                          = created
                            ++ [dispatched; ETrainingFindByIdAndUpdate id update;
                                EBroadcastTraining id]
                            ++ cleanup ++ [ERespond (start_failure e')]
                       /\ Forall (fun e => touches_trainings e = false) cleanup
              end
          end.
Proof.
  pose proof (startTraining_cases env req w) as Hcases.
  destruct (startTraining env req w) as [r w'].
  destruct Hcases as [Hstop|(w1 & name & uploaded & cfg & args & Hq & Hrun)]; [by left|].
  right. destruct Hq as (Ht & Hu & before & Htr & Hquiet).
  destruct (createAndDispatch_run env (body_userId req) name uploaded cfg args w1)
    as (doc & Hdoc & Hfresh & Hshape).
  rewrite Ht, Hu, Htr in *.
  exists before, (fresh (dom (trainings w))), doc, args.
  split; [done|]. split; [done|]. split; [done|].
  cbv zeta in Hshape.
  destruct (createAndDispatch env (body_userId req) name uploaded cfg args w1) as [r2 w2].
  destruct Hshape as [Husers Hshape].
  cbv zeta.
  destruct (broadcastTraining_run env (length (trace w ++ before) + 1) _ _) as [[]|e].
  - destruct (dispatchTraining_run env _ args "initial" _) as [[[]|e] store1].
    + destruct Hshape as [Hstore Hshape].
      destruct (populateTrainingForClient_run env _ store1 (users w)) as [p|e].
      * destruct Hshape as [-> Htrace]. destruct Hrun as [-> ->].
        split; [done|]. split; [done|]. split; [done|].
        apply effects_since_app. by rewrite Htrace, <- !app_assoc.
      * destruct Hshape as [-> Htrace].
        destruct Hrun as (-> & Ht' & Hu' & cleanup & Htr' & Hquiet').
        split; [congruence|]. split; [congruence|]. split; [done|].
        exists cleanup. split; [|done].
        apply effects_since_app. by rewrite Htr', Htrace, <- !app_assoc.
    + destruct Hshape as (Hstore & Htrace & e' & ->).
      destruct Hrun as (-> & Ht' & Hu' & cleanup & Htr' & Hquiet').
      split; [congruence|]. split; [congruence|].
      exists e', cleanup. split; [done|]. split; [|done].
      apply effects_since_app. by rewrite Htr', Htrace, <- !app_assoc.
  - destruct Hshape as (-> & Hstore & Htrace).
    destruct Hrun as (-> & Ht' & Hu' & cleanup & Htr' & Hquiet').
    split; [congruence|]. split; [done|]. split; [congruence|].
    exists cleanup. split; [|done].
    apply effects_since_app. by rewrite Htr', Htrace, <- !app_assoc.
Qed.

Lemma quiet_not_elem (es : list Effect) (e : Effect) :
  Forall (fun e => touches_trainings e = false) es ->
  touches_trainings e = true -> e ∉ es.
Proof. intros Hq He Hin. rewrite Forall_forall in Hq. apply Hq in Hin. congruence. Qed.

Lemma quiet_step_effects (w w' : World) :
  quiet_step w w' -> Forall (fun e => touches_trainings e = false) (effects_since w w').
Proof. intros (_ & _ & es & Htr & Hq). by rewrite (effects_since_app _ _ _ Htr). Qed.

Lemma precedes_adjacent (a b : Effect) (l1 l3 tr : list Effect) :
  tr = l1 ++ a :: b :: l3 -> precedes a b tr.
Proof. intros ->. by exists l1, [], l3. Qed.

(** Split a membership in an explicit trace into its cases; drop those that
    place a call on the trainings among quiet calls. *)
Ltac elem_cases H :=
  repeat first
    [ rewrite elem_of_app in H
    | rewrite elem_of_cons in H
    | rewrite elem_of_nil in H ];
  repeat match type of H with
         | _ \/ _ => destruct H as [H|H]
         end;
  try discriminate H; try contradiction H;
  try (exfalso; eapply quiet_not_elem; [| |exact H]; [eassumption|reflexivity]).

(** C6. Whatever startTraining does, a training it creates is new in the
    store and is created queued, with progress 0, attempts 0, a placeholder
    external handle and a log of one "created" event; a dispatch is made
    only after the created record was broadcast; and an accepted start
    (202) has created, broadcast and dispatched one training, in that
    order. *)
Theorem startTraining_creates_queued (env : Env) (req : StartRequest) (w : World) :
  let '(r, w') := startTraining env req w in
  (forall id doc,
     ETrainingCreate id doc ∈ effects_since w w' ->
     trainings w !! id = None /\ freshly_queued doc)
  /\
  (forall id args reason,
     EDispatchTraining id args reason ∈ effects_since w w' ->
     exists doc,
       precedes (ETrainingCreate id doc) (EBroadcastTraining id) (effects_since w w')
       /\ precedes (EBroadcastTraining id) (EDispatchTraining id args reason)
            (effects_since w w'))
  /\
  (forall resp,
     r = Ok resp -> res_status resp = 202 ->
     exists before id doc args,
       effects_since w w'
       = before ++ [ETrainingCreate id doc; EBroadcastTraining id;
                    EDispatchTraining id args "initial";
                    EPopulateTrainingForClient id; ERespond resp]
       /\ Forall (fun e => touches_trainings e = false) before).
Proof.
  pose proof (startTraining_trace env req w) as Hrun.
  destruct (startTraining env req w) as [r w'].
  destruct Hrun as [[Hq Hr]|(before & id0 & doc0 & args0 & Hbefore & Hnew & Hdoc & _ & Hrun)].
  - apply quiet_step_effects in Hq. split; [|split].
    + intros id doc Hin. by apply (quiet_not_elem _ _ Hq) in Hin.
    + intros id args reason Hin. by apply (quiet_not_elem _ _ Hq) in Hin.
    + intros resp -> Hs. by apply Hr in Hs.
  - cbv zeta in Hrun.
    destruct (broadcastTraining_run env _ id0 _) as [[]|e].
    + destruct (dispatchTraining_run env id0 args0 "initial" _) as [[[]|e] store1].
      * destruct Hrun as [_ Hrun].
        destruct (populateTrainingForClient_run env id0 store1 (users w)) as [p|e].
        -- destruct Hrun as [-> Heff]. rewrite Heff. split; [|split].
           ++ intros id doc Hin. elem_cases Hin. by injection Hin as -> ->.
           ++ intros id args reason Hin. elem_cases Hin. injection Hin as -> -> ->.
              exists doc0. rewrite <- app_assoc. simpl. split.
              ** by eapply precedes_adjacent.
              ** exists (before ++ [ETrainingCreate id0 doc0]), []. eexists.
                 rewrite <- app_assoc. reflexivity.
           ++ intros resp [= <-] _. exists before, id0, doc0, args0.
              split; [by rewrite <- app_assoc|done].
        -- destruct Hrun as (-> & cleanup & Heff & Hcleanup). rewrite Heff. split; [|split].
           ++ intros id doc Hin. elem_cases Hin. by injection Hin as -> ->.
           ++ intros id args reason Hin. elem_cases Hin. injection Hin as -> -> ->.
              exists doc0. rewrite <- !app_assoc. simpl. split.
              ** by eapply precedes_adjacent.
              ** exists (before ++ [ETrainingCreate id0 doc0]), []. eexists.
                 rewrite <- app_assoc. reflexivity.
           ++ by intros resp [= <-] [=].
      * destruct Hrun as (_ & e' & cleanup & -> & Heff & Hcleanup).
        rewrite Heff. split; [|split].
        -- intros id doc Hin. elem_cases Hin. by injection Hin as -> ->.
        -- intros id args reason Hin. elem_cases Hin. injection Hin as -> -> ->.
           exists doc0. rewrite <- !app_assoc. simpl. split.
           ++ by eapply precedes_adjacent.
           ++ exists (before ++ [ETrainingCreate id0 doc0]), []. eexists.
                 rewrite <- app_assoc. reflexivity.
        -- by intros resp [= <-] [=].
    + destruct Hrun as (-> & _ & cleanup & Heff & Hcleanup).
      rewrite Heff. split; [|split].
      * intros id doc Hin. elem_cases Hin. by injection Hin as -> ->.
      * intros id args reason Hin. elem_cases Hin.
      * by intros resp [= <-] [=].
Qed.

Lemma dispatchFailureUpdate_fields (e : Js.Error) (failureTime : Z) (record : Training.t) :
  let failed := apply_update (dispatchFailureUpdate e failureTime) record in
  Training.status failed = "failed"
  /\ Training.error failed = Some (Js.message e)
  /\ Training.completedAt failed = Some failureTime
  /\ exists event,
       Training.events failed = Training.events record ++ [event]
       /\ Event.type event = "error"
       /\ Event.timestamp event = failureTime.
Proof. destruct record. simpl. repeat split. eexists. by repeat split. Qed.

(** C4. In a run of startTraining that has created a record and called
    dispatchTraining for it, if that call throws (the record still being
    stored), the handler leaves the record failed, with the message of the
    dispatch error as its error, completedAt set, and one "error" event
    appended to the log dispatchTraining left; this update is made before
    the handler answers, and the answer is a 500. *)
Theorem startTraining_dispatch_failure (env : Env) (req : StartRequest) (w : World)
    (id : string) (doc : Training.t) (args : Replicate.Args) (reason : string)
    (e : Js.Error) (left : gmap string Training.t) (record : Training.t) :
  let r := (startTraining env req w).1 in
  let w' := (startTraining env req w).2 in
  ETrainingCreate id doc ∈ effects_since w w' ->
  EDispatchTraining id args reason ∈ effects_since w w' ->
  dispatchTraining_run env id args reason (<[id := doc]> (trainings w)) = (Throw e, left) ->
  left !! id = Some record ->
  exists failureTime failed event response,
    trainings w' !! id = Some failed
    /\ Training.status failed = "failed"
    /\ Training.error failed = Some (Js.message e)
    /\ Training.completedAt failed = Some failureTime
    /\ Training.events failed = Training.events record ++ [event]
    /\ Event.type event = "error"
    /\ r = Ok response
    /\ res_status response = 500
    /\ precedes (ETrainingFindByIdAndUpdate id (dispatchFailureUpdate e failureTime))
         (ERespond response) (effects_since w w').
Proof.
  pose proof (startTraining_trace env req w) as Hrun.
  destruct (startTraining env req w) as [r w']. simpl.
  intros Hcreate Hdispatch Hthrow Hleft.
  destruct Hrun as [[Hq Hr]|(before & id0 & doc0 & args0 & Hbefore & Hnew & Hdoc & _ & Hrun)].
  { apply quiet_step_effects in Hq. by apply (quiet_not_elem _ _ Hq) in Hcreate. }
  cbv zeta in Hrun.
  destruct (broadcastTraining_run env _ id0 _) as [[]|e0].
  - destruct (dispatchTraining_run env id0 args0 "initial" _) as [[[]|e0] store1] eqn:Hcall.
    + destruct Hrun as [_ Hrun].
      destruct (populateTrainingForClient_run env id0 store1 (users w)) as [p|e0].
      * destruct Hrun as [-> Heff]. rewrite Heff in Hcreate, Hdispatch.
        elem_cases Hcreate. injection Hcreate as -> ->.
        elem_cases Hdispatch. injection Hdispatch as -> ->. congruence.
      * destruct Hrun as (-> & cleanup & Heff & Hcleanup). rewrite Heff in Hcreate, Hdispatch.
        elem_cases Hcreate. injection Hcreate as -> ->.
        elem_cases Hdispatch. injection Hdispatch as -> ->. congruence.
    + destruct Hrun as (Hstore & e' & cleanup & -> & Heff & Hcleanup).
      rewrite Heff in Hcreate, Hdispatch.
      elem_cases Hcreate. injection Hcreate as -> ->.
      elem_cases Hdispatch. injection Hdispatch as -> ->.
      rewrite Hcall in Hthrow. injection Hthrow as -> ->.
      set (failureTime := clock env (length (trace w ++ before) + 3)) in *.
      destruct (dispatchFailureUpdate_fields e failureTime record)
        as (Hstatus & Herror & Hdone & event & Hevents & Htype & _).
      exists failureTime, (apply_update (dispatchFailureUpdate e failureTime) record),
        event, (start_failure e').
      split; [by rewrite Hstore, lookup_alter_eq, Hleft|].
      do 7 (split; [done|]).
      rewrite Heff.
      exists (before ++ [ETrainingCreate id0 doc0; EBroadcastTraining id0;
                         EDispatchTraining id0 args0 "initial"]),
        (EBroadcastTraining id0 :: cleanup), [].
      rewrite <- ?app_assoc. simpl. by rewrite <- ?app_assoc.
  - destruct Hrun as (-> & _ & cleanup & Heff & Hcleanup).
    rewrite Heff in Hdispatch. elem_cases Hdispatch.
Qed.

(** ** The stream of a connection *)

Section Streaming.
Import Stream.
Variable stringify : Training.t -> string.

Lemma frames_set_res_ne (conn other : nat) (f : Res -> Res) (s : Server) :
  conn ≠ other -> frames (set_res other f s) conn = frames s conn.
Proof. intros Hne. unfold frames, res_of, set_res. simpl. by rewrite lookup_insert_ne. Qed.

Lemma frames_res_write (conn : nat) (chunk : string) (s : Server) :
  frames (res_write conn chunk s) conn = frames s conn ++ [chunk].
Proof. unfold frames, res_of, res_write, set_res. simpl. by rewrite lookup_insert_eq. Qed.

Lemma frames_responses (s s' : Server) (conn : nat) :
  responses s' = responses s -> frames s' conn = frames s conn.
Proof. intros Hr. unfold frames, res_of. by rewrite Hr. Qed.

Lemma frames_res_setHeader (conn other : nat) (name value : string) (s : Server) :
  frames (res_setHeader other name value s) conn = frames s conn.
Proof.
  unfold frames, res_of, res_setHeader, set_res. simpl.
  destruct (decide (other = conn)) as [->|Hne];
    [by rewrite lookup_insert_eq|by rewrite lookup_insert_ne].
Qed.

Lemma frames_res_flushHeaders (conn other : nat) (s : Server) :
  frames (res_flushHeaders other s) conn = frames s conn.
Proof.
  unfold frames, res_of, res_flushHeaders, set_res. simpl.
  destruct (decide (other = conn)) as [->|Hne];
    [by rewrite lookup_insert_eq|by rewrite lookup_insert_ne].
Qed.

Lemma frames_res_write_ne (conn other : nat) (chunk : string) (s : Server) :
  conn ≠ other -> frames (res_write other chunk s) conn = frames s conn.
Proof. apply frames_set_res_ne. Qed.

(** [send] only writes to its own response. *)
Lemma send_registry (conn : nat) (payload : Payload) (s : Server) :
  subscribers (send stringify conn payload s) = subscribers s
  /\ intervals (send stringify conn payload s) = intervals s
  /\ listeners (send stringify conn payload s) = listeners s.
Proof. unfold send. by destruct (serialiseTraining payload). Qed.

Lemma frames_send (conn : nat) (payload : Payload) (s : Server) :
  frames (send stringify conn payload s) conn = frames s conn ++ sent stringify payload.
Proof.
  unfold send, sent. destruct (serialiseTraining payload).
  - apply frames_res_write.
  - by rewrite app_nil_r.
Qed.

Lemma frames_send_ne (conn other : nat) (payload : Payload) (s : Server) :
  conn ≠ other -> frames (send stringify other payload s) conn = frames s conn.
Proof.
  intros Hne. unfold send. destruct (serialiseTraining payload); [|done].
  by apply frames_res_write_ne.
Qed.

Lemma foldl_invoke (payload : Payload) (conn : nat) (callbacks : list Callback) :
  forall s,
    let s' := foldl (invoke stringify payload) s callbacks in
    subscribers s' = subscribers s
    /\ intervals s' = intervals s
    /\ listeners s' = listeners s
    /\ frames s' conn
       = frames s conn
         ++ concat (replicate (length (filter (fun cb => cb = Send conn) callbacks))
                      (sent stringify payload)).
Proof.
  induction callbacks as [|[other] callbacks IH]; intros s; simpl.
  - by rewrite app_nil_r.
  - destruct (IH (send stringify other payload s)) as (Hs & Hi & Hl & Hf).
    destruct (send_registry other payload s) as (Hs' & Hi' & Hl').
    split; [congruence|]. split; [congruence|]. split; [congruence|].
    rewrite Hf. rewrite filter_cons. destruct (decide (Send other = Send conn)) as [[= ->]|Hne].
    + rewrite frames_send. simpl. by rewrite <- app_assoc.
    + rewrite frames_send_ne; [done|]. intros ->. by apply Hne.
Qed.

Lemma publish_registry (payload : Payload) (s : Server) :
  subscribers (publish stringify payload s) = subscribers s
  /\ intervals (publish stringify payload s) = intervals s
  /\ listeners (publish stringify payload s) = listeners s.
Proof.
  unfold publish.
  destruct (foldl_invoke payload 0 (map snd (map_to_list (subscribers s))) s)
    as (Hs & Hi & Hl & _).
  done.
Qed.

Lemma filter_none {A} (P : A -> Prop) `{forall x, Decision (P x)} (l : list A) :
  Forall (fun x => ¬ P x) l -> filter P l = [].
Proof.
  induction 1 as [|x l Hx Hl IH]; [done|].
  rewrite filter_cons. by destruct (decide (P x)).
Qed.

(** A map that holds [callback] under exactly one handle lists it once. *)
Lemma filter_subscribers (m : gmap nat Callback) (handle : nat) (callback : Callback) :
  m !! handle = Some callback ->
  (forall other, m !! other = Some callback -> other = handle) ->
  length (filter (fun cb => cb = callback) (map snd (map_to_list m))) = 1.
Proof.
  intros Hin Huniq.
  assert (Hperm : map snd (map_to_list m)
                  ≡ₚ callback :: map snd (map_to_list (delete handle m))).
  { rewrite <- (insert_delete_id m handle callback Hin) at 1.
    apply (Permutation_map snd
             (l := map_to_list (<[handle := callback]> (delete handle m)))
             (l' := (handle, callback) :: map_to_list (delete handle m))).
    apply map_to_list_insert, lookup_delete_eq. }
  rewrite Hperm, filter_cons.
  destruct (decide (callback = callback)); [|done]. simpl. f_equal.
  rewrite filter_none; [done|].
  apply Forall_forall. intros cb Hcb ->.
  apply list_elem_of_In, in_map_iff in Hcb. destruct Hcb as [[k v] [Hv Hkv]].
  simpl in Hv. subst v.
  apply list_elem_of_In, elem_of_map_to_list in Hkv.
  apply lookup_delete_Some in Hkv as [Hne Hk]. apply Huniq in Hk. congruence.
Qed.

(** With one subscription, a publish writes the payload once. *)
Lemma frames_publish (payload : Payload) (conn handle : nat) (s : Server) :
  subscribers s !! handle = Some (Send conn) ->
  (forall other, subscribers s !! other = Some (Send conn) -> other = handle) ->
  frames (publish stringify payload s) conn = frames s conn ++ sent stringify payload.
Proof.
  intros Hin Huniq. unfold publish.
  destruct (foldl_invoke payload conn (map snd (map_to_list (subscribers s))) s)
    as (_ & _ & _ & ->).
  rewrite (filter_subscribers _ handle _ Hin Huniq). simpl. by rewrite app_nil_r.
Qed.

(** *** What the close listeners remove *)

Lemma run_listeners_kept (ls : list Listener) :
  forall s,
    let s' := foldl run_listener s ls in
    responses s' = responses s
    /\ listeners s' = listeners s
    /\ (forall handle, subscribers s !! handle = None -> subscribers s' !! handle = None)
    /\ (forall timer, intervals s !! timer = None -> intervals s' !! timer = None)
    /\ (forall handle, (forall timer, OnClose timer handle ∉ ls) ->
                       subscribers s' !! handle = subscribers s !! handle)
    /\ (forall timer, (forall handle, OnClose timer handle ∉ ls) ->
                      intervals s' !! timer = intervals s !! timer)
    /\ (forall handle cb, subscribers s' !! handle = Some cb ->
                          subscribers s !! handle = Some cb)
    /\ (forall timer cb, intervals s' !! timer = Some cb ->
                         intervals s !! timer = Some cb).
Proof.
  induction ls as [|[timer0 handle0] ls IH]; intros s; simpl; [done|].
  destruct (IH (unsubscribe handle0 (clearInterval timer0 s)))
    as (Hr & Hl & Hs0 & Hi0 & Hs & Hi & Hsub & Hint).
  simpl in *.
  split; [done|]. split; [done|]. split; [|split; [|split; [|split; [|split]]]].
  - intros handle Hnone. apply Hs0. by rewrite lookup_delete_None; right.
  - intros timer Hnone. apply Hi0. by rewrite lookup_delete_None; right.
  - intros handle Hnot. rewrite Hs.
    + apply lookup_delete_ne. intros ->. apply (Hnot timer0), list_elem_of_here.
    + intros timer Hin. apply (Hnot timer). by apply list_elem_of_further.
  - intros timer Hnot. rewrite Hi.
    + apply lookup_delete_ne. intros ->. apply (Hnot handle0), list_elem_of_here.
    + intros handle Hin. apply (Hnot handle). by apply list_elem_of_further.
  - intros handle cb Hcb. apply Hsub in Hcb. by apply lookup_delete_Some in Hcb as [_ ?].
  - intros timer cb Hcb. apply Hint in Hcb. by apply lookup_delete_Some in Hcb as [_ ?].
Qed.

Lemma run_listeners_removed (ls : list Listener) (timer handle : nat) :
  forall s,
    OnClose timer handle ∈ ls ->
    subscribers (foldl run_listener s ls) !! handle = None
    /\ intervals (foldl run_listener s ls) !! timer = None.
Proof.
  induction ls as [|[timer0 handle0] ls IH]; intros s Hin; [by apply elem_of_nil in Hin|].
  apply elem_of_cons in Hin as [[= -> ->]|Hin]; simpl.
  - destruct (run_listeners_kept ls (unsubscribe handle0 (clearInterval timer0 s)))
      as (_ & _ & Hs0 & Hi0 & _).
    split; [apply Hs0|apply Hi0]; simpl; apply lookup_delete_eq.
  - by apply IH.
Qed.

(** *** Opening a connection *)

Lemma streamTrainings_components (conn : nat) (s : Server) :
  let heartbeat := fresh (dom (intervals s)) in
  let handle := fresh (dom (subscribers s)) in
  let s' := streamTrainings conn s in
  subscribers s' = <[handle := Send conn]> (subscribers s)
  /\ intervals s' = <[heartbeat := (HEARTBEAT_MS, Ping conn)]> (intervals s)
  /\ listeners s' = <[conn := listeners_of s conn ++ [OnClose heartbeat handle]]> (listeners s)
  /\ frames s' conn = frames s conn ++ [stream_start]
  /\ (forall other, other ≠ conn -> frames s' other = frames s other).
Proof.
  unfold streamTrainings, subscribeToTrainingUpdates, setInterval, req_on_close. simpl.
  split; [done|]. split; [done|]. split; [done|].
  set (opened := res_write conn stream_start
                   (res_flushHeaders conn
                      (res_setHeader conn "Connection" "keep-alive"
                         (res_setHeader conn "Cache-Control" "no-cache"
                            (res_setHeader conn "Content-Type" "text/event-stream" s))))).
  split.
  - rewrite (frames_responses opened) by done. subst opened.
    by rewrite frames_res_write, frames_res_flushHeaders, !frames_res_setHeader.
  - intros other Hne. rewrite (frames_responses opened) by done. subst opened.
    rewrite frames_res_write_ne by done.
    by rewrite frames_res_flushHeaders, !frames_res_setHeader.
Qed.

Lemma listeners_of_insert (s s' : Server) (conn : nat) (ls : list Listener) :
  listeners s' = <[conn := ls]> (listeners s) ->
  listeners_of s' conn = ls
  /\ forall other, other ≠ conn -> listeners_of s' other = listeners_of s other.
Proof.
  intros Hl. unfold listeners_of. rewrite Hl. split.
  - by rewrite lookup_insert_eq.
  - intros other Hne. by rewrite lookup_insert_ne.
Qed.

Lemma fresh_interval (s : Server) : intervals s !! fresh (dom (intervals s)) = None.
Proof. apply not_elem_of_dom, is_fresh. Qed.

Lemma fresh_subscriber (s : Server) : subscribers s !! fresh (dom (subscribers s)) = None.
Proof. apply not_elem_of_dom, is_fresh. Qed.

Lemma registered_connect (conn : nat) (s : Server) :
  registered s -> registered (streamTrainings conn s).
Proof.
  intros (Hlisten & Hsub & Hint).
  destruct (streamTrainings_components conn s) as (Hs & Hi & Hl & _).
  destruct (listeners_of_insert _ _ _ _ Hl) as (Hown & Hother).
  pose proof (fresh_interval s) as Hfi. pose proof (fresh_subscriber s) as Hfs.
  set (heartbeat := fresh (dom (intervals s))) in *.
  set (handle := fresh (dom (subscribers s))) in *.
  split; [|split].
  - intros c h u Hin. rewrite Hs, Hi.
    destruct (decide (c = conn)) as [->|Hne].
    + rewrite Hown in Hin. apply elem_of_app in Hin as [Hin|Hin].
      * destruct (Hlisten _ _ _ Hin) as ([ms Hms] & Hu).
        rewrite !lookup_insert_ne by congruence. eauto.
      * apply list_elem_of_singleton in Hin as [= -> ->].
        rewrite !lookup_insert_eq. eauto.
    + rewrite (Hother c Hne) in Hin.
      destruct (Hlisten _ _ _ Hin) as ([ms Hms] & Hu).
      rewrite !lookup_insert_ne by congruence. eauto.
  - intros u c Hu. rewrite Hs in Hu.
    destruct (decide (handle = u)) as [<-|Hne].
    + rewrite lookup_insert_eq in Hu. injection Hu as <-.
      exists heartbeat. rewrite Hown. apply elem_of_app. right. apply list_elem_of_here.
    + rewrite lookup_insert_ne in Hu by done. destruct (Hsub _ _ Hu) as [h Hin].
      exists h. destruct (decide (c = conn)) as [->|Hc].
      * rewrite Hown. apply elem_of_app. by left.
      * by rewrite (Hother c Hc).
  - intros h ms c Hh. rewrite Hi in Hh.
    destruct (decide (heartbeat = h)) as [<-|Hne].
    + rewrite lookup_insert_eq in Hh. injection Hh as <- <-.
      exists handle. rewrite Hown. apply elem_of_app. right. apply list_elem_of_here.
    + rewrite lookup_insert_ne in Hh by done. destruct (Hint _ _ _ Hh) as [u Hin].
      exists u. destruct (decide (c = conn)) as [->|Hc].
      * rewrite Hown. apply elem_of_app. by left.
      * by rewrite (Hother c Hc).
Qed.

(** *** Closing a connection *)

Lemma disconnect_components (conn : nat) (s : Server) :
  let s' := disconnect conn s in
  responses s' = responses s
  /\ listeners s' = delete conn (listeners s)
  /\ (forall handle cb, subscribers s' !! handle = Some cb ->
                        subscribers s !! handle = Some cb)
  /\ (forall timer cb, intervals s' !! timer = Some cb -> intervals s !! timer = Some cb)
  /\ (forall timer handle, OnClose timer handle ∈ listeners_of s conn ->
                           subscribers s' !! handle = None /\ intervals s' !! timer = None)
  /\ (forall handle, (forall timer, OnClose timer handle ∉ listeners_of s conn) ->
                     subscribers s' !! handle = subscribers s !! handle)
  /\ (forall timer, (forall handle, OnClose timer handle ∉ listeners_of s conn) ->
                    intervals s' !! timer = intervals s !! timer).
Proof.
  unfold disconnect. fold (listeners_of s conn). simpl.
  destruct (run_listeners_kept (listeners_of s conn) s)
    as (Hr & Hl & _ & _ & Hs & Hi & Hsub & Hint).
  split; [done|]. split; [by rewrite Hl|]. split; [done|]. split; [done|].
  split; [|done].
  intros timer handle Hin. by apply run_listeners_removed.
Qed.

Lemma registered_disconnect (conn : nat) (s : Server) :
  registered s ->
  registered (disconnect conn s)
  /\ (forall handle, subscribers (disconnect conn s) !! handle ≠ Some (Send conn))
  /\ (forall timer ms, intervals (disconnect conn s) !! timer ≠ Some (ms, Ping conn)).
Proof.
  intros (Hlisten & Hsub & Hint).
  destruct (disconnect_components conn s) as (Hr & Hl & Hs & Hi & Hgone & Hskept & Hikept).
  assert (Hown : listeners_of (disconnect conn s) conn = []).
  { unfold listeners_of. by rewrite Hl, lookup_delete_eq. }
  assert (Hother : forall c, c ≠ conn ->
            listeners_of (disconnect conn s) c = listeners_of s c).
  { intros c Hne. unfold listeners_of. by rewrite Hl, lookup_delete_ne. }
  assert (Hnosub : forall handle, subscribers (disconnect conn s) !! handle ≠ Some (Send conn)).
  { intros handle Hh. pose proof (Hs _ _ Hh) as Hold.
    destruct (Hsub _ _ Hold) as [timer Hin].
    destruct (Hgone _ _ Hin) as [Hnone _]. congruence. }
  assert (Hnoint : forall timer ms,
            intervals (disconnect conn s) !! timer ≠ Some (ms, Ping conn)).
  { intros timer ms Ht. pose proof (Hi _ _ Ht) as Hold.
    destruct (Hint _ _ _ Hold) as [handle Hin].
    destruct (Hgone _ _ Hin) as [_ Hnone]. congruence. }
  split; [|done]. split; [|split].
  - intros c h u Hin.
    destruct (decide (c = conn)) as [->|Hne]; [by rewrite Hown in Hin; apply elem_of_nil in Hin|].
    rewrite (Hother c Hne) in Hin.
    destruct (Hlisten _ _ _ Hin) as ([ms Hms] & Hu). split.
    + exists ms. rewrite Hikept; [done|].
      intros u' Hin'. destruct (Hlisten _ _ _ Hin') as ([ms' Hms'] & _). congruence.
    + rewrite Hskept; [done|].
      intros h' Hin'. destruct (Hlisten _ _ _ Hin') as (_ & Hu'). congruence.
  - intros u c Hu.
    destruct (decide (c = conn)) as [->|Hne]; [by apply Hnosub in Hu|].
    rewrite (Hother c Hne). eauto.
  - intros h ms c Hh.
    destruct (decide (c = conn)) as [->|Hne]; [by apply Hnoint in Hh|].
    rewrite (Hother c Hne). eauto.
Qed.

(** *** An open connection, input by input *)

Lemma registered_ext (s s' : Server) :
  subscribers s' = subscribers s -> intervals s' = intervals s ->
  listeners s' = listeners s -> registered s -> registered s'.
Proof.
  intros Hs Hi Hl. unfold registered, listeners_of. by rewrite Hs, Hi, Hl.
Qed.

Lemma streaming_unique (s : Server) (conn heartbeat handle : nat) :
  streaming s conn heartbeat handle ->
  subscribers s !! handle = Some (Send conn)
  /\ (forall other, subscribers s !! other = Some (Send conn) -> other = handle)
  /\ (forall timer ms, intervals s !! timer = Some (ms, Ping conn) -> timer = heartbeat).
Proof.
  intros ((Hlisten & Hsub & Hint) & Hown & Hbeat). split; [|split].
  - apply (Hlisten conn heartbeat handle). rewrite Hown. apply list_elem_of_here.
  - intros other Hother. destruct (Hsub _ _ Hother) as [h Hin].
    rewrite Hown in Hin. by apply list_elem_of_singleton in Hin as [= _ ->].
  - intros timer ms Htimer. destruct (Hint _ _ _ Htimer) as [u Hin].
    rewrite Hown in Hin. by apply list_elem_of_singleton in Hin as [= -> _].
Qed.

Lemma streaming_step (s : Server) (conn heartbeat handle : nat) (i : Input) :
  streaming s conn heartbeat handle ->
  keeps_open conn i ->
  streaming (step stringify s i) conn heartbeat handle
  /\ frames (step stringify s i) conn
     = frames s conn ++ frames_for stringify heartbeat i.
Proof.
  intros Hstream [Hconnect Hdisconnect].
  destruct (streaming_unique _ _ _ _ Hstream) as (Hhandle & Huniq & Htimer).
  destruct Hstream as (Hreg & Hown & Hbeat).
  destruct i as [other|payload|timer|other]; simpl.
  - assert (Hne : other ≠ conn) by congruence.
    destruct (streamTrainings_components other s) as (Hs & Hi & Hl & _ & Hframes).
    destruct (listeners_of_insert _ _ _ _ Hl) as (_ & Hothers).
    split; [split; [by apply registered_connect|split]|].
    + by rewrite Hothers.
    + rewrite Hi, lookup_insert_ne; [done|].
      intros Heq. pose proof (fresh_interval s) as Hfresh. congruence.
    + rewrite Hframes by done. by rewrite app_nil_r.
  - destruct (publish_registry payload s) as (Hs & Hi & Hl).
    split; [split; [by eapply registered_ext|split]|].
    + unfold listeners_of. by rewrite Hl.
    + by rewrite Hi.
    + by apply (frames_publish payload conn handle).
  - unfold elapse. destruct (intervals s !! timer) as [[ms [other]]|] eqn:Hlookup.
    + split; [split; [by eapply registered_ext|split]; done|].
      destruct (decide (timer = heartbeat)) as [->|Hne].
      * rewrite Hbeat in Hlookup. injection Hlookup as <- <-. apply frames_res_write.
      * rewrite app_nil_r. apply frames_res_write_ne. intros <-.
        by apply Htimer in Hlookup.
    + split; [done|].
      destruct (decide (timer = heartbeat)) as [->|Hne]; [congruence|].
      by rewrite app_nil_r.
  - assert (Hne : other ≠ conn) by congruence.
    destruct (disconnect_components other s) as (Hr & Hl & _ & _ & _ & _ & Hikept).
    destruct (registered_disconnect other s Hreg) as (Hreg' & _).
    split; [split; [done|split]|].
    + unfold listeners_of. rewrite Hl, lookup_delete_ne by done. apply Hown.
    + rewrite Hikept; [done|]. intros u Hin.
      destruct Hreg as (Hlisten & _). destruct (Hlisten _ _ _ Hin) as ([ms Hms] & _).
      congruence.
    + rewrite (frames_responses s) by done. by rewrite app_nil_r.
Qed.

Lemma streaming_run (conn heartbeat handle : nat) (inputs : list Input) :
  forall s,
    streaming s conn heartbeat handle ->
    Forall (keeps_open conn) inputs ->
    streaming (run stringify s inputs) conn heartbeat handle
    /\ frames (run stringify s inputs) conn
       = frames s conn ++ flat_map (frames_for stringify heartbeat) inputs.
Proof.
  unfold run.
  induction inputs as [|i inputs IH]; intros s Hstream Hopen; simpl.
  - by rewrite app_nil_r.
  - apply Forall_cons in Hopen as [Hi Hopen].
    destruct (streaming_step s conn heartbeat handle i Hstream Hi) as [Hstream' Hframes].
    destruct (IH _ Hstream' Hopen) as [Hfinal Hall].
    split; [done|]. by rewrite Hall, Hframes, <- app_assoc.
Qed.

(** The invariant holds in every state the server can reach. *)
Lemma registered_step (s : Server) (i : Input) :
  registered s -> registered (step stringify s i).
Proof.
  intros Hreg. destruct i as [conn|payload|timer|conn]; simpl.
  - by apply registered_connect.
  - destruct (publish_registry payload s) as (Hs & Hi & Hl). by eapply registered_ext.
  - unfold elapse. destruct (intervals s !! timer) as [[ms [conn]]|]; [|done].
    by eapply registered_ext.
  - by apply registered_disconnect.
Qed.

Lemma registered_reachable (inputs : list Input) :
  registered (run stringify Stream.empty inputs).
Proof.
  unfold run.
  assert (forall s, registered s -> registered (foldl (step stringify) s inputs)) as Hrun.
  { induction inputs as [|i inputs IH]; intros s Hreg; simpl; [done|].
    by apply IH, registered_step. }
  apply Hrun. split; [|split].
  - intros conn heartbeat handle Hin. unfold listeners_of in Hin. simpl in Hin.
    rewrite lookup_empty in Hin. by apply elem_of_nil in Hin.
  - intros handle conn Hin. simpl in Hin. by rewrite lookup_empty in Hin.
  - intros heartbeat ms conn Hin. simpl in Hin. by rewrite lookup_empty in Hin.
Qed.

Lemma streaming_opened (s : Server) (conn : nat) :
  registered s ->
  listeners s !! conn = None ->
  streaming (streamTrainings conn s) conn
    (fresh (dom (intervals s))) (fresh (dom (subscribers s))).
Proof.
  intros Hreg Hnew.
  destruct (streamTrainings_components conn s) as (Hs & Hi & Hl & _).
  destruct (listeners_of_insert _ _ _ _ Hl) as (Hown & _).
  split; [by apply registered_connect|]. split.
  - rewrite Hown. unfold listeners_of. by rewrite Hnew.
  - by rewrite Hi, lookup_insert_eq.
Qed.

End Streaming.

(** C8. A connection opened by streamTrainings on a new request is sent
    the comment ": stream-start" first; then, for as long as it stays open,
    one frame "data: " followed by the JSON of the record for each record
    published (the value of its toJSON method when it has one), nothing for
    a payload that is falsy, and the comment ": ping" each time its
    heartbeat timer fires, which is set to 25000 ms; every frame ends in an
    empty line, and nothing else is written.  The timer and the
    subscription stay registered.  When the client disconnects, the timer
    is cleared and the subscription removed: no subscription and no timer
    of the connection is left, and nothing more is written to it. *)
Theorem stream_connection (stringify : Training.t -> string)
    (s : Stream.Server) (conn : nat) (inputs : list Stream.Input) :
  registered s ->
  Stream.responses s !! conn = None ->
  Stream.listeners s !! conn = None ->
  Forall (keeps_open conn) inputs ->
  let heartbeat := fresh (dom (Stream.intervals s)) in
  let handle := fresh (dom (Stream.subscribers s)) in
  let opened := Stream.run stringify (Stream.streamTrainings conn s) inputs in
  let nl := String.String (Ascii.ascii_of_nat 10) EmptyString in
  let message (data : Training.t) := "data: " +:+ stringify data +:+ nl +:+ nl in
  let written (i : Stream.Input) : list string :=
    match i with
    | Stream.Publish (Stream.Plain data) => [message data]
    | Stream.Publish (Stream.Doc (Some json)) => [message json]
    | Stream.Publish (Stream.Doc None) => []
    | Stream.Publish Stream.Nothing => []
    | Stream.Elapse timer =>
        if decide (timer = heartbeat) then [": ping" +:+ nl +:+ nl] else []
    | Stream.Connect _ => []
    | Stream.Disconnect _ => []
    end in
  Stream.frames opened conn = (": stream-start" +:+ nl +:+ nl) :: flat_map written inputs
  /\ Stream.intervals opened !! heartbeat = Some (25000%N, Stream.Ping conn)
  /\ Stream.subscribers opened !! handle = Some (Stream.Send conn)
  /\ let closed := Stream.disconnect conn opened in
     (forall other, Stream.subscribers closed !! other ≠ Some (Stream.Send conn))
     /\ (forall timer ms, Stream.intervals closed !! timer ≠ Some (ms, Stream.Ping conn))
     /\ Stream.frames closed conn = Stream.frames opened conn.
Proof.
  intros Hreg Hres Hnew Hopen heartbeat handle opened nl message written.
  pose proof (streaming_opened s conn Hreg Hnew) as Hstream.
  destruct (streaming_run stringify conn heartbeat handle inputs _ Hstream Hopen)
    as [Hfinal Hframes].
  destruct (streamTrainings_components conn s) as (_ & _ & _ & Hstart & _).
  assert (Hempty : Stream.frames s conn = []).
  { unfold Stream.frames, Stream.res_of. by rewrite Hres. }
  assert (Hwritten : forall i, Stream.frames_for stringify heartbeat i = written i).
  { intros [other|[|[json|]|data]|timer|other]; reflexivity. }
  destruct (streaming_unique _ _ _ _ Hfinal) as (Hhandle & _).
  destruct Hfinal as (Hreg' & _ & Hbeat).
  split.
  { subst opened. rewrite Hframes, Hstart, Hempty. simpl. f_equal.
    assert (Hall : forall l,
              flat_map (Stream.frames_for stringify heartbeat) l = flat_map written l).
    { induction l as [|i rest IH]; [done|]. simpl. by rewrite Hwritten, IH. }
    apply Hall. }
  split; [exact Hbeat|]. split; [done|].
  destruct (registered_disconnect conn opened Hreg') as (_ & Hnosub & Hnotimer).
  destruct (disconnect_components conn opened) as (Hr & _).
  split; [done|]. split; [done|]. by apply frames_responses.
Qed.

(** * Runs on the sample world *)

(** Find a call in a computed list of calls. *)
Ltac elem_of_computed :=
  apply list_elem_of_In; vm_compute; repeat first [left; reflexivity | right].

Lemma handle_pending_waiting : handle_pending Sample.waiting.
Proof. right. reflexivity. Qed.

Lemma handle_real (status : string) (handle : string) (completedAt : option Z) :
  Js.truthy (Js.Str handle) = true ->
  isPendingReplicateId (Js.Str handle) = false ->
  ¬ handle_pending (Sample.training status (Js.Str handle) completedAt).
Proof. intros Ht Hp [H|H]; cbn [Sample.training Training.replicateTrainingId] in H; congruence. Qed.

(** C1, refuted as stated: the finished training t1 is terminal and has a
    real handle; the provider acknowledging, cancelTraining answers 200 and
    turns its status from succeeded into canceled. *)
Lemma cancelTraining_terminal_counterexample :
  let '(r, w') := cancelTraining Sample.working "t1" Sample.world in
  is_terminal (Training.status Sample.finished)
  /\ trainings Sample.world !! "t1" = Some Sample.finished
  /\ (exists body, r = Ok (mkResponse 200 body))
  /\ Training.status <$> trainings w' !! "t1" = Some "canceled"
  /\ trainings w' ≠ trainings Sample.world.
Proof.
  destruct (cancelTraining Sample.working "t1" Sample.world) as [r w'] eqn:Hrun.
  vm_compute in Hrun. injection Hrun as <- <-.
  split; [by apply includes_terminal|]. split; [reflexivity|].
  split; [by eexists|]. split; [reflexivity|].
  intros Heq. apply (f_equal (fun m => Training.status <$> m !! "t1")) in Heq.
  vm_compute in Heq. discriminate Heq.
Qed.

Lemma cancelTraining_guard_witness :
  (exists message,
     (cancelTraining Sample.working "t3" Sample.world).1
     = Ok (mkResponse 400 (Failure message None))
     /\ trainings (cancelTraining Sample.working "t3" Sample.world).2
        = trainings Sample.world)
  /\ exists rest,
       effects_since Sample.world (cancelTraining Sample.working "t1" Sample.world).2
       = EReplicateTrainingsCancel (Js.Str "trn_123") :: rest.
Proof.
  split.
  - pose proof (cancelTraining_guard Sample.working "t3" Sample.world Sample.waiting eq_refl)
      as Hguard.
    destruct (cancelTraining Sample.working "t3" Sample.world) as [r w'].
    destruct Hguard as [Hrejected _].
    destruct (Hrejected handle_pending_waiting) as (message & Hr & Hstore & _).
    by exists message.
  - pose proof (cancelTraining_guard Sample.working "t1" Sample.world Sample.finished eq_refl)
      as Hguard.
    destruct (cancelTraining Sample.working "t1" Sample.world) as [r w'].
    destruct Hguard as [_ Hforwarded].
    apply Hforwarded, handle_real; reflexivity.
Defined.



Lemma pending_handle_never_reaches_provider_witness :
  (checkTrainingStatus Sample.working "t3" Sample.world).1
  = Ok (mkResponse 200 (Success None (Document Sample.waiting)))
  /\ Forall (fun e => is_provider_call e = false)
       (effects_since Sample.world (cancelTraining Sample.working "t3" Sample.world).2).
Proof.
  pose proof (pending_handle_never_reaches_provider Sample.working "t3" Sample.world
                Sample.waiting eq_refl handle_pending_waiting) as [Hcheck Hcancel].
  destruct (checkTrainingStatus Sample.working "t3" Sample.world) as [r1 w1].
  destruct (cancelTraining Sample.working "t3" Sample.world) as [r2 w2].
  destruct Hcheck as (Hr & _). destruct Hcancel as (_ & _ & Hquiet). by split.
Defined.

Lemma cancelTraining_atomic_witness :
  (exists canceled,
     trainings (cancelTraining Sample.working "t2" Sample.world).2 !! "t2" = Some canceled
     /\ Training.status canceled = "canceled")
  /\ trainings (cancelTraining Sample.provider_rejects_cancel "t2" Sample.world).2
     = trainings Sample.world.
Proof.
  split.
  - pose proof (cancelTraining_atomic Sample.working "t2" Sample.world Sample.running
                  eq_refl (handle_real "processing" "trn_456" None eq_refl eq_refl))
      as Hatomic.
    simpl in Hatomic.
    destruct (cancelTraining Sample.working "t2" Sample.world) as [r w'].
    destruct Hatomic as [Hack _].
    destruct (Hack tt eq_refl) as (now & canceled & event & Hstore & Hstatus & _).
    exists canceled. simpl. by rewrite Hstore, lookup_insert_eq.
  - pose proof (cancelTraining_atomic Sample.provider_rejects_cancel "t2" Sample.world
                  Sample.running eq_refl (handle_real "processing" "trn_456" None eq_refl eq_refl))
      as Hatomic.
    simpl in Hatomic.
    destruct (cancelTraining Sample.provider_rejects_cancel "t2" Sample.world) as [r w'].
    destruct Hatomic as [_ Hreject].
    by destruct (Hreject _ eq_refl) as (_ & Hstore & _).
Defined.

Lemma startTraining_dispatch_failure_witness :
  exists failed,
    trainings (startTraining Sample.dispatch_fails Sample.upload Sample.world).2 !! "0"
    = Some failed
    /\ Training.status failed = "failed"
    /\ Training.error failed = Some "replicate unreachable"
    /\ exists response,
         (startTraining Sample.dispatch_fails Sample.upload Sample.world).1 = Ok response
         /\ res_status response = 500.
Proof.
  set (effects :=
         effects_since Sample.world
           (startTraining Sample.dispatch_fails Sample.upload Sample.world).2).
  let created := eval vm_compute in (Sample.created_in effects) in
  let dispatched := eval vm_compute in (Sample.dispatched_in effects) in
  match created with
  | Some (?id, ?doc) =>
      match dispatched with
      | Some ?args =>
          destruct (startTraining_dispatch_failure Sample.dispatch_fails Sample.upload
                      Sample.world id doc args "initial"
                      (Js.mkError "replicate unreachable")
                      (<[id := doc]> (trainings Sample.world)) doc)
            as (failureTime & failed & event & response
                & Hstored & Hstatus & Herror & _ & _ & _ & Hanswer & Hcode & _)
      end
  end.
  - elem_of_computed.
  - elem_of_computed.
  - reflexivity.
  - apply lookup_insert_eq.
  - exists failed. split; [exact Hstored|]. split; [exact Hstatus|].
    split; [exact Herror|]. by exists response.
Defined.

Lemma startTraining_creates_queued_witness :
  exists before id doc args response,
    effects_since Sample.world (startTraining Sample.working Sample.upload Sample.world).2
    = before ++ [ETrainingCreate id doc; EBroadcastTraining id;
                 EDispatchTraining id args "initial";
                 EPopulateTrainingForClient id; ERespond response]
    /\ res_status response = 202
    /\ freshly_queued doc.
Proof.
  pose proof (startTraining_creates_queued Sample.working Sample.upload Sample.world)
    as Hqueued.
  destruct (startTraining Sample.working Sample.upload Sample.world) as [r w'] eqn:Hrun.
  vm_compute in Hrun. injection Hrun as <- <-.
  destruct Hqueued as (Hcreated & _ & Haccepted).
  destruct (Haccepted _ eq_refl eq_refl) as (before & id & doc & args & Heffects & _).
  exists before, id, doc, args. eexists.
  split; [exact Heffects|]. split; [reflexivity|].
  apply (Hcreated id doc). rewrite Heffects.
  apply elem_of_app. right. apply list_elem_of_here.
Defined.

Lemma startTraining_validation_witness :
  (startTraining Sample.working Sample.unknown_user Sample.world).1
  = Ok (mkResponse 404 (Failure "User not found" None))
  /\ exists message,
       (startTraining Sample.working Sample.no_images Sample.world).1
       = Ok (mkResponse 400 (Failure message None))
       /\ trainings (startTraining Sample.working Sample.no_images Sample.world).2
          = trainings Sample.world.
Proof.
  split.
  - pose proof (startTraining_validation Sample.working Sample.unknown_user Sample.world)
      as Hvalid.
    destruct (startTraining Sample.working Sample.unknown_user Sample.world) as [r w'].
    destruct Hvalid as [Hmissing _]. by destruct (Hmissing eq_refl) as (Hr & _).
  - pose proof (startTraining_validation Sample.working Sample.no_images Sample.world)
      as Hvalid.
    destruct (startTraining Sample.working Sample.no_images Sample.world) as [r w'].
    destruct Hvalid as [_ Hempty].
    destruct (Hempty (User.mk "Noa" (Some [])) eq_refl eq_refl eq_refl)
      as (message & Hr & Hstore & _).
    by exists message.
Defined.

Lemma listed_images_capped_witness :
  exists data,
    Listing.getAllTrainings_data (Js.Str "TRUE") [Sample.finished; Sample.running] = inr data
    /\ Forall2 minimal_shows [Sample.finished; Sample.running] data.
Proof.
  apply (proj1 (listed_images_capped (Js.Str "TRUE") [Sample.finished; Sample.running])).
  reflexivity.
Defined.

Lemma registered_empty : registered Stream.empty.
Proof. apply (registered_reachable (fun _ => EmptyString) []). Qed.

Lemma stream_connection_witness :
  let inputs :=
    [Stream.Publish (Stream.Plain Sample.running); Stream.Elapse 0; Stream.Connect 8;
     Stream.Publish Stream.Nothing; Stream.Elapse 0; Stream.Disconnect 8;
     Stream.Publish (Stream.Doc (Some Sample.finished))] in
  let nl := String.String (Ascii.ascii_of_nat 10) EmptyString in
  Stream.frames
    (Stream.run Training.status (Stream.streamTrainings 7 Stream.empty) inputs) 7
  = [": stream-start" +:+ nl +:+ nl; "data: processing" +:+ nl +:+ nl;
     ": ping" +:+ nl +:+ nl; ": ping" +:+ nl +:+ nl; "data: succeeded" +:+ nl +:+ nl]
  /\ Stream.intervals
       (Stream.run Training.status (Stream.streamTrainings 7 Stream.empty) inputs) !! 0
     = Some (25000%N, Stream.Ping 7).
Proof.
  intros inputs nl.
  destruct (stream_connection Training.status Stream.empty 7 inputs)
    as (Hframes & Hbeat & _).
  - exact registered_empty.
  - reflexivity.
  - reflexivity.
  - repeat constructor; discriminate.
  - split; [rewrite Hframes; reflexivity|exact Hbeat].
Defined.

(** * Further properties of the controller *)

(** ** Query parameters and pagination *)

Section PagingFacts.
Import Paging.

Lemma concat_windows {A} (size : nat) :
  0 < size ->
  forall (count : nat) (l : list A),
    length l <= count * size ->
    concat (map (fun i => take size (drop (i * size) l)) (seq 0 count)) = l.
Proof.
  intros Hsize. induction count as [|count IH]; intros l Hlen.
  - simpl in *. destruct l; [done|simpl in Hlen; lia].
  - etrans; [|apply (take_drop size l)].
    cbn [seq map concat]. f_equal.
    rewrite <- seq_shift, map_map.
    etrans; [|apply (IH (drop size l)); rewrite length_drop; lia].
    f_equal. apply map_ext. intros i. rewrite drop_drop. by f_equal.
Qed.

Local Open Scope Z_scope.

Lemma toPositiveInteger_nonneg (parsed : option Z) (fallback : Z) :
  0 <= fallback -> 0 <= toPositiveInteger parsed fallback.
Proof.
  intros Hf. unfold toPositiveInteger. destruct parsed as [n|]; [|done].
  destruct (n <? 0) eqn:Hn; [done|]. by apply Z.ltb_ge in Hn.
Qed.

(** X1. Whatever the [limit] and [page] query strings hold, the limit used
    is never negative (and at most 100 in the lean listing) and the page
    asked for is at least 1. *)
Theorem query_numbers_in_range (limit page : option string) :
  0 <= numericLimit limit
  /\ 0 <= leanLimit limit <= 100
  /\ 1 <= rawPage page.
Proof.
  pose proof (toPositiveInteger_nonneg (parsed_param limit 10) 10) as Hl.
  pose proof (toPositiveInteger_nonneg (parsed_param page 1) 1) as Hp.
  unfold numericLimit, leanLimit, rawPage.
  destruct (toPositiveInteger (parsed_param page 1) 1 =? 0) eqn:H0.
  - lia.
  - apply Z.eqb_neq in H0. lia.
Qed.

Lemma ceil_div_bounds (a b : Z) :
  0 < b -> b * (ceil_div a b - 1) < a <= b * ceil_div a b.
Proof.
  intros Hb. unfold ceil_div.
  pose proof (Z.div_mod (a + b - 1) b ltac:(lia)) as Hdiv.
  pose proof (Z.mod_pos_bound (a + b - 1) b Hb) as Hmod.
  nia.
Qed.

(** The page served and the documents skipped, with a positive limit and
    something matching. *)
Lemma paging_window (numericLimit rawPage totalTrainings : Z) :
  0 < numericLimit ->
  0 < totalTrainings ->
  let pages := totalPages numericLimit totalTrainings in
  let served := effectivePage numericLimit rawPage totalTrainings in
  let skipped := skip numericLimit rawPage totalTrainings in
  (pages - 1) * numericLimit < totalTrainings <= pages * numericLimit
  /\ 1 <= served <= pages
  /\ (1 <= rawPage <= pages -> served = rawPage)
  /\ (pages < rawPage -> served = pages)
  /\ skipped = (served - 1) * numericLimit
  /\ 0 <= skipped < totalTrainings.
Proof.
  intros Hl Ht. unfold skip, effectivePage, totalPages.
  apply Z.ltb_lt in Hl as Hlb. apply Z.ltb_lt in Ht as Htb. rewrite Hlb, Htb. simpl.
  pose proof (ceil_div_bounds totalTrainings numericLimit Hl) as Hc.
  set (pages := ceil_div totalTrainings numericLimit) in *.
  assert (1 <= pages) by nia.
  repeat split; try lia; nia.
Qed.

(** X2. With a positive limit and at least one matching training, the
    pages cover the matching trainings exactly (the last page is not
    empty), the page served lies between 1 and the number of pages, it is
    the page asked for whenever that one exists, and the documents skipped
    are fewer than the matching ones: a page beyond the end is answered
    with the last page.  The limit, the page and the count are integers
    that a double holds exactly. *)
Theorem pagination_window (numericLimit rawPage totalTrainings : Z) :
  0 < numericLimit < 2 ^ 53 ->
  Z.abs rawPage < 2 ^ 53 ->
  0 < totalTrainings < 2 ^ 53 ->
  let pages := totalPages numericLimit totalTrainings in
  let served := effectivePage numericLimit rawPage totalTrainings in
  let skipped := skip numericLimit rawPage totalTrainings in
  (pages - 1) * numericLimit < totalTrainings <= pages * numericLimit
  /\ 1 <= served <= pages
  /\ (1 <= rawPage <= pages -> served = rawPage)
  /\ (pages < rawPage -> served = pages)
  /\ skipped = (served - 1) * numericLimit
  /\ 0 <= skipped < totalTrainings.
Proof.
  intros [Hl _] _ [Ht _]. unfold skip, effectivePage, totalPages.
  apply Z.ltb_lt in Hl as Hlb. apply Z.ltb_lt in Ht as Htb. rewrite Hlb, Htb. simpl.
  pose proof (ceil_div_bounds totalTrainings numericLimit Hl) as Hc.
  set (pages := ceil_div totalTrainings numericLimit) in *.
  assert (1 <= pages) by nia.
  repeat split; try lia; nia.
Qed.

(** The flags of the pagination object, [hasNextPage] and [hasPrevPage]. *)
Lemma pagination_flags_paged (numericLimit rawPage totalTrainings : Z) :
  0 < numericLimit ->
  0 < totalTrainings ->
  let p := pagination numericLimit rawPage totalTrainings in
  let skipped := skip numericLimit rawPage totalTrainings in
  (hasNextPage p = true <-> skipped + numericLimit < totalTrainings)
  /\ (hasPrevPage p = true <-> 0 < skipped)
  /\ page p = effectivePage numericLimit rawPage totalTrainings.
Proof.
  intros Hl Ht.
  destruct (paging_window numericLimit rawPage totalTrainings Hl Ht)
    as (Hcover & Hserved & _ & _ & Hskip & Hrange).
  cbv zeta. rewrite Hskip. unfold pagination. simpl.
  apply Z.ltb_lt in Hl as Hlb. rewrite Hlb. simpl.
  set (pages := totalPages numericLimit totalTrainings) in *.
  set (served := effectivePage numericLimit rawPage totalTrainings) in *.
  split; [|split].
  - rewrite Z.ltb_lt. split; intros; nia.
  - rewrite Z.ltb_lt. split; intros; nia.
  - destruct (pages =? 0) eqn:H0; [apply Z.eqb_eq in H0; lia|done].
Qed.

(** X3. The pagination object tells the truth about the neighbours of the
    page served: [hasNextPage] holds exactly when matching trainings are
    left after this page and [hasPrevPage] exactly when some were skipped;
    with nothing matching, or with the limit 0 (no paging), both are false
    and the page reported is 1.  The limit, the page and the count are
    integers that a double holds exactly. *)
Theorem pagination_flags (numericLimit rawPage totalTrainings : Z) :
  0 <= numericLimit < 2 ^ 53 ->
  Z.abs rawPage < 2 ^ 53 ->
  0 <= totalTrainings < 2 ^ 53 ->
  let p := pagination numericLimit rawPage totalTrainings in
  let skipped := skip numericLimit rawPage totalTrainings in
  (hasNextPage p = true <-> 0 < numericLimit /\ skipped + numericLimit < totalTrainings)
  /\ (hasPrevPage p = true <-> 0 < skipped)
  /\ (numericLimit = 0 \/ totalTrainings = 0 ->
      hasNextPage p = false /\ hasPrevPage p = false /\ page p = 1 /\ skipped = 0).
Proof.
  intros [Hl _] _ [Ht _].
  destruct (decide (0 < numericLimit)) as [Hpos|Hzero].
  - destruct (decide (0 < totalTrainings)) as [Hsome|Hnone].
    + destruct (pagination_flags_paged numericLimit rawPage totalTrainings Hpos Hsome)
        as (Hnext & Hprev & _).
      cbv zeta in *. split; [|split]; [rewrite Hnext; tauto|done|lia].
    + assert (totalTrainings = 0) as -> by lia.
      unfold pagination, skip, effectivePage, totalPages.
      apply Z.ltb_lt in Hpos as Hb. rewrite Hb. simpl.
      replace (Z.min (Z.max rawPage 1) (Z.max 0 1)) with 1 by lia. simpl.
      split; [split; [done|lia]|]. split; [split; [done|lia]|]. done.
  - assert (numericLimit = 0) as -> by lia.
    unfold pagination, skip, effectivePage, totalPages. simpl.
    split; [split; [done|lia]|]. split; [split; [done|lia]|].
    intros _. by destruct (0 <? totalTrainings).
Qed.

(** X4. The documents of the page served are a window of the matching
    ones: with a positive limit the page holds min(limit, matching -
    skipped) of them, so at least one whenever anything matches; with the
    limit 0 all of them are returned.  The limit, the page and the number
    of matching documents are integers that a double holds exactly. *)
Theorem page_of_window {A} (numericLimit rawPage : Z) (matching : list A) :
  0 <= numericLimit < 2 ^ 53 ->
  Z.abs rawPage < 2 ^ 53 ->
  Z.of_nat (length matching) < 2 ^ 53 ->
  let totalTrainings := Z.of_nat (length matching) in
  let skipped := skip numericLimit rawPage totalTrainings in
  let served := page_of numericLimit rawPage matching in
  (numericLimit = 0 -> served = matching)
  /\ (0 < numericLimit ->
      served = take (Z.to_nat numericLimit) (drop (Z.to_nat skipped) matching)
      /\ Z.of_nat (length served) = Z.min numericLimit (totalTrainings - skipped)
      /\ (matching ≠ [] -> served ≠ []))
  /\ Z.of_nat (length served) <= totalTrainings.
Proof.
  intros [Hl _] _ _. cbv zeta. unfold page_of.
  destruct (decide (0 < numericLimit)) as [Hpos|Hzero].
  - apply Z.ltb_lt in Hpos as Hb. rewrite Hb.
    set (skipped := skip numericLimit rawPage (Z.of_nat (length matching))).
    assert (Hlen : Z.of_nat (length (take (Z.to_nat numericLimit)
                                       (drop (Z.to_nat skipped) matching)))
                   = Z.min numericLimit (Z.of_nat (length matching) - skipped)
                   /\ 0 <= skipped).
    { rewrite length_take, length_drop.
      destruct matching as [|x rest].
      - subst skipped. unfold skip, effectivePage, totalPages. rewrite Hb. simpl. lia.
      - destruct (paging_window numericLimit rawPage
                    (Z.of_nat (length (x :: rest))) Hpos ltac:(simpl; lia))
          as (_ & _ & _ & _ & _ & Hrange).
        fold skipped in Hrange. lia. }
    destruct Hlen as [Hlen Hskip].
    split; [lia|]. split; [|lia]. intros _. split; [done|]. split; [done|].
    intros Hne Hnil. rewrite Hnil in Hlen. simpl in Hlen.
    destruct matching as [|x rest]; [done|].
    destruct (paging_window numericLimit rawPage
                (Z.of_nat (length (x :: rest))) Hpos ltac:(simpl; lia))
      as (_ & _ & _ & _ & _ & Hrange).
    fold skipped in Hrange. lia.
  - assert (numericLimit = 0) as -> by lia. simpl. split; [done|]. split; [lia|lia].
Qed.

(** X5. With a positive limit, the pages 1 to [totalPages], one after the
    other, are exactly the matching trainings in sort order: every
    matching training is on one page, none is on two.  The limit and
    the number of matching documents are integers that a double holds
    exactly. *)
Theorem pages_partition {A} (numericLimit : Z) (matching : list A) :
  0 < numericLimit < 2 ^ 53 ->
  Z.of_nat (length matching) < 2 ^ 53 ->
  let pages := totalPages numericLimit (Z.of_nat (length matching)) in
  concat (map (fun p => page_of numericLimit (Z.of_nat p) matching)
            (seq 1 (Z.to_nat pages)))
  = matching.
Proof.
  intros [Hl _] _. cbv zeta.
  destruct matching as [|x rest] eqn:Hm; [by unfold totalPages; rewrite andb_false_r|].
  rewrite <- Hm. assert (Ht : 0 < Z.of_nat (length matching)) by (subst; simpl; lia).
  clear Hm x rest.
  set (total := Z.of_nat (length matching)) in *.
  destruct (paging_window numericLimit 1 total Hl Ht) as (Hcover & Hpages & _).
  set (pages := totalPages numericLimit total) in *.
  etrans; [|apply (concat_windows (Z.to_nat numericLimit) ltac:(lia) (Z.to_nat pages));
             apply Nat2Z.inj_le; rewrite Nat2Z.inj_mul, !Z2Nat.id by lia; fold total; lia].
  f_equal. rewrite <- seq_shift, map_map. apply map_ext_in.
  intros i Hi%in_seq. unfold page_of. apply Z.ltb_lt in Hl as Hb. rewrite Hb.
  destruct (paging_window numericLimit (Z.of_nat (S i)) total Hl Ht)
    as (_ & _ & Hsame & _ & Hskip & _).
  fold total. rewrite Hskip, Hsame by (fold pages; lia).
  do 2 f_equal. nia.
Qed.

(** *** Reading back a number written in decimal *)

Lemma digit_of_pretty (d : N) :
  (d < 10)%N -> digit_of (pretty_N_char d) = Some (Z.of_N d).
Proof.
  intros Hd.
  assert (d = 0 \/ d = 1 \/ d = 2 \/ d = 3 \/ d = 4 \/ d = 5 \/ d = 6 \/ d = 7
          \/ d = 8 \/ d = 9)%N as Hcases by lia.
  repeat destruct Hcases as [->|Hcases]; try reflexivity. by subst.
Qed.

Lemma digit_is_plain (c : Ascii.ascii) (d : Z) :
  digit_of c = Some d ->
  is_white_space c = false /\ Ascii.eqb c dash = false
  /\ Ascii.eqb c (Ascii.ascii_of_nat 43) = false.
Proof.
  unfold digit_of, is_white_space. intros Hd.
  destruct (Nat.leb 48 (Ascii.nat_of_ascii c) && Nat.leb (Ascii.nat_of_ascii c) 57)
    eqn:Hrange; [|done].
  apply andb_true_iff in Hrange as [Hlo%Nat.leb_le Hhi%Nat.leb_le].
  split; [|split].
  - apply orb_false_iff. split.
    + apply andb_false_iff. right. apply Nat.leb_gt. lia.
    + apply Nat.eqb_neq. lia.
  - apply Ascii.eqb_neq. intros ->. vm_compute in Hlo. lia.
  - apply Ascii.eqb_neq. intros ->. vm_compute in Hlo. lia.
Qed.

Lemma read_pretty_go (x : N) :
  (0 < x)%N ->
  forall (s : string) (read : option Z),
    (exists k, read_digits (pretty_N_go x s) read
               = read_digits s (Some (default 0 read * 10 ^ k + Z.of_N x)) /\ 0 <= k)
    /\ exists c rest d, pretty_N_go x s = String.String c rest /\ digit_of c = Some d.
Proof.
  induction (N.lt_wf_0 x) as [x _ IH]. intros Hx s read.
  rewrite pretty_N_go_step by done.
  pose proof (digit_of_pretty (x `mod` 10)%N ltac:(by apply N.mod_lt)) as Hdigit.
  pose proof (N.div_mod x 10 ltac:(done)) as Hdiv.
  pose proof (N.div_lt x 10 Hx ltac:(done)) as Hless.
  set (digit := (x `mod` 10)%N) in *. set (more := (x `div` 10)%N) in *.
  destruct (decide (more = 0)%N) as [Hzero|Hmore].
  - rewrite Hzero, pretty_N_go_0. split.
    + exists 1. split; [|lia]. simpl. rewrite Hdigit. do 2 f_equal. lia.
    + eauto.
  - destruct (IH more Hless ltac:(lia) (String.String (pretty_N_char digit) s) read)
      as [(k & Hread & Hk) Hhead].
    split; [|done].
    exists (k + 1). split; [|lia]. rewrite Hread. simpl. rewrite Hdigit.
    do 2 f_equal. rewrite Z.pow_add_r by lia. lia.
Qed.

Lemma parseInt_pretty_positive (p : positive) (s : string) :
  s = pretty (Npos p) ->
  read_digits s None = Some (Zpos p)
  /\ exists c rest d, s = String.String c rest /\ digit_of c = Some d.
Proof.
  intros ->. unfold pretty, pretty_N.
  destruct (decide (N.pos p = 0)%N) as [|_]; [done|].
  destruct (read_pretty_go (Npos p) ltac:(done) EmptyString None)
    as [(k & Hread & Hk) Hhead].
  split; [|done]. by rewrite Hread.
Qed.

(** X6. [parseInt] reads back every integer written in decimal (below
    2^53 in absolute value, where a double holds it exactly); so a [limit]
    written in decimal is used as it is when it is not negative and
    replaced by 10 when it is, and a [page] of at least 1 is the page asked
    for. *)
Theorem parseInt_reads_decimal (n : Z) :
  Z.abs n < 2 ^ 53 ->
  parseInt (pretty n) = Some n
  /\ (0 <= n -> numericLimit (Some (pretty n)) = n)
  /\ (n < 0 -> numericLimit (Some (pretty n)) = 10)
  /\ (1 <= n -> rawPage (Some (pretty n)) = n).
Proof.
  intros _.
  assert (Hparse : parseInt (pretty n) = Some n).
  { destruct n as [|p|p]; [reflexivity| |].
    - destruct (parseInt_pretty_positive p _ eq_refl) as [Hread (c & rest & d & Hs & Hd)].
      destruct (digit_is_plain c d Hd) as (Hw & Hdash & Hplus).
      change (pretty (Z.pos p)) with (pretty (N.pos p)).
      rewrite Hs in *. unfold parseInt. cbn [trim_start].
      by rewrite Hw, Hdash, Hplus.
    - destruct (parseInt_pretty_positive p _ eq_refl) as [Hread _].
      change (parseInt (pretty (Z.neg p)))
        with (Z.opp <$> read_digits (pretty (N.pos p)) None).
      by rewrite Hread. }
  split; [done|].
  unfold numericLimit, rawPage, parsed_param, toPositiveInteger. rewrite Hparse.
  split; [|split]; intros Hn.
  - by destruct (n <? 0) eqn:Hneg; [apply Z.ltb_lt in Hneg; lia|].
  - by apply Z.ltb_lt in Hn as ->.
  - destruct (n <? 0) eqn:Hneg; [apply Z.ltb_lt in Hneg; lia|].
    by destruct (n =? 0) eqn:Hzero; [apply Z.eqb_eq in Hzero; lia|].
Qed.

End PagingFacts.

(** X7. The [byStatus] object built from an aggregation in which no [_id]
    occurs twice holds, for each non-empty status other than [__proto__],
    exactly the count of its group; groups whose [_id] is null, empty or
    [__proto__] are left out. *)
Theorem statusBreakdown_lookup (statusAggregation : list (option string * Z))
    (status : string) (count : Z) :
  NoDup (map fst statusAggregation) ->
  Paging.statusBreakdown statusAggregation !! status = Some count
  <-> (Some status, count) ∈ statusAggregation
      /\ status ≠ EmptyString /\ status ≠ "__proto__".
Proof.
  unfold Paging.statusBreakdown.
  set (step := fun (accumulator : gmap string Z) (item : option string * Z) =>
         Js.when_str (fst item) (fun id => Paging.assign accumulator id (snd item))
           accumulator).
  assert (Hfrom : forall l acc,
            foldl step acc l !! status = Some count ->
            acc !! status = Some count
            \/ ((Some status, count) ∈ l
                /\ status ≠ EmptyString /\ status ≠ "__proto__")).
  { induction l as [|[id n] l IH]; intros acc Hlook; simpl in *; [by left|].
    destruct (IH _ Hlook) as [Hacc|(Hin & Hne & Hproto)].
    - unfold step, Js.when_str, Paging.assign in Hacc. simpl in Hacc.
      destruct id as [id|]; [|by left].
      destruct (String.eqb id EmptyString) eqn:Hid; [by left|].
      apply String.eqb_neq in Hid.
      destruct (String.eqb id "__proto__") eqn:Hp; [by left|].
      apply String.eqb_neq in Hp.
      destruct (decide (id = status)) as [->|Hother].
      + rewrite lookup_insert_eq in Hacc. injection Hacc as ->.
        right. split; [apply list_elem_of_here|done].
      + rewrite lookup_insert_ne in Hacc by done. by left.
    - right. split; [by apply list_elem_of_further|done]. }
  assert (Hkept : forall l acc,
            (forall n, (Some status, n) ∉ l) ->
            foldl step acc l !! status = acc !! status).
  { induction l as [|[id n] l IH]; intros acc Hnot; simpl; [done|].
    rewrite IH by (intros m Hin; apply (Hnot m); by apply list_elem_of_further).
    unfold step, Js.when_str, Paging.assign. simpl.
    destruct id as [id|]; [|done].
    destruct (String.eqb id EmptyString); [done|].
    destruct (String.eqb id "__proto__"); [done|].
    apply lookup_insert_ne. intros ->. apply (Hnot n), list_elem_of_here. }
  assert (Hto : forall l acc,
            NoDup (map fst l) -> (Some status, count) ∈ l ->
            status ≠ EmptyString -> status ≠ "__proto__" ->
            foldl step acc l !! status = Some count).
  { induction l as [|[id n] l IH]; intros acc Hnodup Hin Hne Hproto;
      [by apply elem_of_nil in Hin|].
    simpl in Hnodup. apply NoDup_cons in Hnodup as [Hfirst Hnodup].
    apply elem_of_cons in Hin as [[= <- <-]|Hin]; simpl.
    - rewrite Hkept.
      + unfold step, Js.when_str, Paging.assign. simpl.
        apply String.eqb_neq in Hne. apply String.eqb_neq in Hproto.
        rewrite Hne, Hproto. apply lookup_insert_eq.
      + intros m Hm. apply Hfirst. apply list_elem_of_In, in_map_iff.
        exists (Some status, m). split; [done|by apply list_elem_of_In].
    - by apply IH. }
  intros Hnodup. split.
  - intros Hlook. destruct (Hfrom _ _ Hlook) as [Hempty|Hin]; [|done].
    by rewrite lookup_empty in Hempty.
  - intros (Hin & Hne & Hproto). by apply Hto.
Qed.

(** ** getTrainingLogs *)

Section LowerCase.
Import Stdlib.Strings.Ascii.

Lemma ascii_toLowerCase_asc (c : Ascii.ascii) :
  Ascii.eqb (Js.ascii_toLowerCase c) "a"%char = Ascii.eqb c "a"%char || Ascii.eqb c "A"%char
  /\ Ascii.eqb (Js.ascii_toLowerCase c) "s"%char = Ascii.eqb c "s"%char || Ascii.eqb c "S"%char
  /\ Ascii.eqb (Js.ascii_toLowerCase c) "c"%char = Ascii.eqb c "c"%char || Ascii.eqb c "C"%char.
Proof. destruct c as [[] [] [] [] [] [] [] []]; by vm_compute. Qed.

Lemma toLowerCase_asc (requested : string) :
  String.eqb (Js.toLowerCase requested) "asc"
  = existsb (String.eqb requested)
      ["asc"; "Asc"; "aSc"; "asC"; "ASc"; "AsC"; "aSC"; "ASC"].
Proof.
  destruct requested as [|c1 [|c2 [|c3 [|c4 rest]]]];
    cbn [Js.toLowerCase String.eqb existsb];
    try reflexivity;
    try destruct (ascii_toLowerCase_asc c1) as (-> & _ & _);
    try destruct (ascii_toLowerCase_asc c2) as (_ & -> & _);
    try destruct (ascii_toLowerCase_asc c3) as (_ & _ & ->);
    try destruct (Ascii.eqb c1 "a"%char); try destruct (Ascii.eqb c1 "A"%char);
    try destruct (Ascii.eqb c2 "s"%char); try destruct (Ascii.eqb c2 "S"%char);
    try destruct (Ascii.eqb c3 "c"%char); try destruct (Ascii.eqb c3 "C"%char);
    reflexivity.
Qed.

End LowerCase.

(** X8. For a valid id of a stored training, getTrainingLogs reports the
    full number of stored log lines in [count]; it returns the most recent
    [limit] of them when [limit] is positive and smaller than that, and all
    of them otherwise.  When the [order] of the request is the string "asc",
    in any mix of upper and lower case, the answer says "asc" and lists
    them oldest first; for every other order, and without one, it says
    "desc" and lists them newest first. *)
Theorem getTrainingLogs_window {A} (id : string) (limit : Z) (order : Js.Value)
    (training : Logs.Doc A) :
  let stored := default [] (Logs.logs training) in
  let ascending :=
    match order with
    | Js.Str requested =>
        existsb (String.eqb requested)
          ["asc"; "Asc"; "aSc"; "asC"; "ASc"; "AsC"; "aSC"; "ASC"]
    | _ => false
    end in
  exists body older,
    Logs.getTrainingLogs id true limit order (Some training) = Logs.Listed body
    /\ Logs.count body = length stored
    /\ Logs.logsReturned body = length (Logs.returned body)
    /\ Z.of_nat (Logs.logsReturned body)
       = (if (0 <? limit)%Z then Z.min limit (Z.of_nat (length stored))
          else Z.of_nat (length stored))
    /\ Logs.order body = (if ascending then "asc" else "desc")
    /\ stored
       = older ++ (if ascending then Logs.returned body
                   else reverse (Logs.returned body)).
Proof.
  intros stored ascending. unfold Logs.getTrainingLogs. simpl. fold stored.
  set (recent := if (0 <? limit)%Z && (limit <? Z.of_nat (length stored))%Z
                 then drop (length stored - Z.to_nat limit) stored else stored).
  assert (Hrecent : exists older,
            stored = older ++ recent
            /\ Z.of_nat (length recent)
               = (if (0 <? limit)%Z then Z.min limit (Z.of_nat (length stored))
                  else Z.of_nat (length stored))).
  { subst recent. destruct (0 <? limit)%Z eqn:Hpos; simpl.
    - destruct (limit <? Z.of_nat (length stored))%Z eqn:Hless.
      + exists (take (length stored - Z.to_nat limit) stored).
        split; [by rewrite take_drop|]. rewrite length_drop.
        apply Z.ltb_lt in Hless. lia.
      + exists []. split; [done|]. apply Z.ltb_ge in Hless. lia.
    - by exists []. }
  destruct Hrecent as (older & Holder & Hlen).
  eexists _, older. split; [reflexivity|]. simpl.
  unfold Logs.selectLogs. fold stored recent.
  assert (Horder : Logs.order_of order = if ascending then "asc" else "desc").
  { unfold Logs.order_of. subst ascending.
    destruct order as [| |b|q| |requested|ref]; try reflexivity.
    rewrite <- toLowerCase_asc. by destruct (String.eqb _ "asc"). }
  rewrite Horder. destruct ascending; simpl.
  - split; [done|]. split; [done|]. split; [done|]. split; [done|done].
  - rewrite length_reverse, reverse_involutive.
    split; [done|]. split; [done|]. split; [done|]. split; [done|done].
Qed.

(** ** escapeRegex *)

Lemma special_backslash (c : Ascii.ascii) :
  Regex.is_special c = false -> Ascii.eqb c Regex.backslash = false.
Proof.
  intros Hc. apply Ascii.eqb_neq. intros ->. by vm_compute in Hc.
Qed.


(** ** The names of uploaded objects *)

Lemma all_chars_replace_runs (p q keep : Ascii.ascii -> bool) (by_ : Ascii.ascii) (s : string) :
  (forall c, q c = true -> keep c = true -> p c = true) ->
  p by_ = true ->
  all_chars q s = true ->
  forall in_run, all_chars p (S3.replace_runs keep by_ in_run s) = true.
Proof.
  intros Hkeep Hby. induction s as [|c s IH]; intros Hq in_run; [done|].
  simpl in Hq. apply andb_true_iff in Hq as [Hc Hs]. simpl.
  destruct (keep c) eqn:Hk; simpl.
  - rewrite (Hkeep c Hc Hk). by apply IH.
  - destruct in_run; simpl; [by apply IH|]. rewrite Hby. by apply IH.
Qed.

Lemma all_chars_true (s : string) : all_chars (fun _ => true) s = true.
Proof. induction s; simpl; auto. Qed.

Lemma no_double_dash_collapse (s : string) :
  forall in_run, no_double_dash in_run (S3.replace_runs S3.is_not_dash dash in_run s) = true.
Proof.
  induction s as [|c s IH]; intros in_run; [done|]. simpl.
  destruct (S3.is_not_dash c) eqn:Hc; simpl.
  - by rewrite Hc.
  - destruct in_run; [done|]. simpl. apply IH.
Qed.

Lemma toLowerCase_char (c : Ascii.ascii) :
  S3.is_not_dash (Js.ascii_toLowerCase c) = S3.is_not_dash c
  /\ (S3.is_file_name_char c = true ->
      is_lower_file_name_char (Js.ascii_toLowerCase c) = true).
Proof.
  destruct c as [[] [] [] [] [] [] [] []]; vm_compute; split; done.
Qed.

Lemma toLowerCase_file_name (s : string) :
  all_chars S3.is_file_name_char s = true ->
  all_chars is_lower_file_name_char (Js.toLowerCase s) = true.
Proof.
  induction s as [|c s IH]; [done|]. simpl. intros [Hc Hs]%andb_true_iff.
  rewrite (proj2 (toLowerCase_char c) Hc). by apply IH.
Qed.

Lemma toLowerCase_no_double_dash (s : string) :
  forall after_dash,
    no_double_dash after_dash (Js.toLowerCase s) = no_double_dash after_dash s.
Proof.
  induction s as [|c s IH]; intros after_dash; [done|]. simpl.
  rewrite (proj1 (toLowerCase_char c)). by rewrite !IH.
Qed.


Lemma replace_runs_nonempty (keep : Ascii.ascii -> bool) (by_ : Ascii.ascii) (s : string) :
  s ≠ EmptyString -> Js.toLowerCase (S3.replace_runs keep by_ false s) ≠ EmptyString.
Proof. destruct s as [|c s]; [done|]. intros _. simpl. by destruct (keep c). Qed.

(** X11. For an original name whose base name is not empty, the key
    generateTrainingImageKey gives depends on the model name and the
    original name only, not on the index, the clock or the unique suffix:
    two images of one training with the same original name get the same
    key. *)
Theorem generateTrainingImageKey_same_name (basename : string -> string)
    (now now' : Z) (unique unique' modelName originalName : string) (index index' : nat) :
  originalName ≠ EmptyString ->
  basename originalName ≠ EmptyString ->
  S3.generateTrainingImageKey basename now unique modelName (Some originalName) index
  = S3.generateTrainingImageKey basename now' unique' modelName (Some originalName) index'.
Proof.
  intros Hname Hbase. unfold S3.generateTrainingImageKey.
  set (spaced := Js.toLowerCase
                   (S3.replace_runs (fun c => negb (Paging.is_white_space c)) dash false
                      (basename originalName))).
  assert (Hspaced : spaced ≠ EmptyString) by by apply replace_runs_nonempty.
  unfold S3.sanitizeFileName, Js.when_str.
  apply String.eqb_neq in Hname, Hspaced. cbv beta iota.
  rewrite Hname. cbv beta iota. fold spaced. by rewrite Hspaced.
Qed.

(** ** More on the status and cancel handlers *)

(** X12. For a well-formed id, the text of an ObjectId, under which no
    training is stored, checkTrainingStatus and cancelTraining both answer
    404; the answer is their only outward call and the store is
    unchanged.  (An id that is not well formed is not looked up: Mongoose
    rejects it, and the handlers answer 500.) *)
Theorem unknown_training_not_found (env : Env) (id : string) (w : World) :
  is_object_id id = true ->
  trainings w !! id = None ->
  let notFound := mkResponse 404 (Failure "Training not found" None) in
  checkTrainingStatus env id w = (Ok notFound, log (ERespond notFound) w)
  /\ cancelTraining env id w = (Ok notFound, log (ERespond notFound) w)
  /\ trainings (log (ERespond notFound) w) = trainings w.
Proof. intros _ Hnone. run_handler. by rewrite Hnone. Qed.


Lemma answers_once_log (codes : list nat) (w : World) (before : list Effect)
    (response : Response) (w' : World) :
  trace w' = trace w ++ before ++ [ERespond response] ->
  Forall (fun e => is_response e = false) before ->
  res_status response ∈ codes ->
  answers_once codes w (Ok response, w').
Proof.
  intros Htr Hbefore Hcode. exists response, before. simpl.
  split; [done|]. split; [by apply effects_since_app|]. done.
Qed.

(** The run has made the calls [before] and then answered. *)
Ltac answer_once before :=
  apply (answers_once_log _ _ before);
  [simpl; rewrite <- ?app_assoc; reflexivity
  |by repeat constructor
  |simpl; repeat (first [apply list_elem_of_here | apply list_elem_of_further])].

(** X13. checkTrainingStatus and cancelTraining never throw: each run ends
    with exactly one response, sent after every other outward call, with
    status 200, 404 or 500 (checkTrainingStatus) or 200, 400, 404 or 500
    (cancelTraining). *)
Theorem status_and_cancel_answer_once (env : Env) (id : string) (w : World) :
  answers_once [200; 404; 500] w (checkTrainingStatus env id w)
  /\ answers_once [200; 400; 404; 500] w (cancelTraining env id w).
Proof.
  split; run_handler.
  - destruct (trainings w !! id) as [training|]; [|answer_once (@nil Effect)].
    destruct (not_dispatched training); [answer_once (@nil Effect)|].
    set (handle := Training.replicateTrainingId training).
    destruct (replicate_trainings_get env handle) as [rt|e]; simpl;
      [|answer_once [EReplicateTrainingsGet handle]].
    set (eventType := if Js.includes _ _ then _ else _).
    destruct (processTrainingEvent_run env id rt eventType (trainings w))
      as [[[]|e] store]; simpl;
      [|answer_once [EReplicateTrainingsGet handle; EProcessTrainingEvent id rt eventType]].
    destruct (populateTrainingForClient_run env id store (users w)) as [p|e]; simpl;
      answer_once [EReplicateTrainingsGet handle; EProcessTrainingEvent id rt eventType;
                   EPopulateTrainingForClient id].
  - destruct (trainings w !! id) as [training|]; [|answer_once (@nil Effect)].
    destruct (not_dispatched training); [answer_once (@nil Effect)|].
    set (handle := Training.replicateTrainingId training).
    destruct (replicate_trainings_cancel env handle) as [[]|e]; simpl;
      [|answer_once [EReplicateTrainingsCancel handle]].
    set (update := mkUpdate _ _).
    set (canceled := [EReplicateTrainingsCancel handle; ETrainingFindByIdAndUpdate id update;
                      EPopulateTrainingForClient id]).
    destruct (populateTrainingForClient_run env id _ (users w)) as [p|e]; simpl;
      [|answer_once canceled].
    destruct (broadcastTraining_run env _ id _) as [[]|e]; simpl;
      answer_once (canceled ++ [EBroadcastTraining id]).
Qed.

(** X14. checkTrainingStatus on a stored training with a real handle: when
    the provider's answer cannot be had, the answer is a 500 with the
    provider's message, nothing is ingested and the store is unchanged;
    when the ingestion fails, the answer is a 500 with its message and the
    record is not read back. *)
Theorem checkTrainingStatus_failures
    (env : Env) (id : string) (w : World) (training : Training.t) :
  trainings w !! id = Some training ->
  ¬ handle_pending training ->
  let handle := Training.replicateTrainingId training in
  let failure (e : Js.Error) :=
    mkResponse 500 (Failure "Failed to check training status" (Some (Js.message e))) in
  let '(r, w') := checkTrainingStatus env id w in
  (forall e, replicate_trainings_get env handle = Throw e ->
     r = Ok (failure e)
     /\ trainings w' = trainings w
     /\ effects_since w w' = [EReplicateTrainingsGet handle; ERespond (failure e)])
  /\
  (forall replicateTraining e store,
     replicate_trainings_get env handle = Ok replicateTraining ->
     let eventType :=
       if Js.includes TERMINAL_STATUSES (Replicate.status replicateTraining)
       then "completed" else "update" in
     processTrainingEvent_run env id replicateTraining eventType (trainings w)
       = (Throw e, store) ->
     r = Ok (failure e)
     /\ trainings w' = store
     /\ effects_since w w'
        = [EReplicateTrainingsGet handle;
           EProcessTrainingEvent id replicateTraining eventType; ERespond (failure e)]).
Proof.
  intros Hstored Hreal%not_dispatched_real handle failure.
  run_handler. rewrite Hstored, Hreal. fold handle.
  destruct (replicate_trainings_get env handle) as [rt|e] eqn:Hget; simpl.
  - set (eventType := if Js.includes _ _ then _ else _).
    destruct (processTrainingEvent_run env id rt eventType (trainings w))
      as [[[]|e] store] eqn:Hingest; simpl.
    + destruct (populateTrainingForClient_run env id store (users w)) as [p|e]; simpl;
        (split; [by intros e' [=]|]); intros rt' e' store' [= <-] Hrun;
        fold eventType in Hrun; congruence.
    + split; [by intros e' [=]|]. intros rt' e' store' [= <-] Hrun.
      fold eventType in Hrun. rewrite Hingest in Hrun.
      injection Hrun as <- <-. split; [done|]. split; [done|].
      apply effects_since_app. simpl. by rewrite <- ?app_assoc.
  - split; [|by intros rt e' store [=]].
    intros e' [= <-]. split; [done|]. split; [done|]. apply effects_since_log2.
Qed.

(** X15. cancelTraining after the provider has acknowledged: the record is
    canceled before it is read back; subscribers are notified only when the
    read-back succeeds, and the 200 answer is sent only when the notification
    succeeds too.  When either fails the answer is a 500, and the record
    stays canceled. *)
Theorem cancelTraining_after_acknowledgment
    (env : Env) (id : string) (w : World) (training : Training.t) :
  trainings w !! id = Some training ->
  ¬ handle_pending training ->
  let handle := Training.replicateTrainingId training in
  replicate_trainings_cancel env handle = Ok tt ->
  let failure (e : Js.Error) :=
    mkResponse 500 (Failure "Failed to cancel training" (Some (Js.message e))) in
  let '(r, w') := cancelTraining env id w in
  exists update canceled,
    trainings w' = <[id := canceled]> (trainings w)
    /\ Training.status canceled = "canceled"
    /\ let written :=
         [EReplicateTrainingsCancel handle; ETrainingFindByIdAndUpdate id update;
          EPopulateTrainingForClient id] in
       match populateTrainingForClient_run env id (trainings w') (users w) with
       | Throw e => r = Ok (failure e) /\ effects_since w w' = written ++ [ERespond (failure e)]
       | Ok updatedTraining =>
           match broadcastTraining_run env (length (trace w) + 3) id (trainings w') with
           | Throw e =>
               r = Ok (failure e)
               /\ effects_since w w'
                  = written ++ [EBroadcastTraining id; ERespond (failure e)]
           | Ok _ =>
               let done :=
                 mkResponse 200 (Success (Some "Training canceled successfully")
                                   (Populated updatedTraining)) in
               r = Ok done
               /\ effects_since w w' = written ++ [EBroadcastTraining id; ERespond done]
           end
       end.
Proof.
  intros Hstored Hreal%not_dispatched_real handle Hack failure.
  run_handler. rewrite Hstored, Hreal. fold handle. rewrite Hack. simpl.
  set (update := mkUpdate _ _).
  pose proof (alter_stored (apply_update update) _ _ _ Hstored) as Halter.
  set (store := <[id := apply_update update training]> (trainings w)) in *.
  rewrite !length_app. simpl.
  replace (length (trace w) + 1 + 1 + 1) with (length (trace w) + 3) by lia.
  rewrite !Halter.
  destruct (populateTrainingForClient_run env id store (users w)) as [p|e] eqn:Hpop; simpl.
  - destruct (broadcastTraining_run env (length (trace w) + 3) id store) as [[]|e] eqn:Hb;
      simpl; exists update, (apply_update update training);
      rewrite !Halter, Hpop, Hb;
      (split; [done|]); (split; [by destruct training|]);
      (split; [done|]);
      apply effects_since_app; simpl; by rewrite <- ?app_assoc.
  - exists update, (apply_update update training). rewrite !Halter, Hpop.
    split; [done|]. split; [by destruct training|].
    split; [done|]. apply effects_since_app. simpl. by rewrite <- ?app_assoc.
Qed.

(** ** The images startTraining trains on *)

Ltac run_download :=
  unfold downloadAssetBuffer, downloadFromS3, normaliseUrl, Js.when_str, try_catch,
    mbind, M_bind, mret, M_ret, call, throw.

(** X16. downloadAssetBuffer asks the storage first: when the asset has a
    key under which S3 holds a non-empty object, that object is the result
    and nothing is fetched from the asset's url. *)
Theorem downloadAssetBuffer_prefers_storage
    (env : Env) (asset : Asset.t) (index : nat) (w : World)
    (key : string) (byte : N) (rest : Buffer) :
  Asset.key asset = Some key ->
  key ≠ EmptyString ->
  s3_get_object env (length (trace w)) key = Ok (byte :: rest) ->
  downloadAssetBuffer env (Some asset) index w
  = (Ok (Some (byte :: rest)), log (EDownloadFromS3 key) w).
Proof.
  intros Hkey Hne%String.eqb_neq Hget. run_download.
  by rewrite Hkey, Hne, Hget.
Qed.

(** X17. For an asset without a url, downloadAssetBuffer never throws,
    whatever the storage does: the result is the non-empty object S3 holds
    under the asset's key, and no buffer otherwise; the read of that key
    is its only outward call. *)
Theorem downloadAssetBuffer_without_url
    (env : Env) (asset : Asset.t) (index : nat) (w : World) :
  Js.truthy_str (Asset.url asset) = false ->
  exists result w',
    downloadAssetBuffer env (Some asset) index w = (Ok result, w')
    /\ effects_since w w' = Js.when_str (Asset.key asset) (fun key => [EDownloadFromS3 key]) []
    /\ result
       = Js.when_str (Asset.key asset)
           (fun key =>
              match s3_get_object env (length (trace w)) key with
              | Ok (byte :: rest) => Some (byte :: rest)
              | _ => None
              end)
           None.
Proof.
  intros Hurl.
  assert (Hu : Asset.url asset = None \/ Asset.url asset = Some EmptyString).
  { destruct (Asset.url asset) as [s|]; [|by left]. right.
    simpl in Hurl. apply negb_false_iff, String.eqb_eq in Hurl. by subst s. }
  run_download.
  assert (Hsame : effects_since w w = []) by (unfold effects_since; apply drop_all).
  destruct (Asset.key asset) as [key|]; [destruct (key =? EmptyString)%string|];
    [|destruct (s3_get_object env (length (trace w)) key) as [[|byte rest]|e]|];
    destruct Hu as [Hu|Hu]; rewrite ?Hu; simpl; eexists _, _;
    (split; [reflexivity|]); split; try done; apply effects_since_log1.
Qed.

(** X18. When the storage has no non-empty object for the asset, because
    the asset has no key, the read fails or the object is empty,
    downloadAssetBuffer fetches the asset's url, normalised: the body of an
    ok response is the result, whatever its length; a response that is not
    ok and a failed fetch are thrown. *)
Theorem downloadAssetBuffer_falls_back
    (env : Env) (asset : Asset.t) (index : nat) (w : World) (url : string) :
  Asset.url asset = Some url ->
  url ≠ EmptyString ->
  url_normalise env url ≠ EmptyString ->
  (forall key byte rest,
     Asset.key asset = Some key ->
     s3_get_object env (length (trace w)) key ≠ Ok (byte :: rest)) ->
  let targetUrl := url_normalise env url in
  let tried := Js.when_str (Asset.key asset) (fun key => [EDownloadFromS3 key]) [] in
  let '(r, w') := downloadAssetBuffer env (Some asset) index w in
  effects_since w w' = tried ++ [EFetch targetUrl]
  /\ match fetch_get env (length (trace w) + length tried) targetUrl with
     | Ok (inl arrayBuffer) => r = Ok (Some arrayBuffer)
     | Ok (inr status) =>
         r = Throw (Js.mkError ("Failed to download image from " +:+ targetUrl
                                +:+ " (status " +:+ pretty status +:+ ")"))
     | Throw e => r = Throw e
     end.
Proof.
  intros Hurl Hne%String.eqb_neq Hnorm%String.eqb_neq Hmiss targetUrl tried.
  run_download. rewrite Hurl, Hne. simpl. rewrite Hnorm. fold targetUrl.
  subst tried. unfold Js.when_str.
  destruct (Asset.key asset) as [key|]; [destruct (key =? EmptyString)%string|].
  2: { destruct (s3_get_object env (length (trace w)) key) as [[|byte rest]|e] eqn:Hget;
         [| by destruct (Hmiss key byte rest eq_refl) |];
         simpl; rewrite length_app; simpl;
         destruct (fetch_get env (length (trace w) + 1) targetUrl) as [[body|status]|e'];
         (split; [apply effects_since_log2|done]). }
  all: simpl; rewrite Nat.add_0_r;
    destruct (fetch_get env (length (trace w)) targetUrl) as [[body|status]|e'];
    (split; [apply effects_since_log1|done]).
Qed.

Lemma loadUserAssets_loaded (env : Env) (assets : list Asset.t) :
  forall index sourceAssets w,
    Forall loaded sourceAssets ->
    match loadUserAssets env assets index sourceAssets w with
    | (Ok sources, _) =>
        Forall loaded sources
        /\ length sourceAssets <= length sources <= length sourceAssets + length assets
    | (Throw e, _) => Js.startsWith (Js.message e) "Failed to load user asset " = true
    end.
Proof.
  induction assets as [|asset rest IH]; intros index sourceAssets w Hloaded.
  - simpl. split; [done|lia].
  - cbn [loadUserAssets]. unfold mbind, M_bind, try_catch.
    destruct (downloadAssetBuffer env (Some asset) index w) as [[[[|byte buffer]|]|e] w1];
      simpl; [| |  |done].
    + specialize (IH (S index) sourceAssets w1 Hloaded).
      destruct (loadUserAssets env rest (S index) sourceAssets w1) as [[sources|e] w2];
        [|done]. split; [apply IH|]. lia.
    + set (added := sourceAssets ++ [_]).
      assert (Hadded : Forall loaded added).
      { apply Forall_app. split; [done|]. repeat constructor. done. }
      specialize (IH (S index) added w1 Hadded).
      destruct (loadUserAssets env rest (S index) added w1) as [[sources|e] w2]; [|done].
      split; [apply IH|]. subst added. rewrite length_app in IH. simpl in IH. lia.
    + specialize (IH (S index) sourceAssets w1 Hloaded).
      destruct (loadUserAssets env rest (S index) sourceAssets w1) as [[sources|e] w2];
        [|done]. split; [apply IH|]. lia.
Qed.

(** X19. The images startTraining takes from the user's library: at most
    the first 25 stored assets are tried; each image taken has a non-empty
    buffer and a size equal to the length of its buffer; assets without
    content are skipped, so the images are at least one and no more than
    the assets tried.  A download that throws ends the loop with an error
    that names the asset. *)
Theorem gatherSourceAssets_library
    (env : Env) (user : User.t) (incomingFiles : list UploadedFile) (w : World) :
  let userAssets := default [] (User.imageAssets user) in
  match gatherSourceAssets env user incomingFiles true w with
  | (Ok (inr (sourceAssets, userAssetIdsUsed)), _) =>
      userAssetIdsUsed = map Asset._id (take 25 userAssets)
      /\ 1 <= length sourceAssets <= length userAssetIdsUsed
      /\ length userAssetIdsUsed <= 25
      /\ Forall loaded sourceAssets
  | (Ok (inl message), w') =>
      (userAssets = [] /\ w' = w)
      \/ (userAssets ≠ []
          /\ message = "Unable to load user images for training. Please verify the uploaded files and try again.")
  | (Throw e, _) => Js.startsWith (Js.message e) "Failed to load user asset " = true
  end.
Proof.
  intros userAssets. unfold gatherSourceAssets. fold userAssets.
  destruct userAssets as [|asset rest] eqn:Hassets; [by left|].
  rewrite <- Hassets. replace (length userAssets =? 0) with false by by rewrite Hassets.
  unfold mbind, M_bind.
  pose proof (loadUserAssets_loaded env (take MAX_TRAINING_IMAGES userAssets) 0 [] w
                (Forall_nil_2 _)) as Hrun.
  destruct (loadUserAssets env (take MAX_TRAINING_IMAGES userAssets) 0 [] w)
    as [[sources|e] w1]; [|done].
  destruct Hrun as [Hloaded Hlen]. unfold MAX_TRAINING_IMAGES in *.
  pose proof (length_take_le userAssets 25) as Hcap.
  change (length (@nil SourceAsset)) with 0 in Hlen.
  destruct sources as [|source sources].
  - right. split; [by rewrite Hassets|done].
  - change (length (source :: sources) =? 0) with false. cbv iota.
    split; [done|]. rewrite length_map.
    change (length (source :: sources)) with (S (length sources)) in *.
    split; [lia|]. split; [|done].
    rewrite length_take. lia.
Qed.

Lemma sourceAssetsOfFiles_lookup (env : Env) (incomingFiles : list UploadedFile) :
  forall index i,
    sourceAssetsOfFiles env incomingFiles index !! i
    = (fun file =>
         mkSource (file_buffer file)
           (Js.when_str (file_originalname file) (fun s => s) (default_file_name (index + i)))
           (Js.when_str (file_mimetype file) (fun s => s)
              (guessContentType env (file_originalname file)))
           (file_size file)) <$> incomingFiles !! i.
Proof.
  induction incomingFiles as [|file rest IH]; intros index i; [done|].
  destruct i as [|i]; simpl.
  - by rewrite Nat.add_0_r.
  - rewrite IH. by replace (S index + i) with (index + S i) by lia.
Qed.

(** X20. The images startTraining takes from an upload: one per uploaded
    file, in the order of the upload, each with the file's buffer and
    declared size, named by the file's original name or, when it has none,
    training-image-N.jpg with N its position counted from 1; the name is
    never empty.  No outward call is made. *)
Theorem gatherSourceAssets_upload
    (env : Env) (user : User.t) (incomingFiles : list UploadedFile) (w : World) :
  exists sourceAssets,
    gatherSourceAssets env user incomingFiles false w = (Ok (inr (sourceAssets, [])), w)
    /\ length sourceAssets = length incomingFiles
    /\ forall i file,
         incomingFiles !! i = Some file ->
         exists source,
           sourceAssets !! i = Some source
           /\ src_buffer source = file_buffer file
           /\ src_size source = file_size file
           /\ src_originalName source
              = Js.when_str (file_originalname file) (fun s => s)
                  ("training-image-" +:+ pretty (i + 1) +:+ ".jpg")
           /\ src_originalName source ≠ EmptyString.
Proof.
  exists (sourceAssetsOfFiles env incomingFiles 0). split; [done|]. split.
  - generalize 0. induction incomingFiles as [|file rest IH]; intros index; simpl;
      [done|by rewrite IH].
  - intros i file Hfile. rewrite sourceAssetsOfFiles_lookup, Hfile. simpl.
    eexists. split; [done|]. simpl. split; [done|]. split; [done|]. split; [done|].
    unfold Js.when_str. destruct (file_originalname file) as [s|]; [|done].
    destruct (s =? EmptyString)%string eqn:Hs; [done|]. by apply String.eqb_neq.
Qed.

(** ** Which calls a part of startTraining makes *)

Section CallsOnly.
Variable allowed : Effect -> bool.

Lemma calls_only_refl (w : World) : calls_only allowed w w.
Proof. exists []. by rewrite app_nil_r. Qed.

Lemma calls_only_trans (w1 w2 w3 : World) :
  calls_only allowed w1 w2 -> calls_only allowed w2 w3 -> calls_only allowed w1 w3.
Proof.
  intros (es1 & Htr1 & Hq1) (es2 & Htr2 & Hq2).
  exists (es1 ++ es2). split; [by rewrite Htr2, Htr1, app_assoc|by apply Forall_app].
Qed.

Lemma calls_only_log (w : World) (e : Effect) :
  allowed e = true -> calls_only allowed w (log e w).
Proof. intros He. exists [e]. split; [done|by constructor]. Qed.

Lemma calls_only_stored (w : World) (e : Effect)
    (f : gmap string Training.t -> gmap string Training.t) :
  allowed e = true -> calls_only allowed w (log e (set_trainings f w)).
Proof. intros He. exists [e]. split; [done|by constructor]. Qed.

Lemma makes_only_mret {A} (a : A) : makes_only allowed (mret a : M World A).
Proof. intros w. apply calls_only_refl. Qed.

Lemma makes_only_throw {A} (e : Js.Error) : makes_only allowed (throw e : M World A).
Proof. intros w. apply calls_only_refl. Qed.

Lemma makes_only_gets {A} (f : World -> A) : makes_only allowed (gets f).
Proof. intros w. apply calls_only_refl. Qed.

Lemma makes_only_new_Date (env : Env) : makes_only allowed (new_Date env).
Proof. apply makes_only_gets. Qed.

Lemma makes_only_call {A} (e : Effect) (answer : nat -> Result A) :
  allowed e = true -> makes_only allowed (call e answer).
Proof. intros He w. by apply calls_only_log. Qed.

Lemma makes_only_res_json (code : nat) (body : Body) :
  allowed (ERespond (mkResponse code body)) = true -> makes_only allowed (res_json code body).
Proof. intros He w. by apply calls_only_log. Qed.

Lemma makes_only_Training_create (doc : Training.t) :
  (forall id, allowed (ETrainingCreate id doc) = true) ->
  makes_only allowed (Training_create doc).
Proof. intros He w. by apply calls_only_stored. Qed.

Lemma makes_only_Training_findByIdAndUpdate (id : string) (update : Update) :
  allowed (ETrainingFindByIdAndUpdate id update) = true ->
  makes_only allowed (Training_findByIdAndUpdate id update).
Proof. intros He w. by apply calls_only_stored. Qed.

Lemma makes_only_broadcastTraining (env : Env) (id : string) :
  allowed (EBroadcastTraining id) = true -> makes_only allowed (broadcastTraining env id).
Proof. intros He w. by apply calls_only_log. Qed.

Lemma makes_only_populateTrainingForClient (env : Env) (id : string) :
  allowed (EPopulateTrainingForClient id) = true ->
  makes_only allowed (populateTrainingForClient env id).
Proof. intros He w. by apply calls_only_log. Qed.

Lemma makes_only_dispatchTraining (env : Env) (id : string) (args : Replicate.Args)
    (reason : string) :
  allowed (EDispatchTraining id args reason) = true ->
  makes_only allowed (dispatchTraining env id args reason).
Proof.
  intros He w. unfold dispatchTraining.
  destruct (dispatchTraining_run env id args reason (trainings w)) as [r store].
  by apply calls_only_stored.
Qed.

Lemma makes_only_bind {A B} (m : M World A) (f : A -> M World B) :
  makes_only allowed m -> (forall a, makes_only allowed (f a)) -> makes_only allowed (m ≫= f).
Proof.
  intros Hm Hf w. unfold mbind, M_bind. specialize (Hm w).
  destruct (m w) as [[a|e] w1]; simpl in *; [|done].
  eapply calls_only_trans; [done|apply Hf].
Qed.

Lemma makes_only_try_catch {A} (body : M World A) (handler : Js.Error -> M World A) :
  makes_only allowed body -> (forall e, makes_only allowed (handler e)) ->
  makes_only allowed (try_catch body handler).
Proof.
  intros Hm Hh w. unfold try_catch. specialize (Hm w).
  destruct (body w) as [[a|e] w1]; simpl in *; [done|].
  eapply calls_only_trans; [done|apply Hh].
Qed.

Lemma makes_only_when_str {A} (o : option string) (then_ : string -> M World A)
    (else_ : M World A) :
  (forall s, makes_only allowed (then_ s)) -> makes_only allowed else_ ->
  makes_only allowed (Js.when_str o then_ else_).
Proof.
  intros Ht He. unfold Js.when_str. destruct o as [s|]; [destruct (_ =? _)%string|]; auto.
Qed.

Lemma makes_only_forM {A B} (f : A -> M World B) (xs : list A) :
  (forall x, makes_only allowed (f x)) -> makes_only allowed (forM f xs).
Proof.
  intros Hf. induction xs as [|x xs IH]; simpl; [apply makes_only_mret|].
  apply makes_only_bind; [done|]. intros y. apply makes_only_bind; [done|].
  intros ys. apply makes_only_mret.
Qed.

Lemma makes_onlyS_liftW {A} (m : M World A) :
  makes_only allowed m -> makes_onlyS allowed (liftW m).
Proof.
  intros Hm w l. unfold liftW. specialize (Hm w). by destruct (m w) as [r w'].
Qed.

Lemma makes_onlyS_mret {A} (a : A) : makes_onlyS allowed (mret a : M StartState A).
Proof. intros w l. apply calls_only_refl. Qed.

Lemma makes_onlyS_throw {A} (e : Js.Error) : makes_onlyS allowed (throw e : M StartState A).
Proof. intros w l. apply calls_only_refl. Qed.

Lemma makes_onlyS_get_local {A} (f : Locals -> A) : makes_onlyS allowed (get_local f).
Proof. intros w l. apply calls_only_refl. Qed.

Lemma makes_onlyS_set_uploadedAssets v : makes_onlyS allowed (set_uploadedAssets v).
Proof. intros w l. apply calls_only_refl. Qed.

Lemma makes_onlyS_set_generatedZipKey v : makes_onlyS allowed (set_generatedZipKey v).
Proof. intros w l. apply calls_only_refl. Qed.

Lemma makes_onlyS_set_localZipPath v : makes_onlyS allowed (set_localZipPath v).
Proof. intros w l. apply calls_only_refl. Qed.

Lemma makes_onlyS_bind {A B} (m : M StartState A) (f : A -> M StartState B) :
  makes_onlyS allowed m -> (forall a, makes_onlyS allowed (f a)) ->
  makes_onlyS allowed (m ≫= f).
Proof.
  intros Hm Hf w l. unfold mbind, M_bind. specialize (Hm w l).
  destruct (m (w, l)) as [[a|e] [w1 l1]]; simpl in *; [|done].
  eapply calls_only_trans; [done|apply Hf].
Qed.

End CallsOnly.

Create HintDb only.
#[local] Hint Resolve makes_only_mret makes_only_throw makes_only_gets makes_only_new_Date
  makes_onlyS_mret makes_onlyS_throw makes_onlyS_get_local makes_onlyS_set_uploadedAssets
  makes_onlyS_set_generatedZipKey makes_onlyS_set_localZipPath : only.
#[local] Hint Extern 2 (makes_only _ (call _ _)) => apply makes_only_call; reflexivity : only.
#[local] Hint Extern 2 (makes_only _ (res_json _ _)) =>
  apply makes_only_res_json; reflexivity : only.
#[local] Hint Extern 2 (makes_only _ (broadcastTraining _ _)) =>
  apply makes_only_broadcastTraining; reflexivity : only.
#[local] Hint Extern 2 (makes_only _ (populateTrainingForClient _ _)) =>
  apply makes_only_populateTrainingForClient; reflexivity : only.
#[local] Hint Extern 2 (makes_only _ (Training_findByIdAndUpdate _ _)) =>
  apply makes_only_Training_findByIdAndUpdate; reflexivity : only.
#[local] Hint Extern 3 (makes_only _ (_ ≫= _)) => apply makes_only_bind; [|intros ?] : only.
#[local] Hint Extern 3 (makes_only _ (try_catch _ _)) =>
  apply makes_only_try_catch; [|intros ?] : only.
#[local] Hint Extern 3 (makes_only _ (Js.when_str _ _ _)) =>
  apply makes_only_when_str; [intros ?|] : only.
#[local] Hint Extern 3 (makes_only _ (forM _ _)) => apply makes_only_forM; intros ? : only.
#[local] Hint Extern 4 (makes_only _ (match ?x with _ => _ end)) => destruct x : only.
#[local] Hint Extern 2 (makes_onlyS _ (liftW _)) => apply makes_onlyS_liftW : only.
#[local] Hint Extern 3 (makes_onlyS _ (_ ≫= _)) => apply makes_onlyS_bind; [|intros ?] : only.
#[local] Hint Extern 4 (makes_onlyS _ (match ?x with _ => _ end)) => destruct x : only.

Lemma makes_only_loadUserAssets (allowed : Effect -> bool) (env : Env) (assets : list Asset.t) :
  (forall key, allowed (EDownloadFromS3 key) = true) ->
  (forall url, allowed (EFetch url) = true) ->
  forall index sourceAssets, makes_only allowed (loadUserAssets env assets index sourceAssets).
Proof.
  intros Hs3 Hfetch.
  induction assets as [|asset rest IH]; intros index sourceAssets; simpl; [auto with only|].
  apply makes_only_bind; [|done]. apply makes_only_try_catch; [|auto with only].
  apply makes_only_bind; [|auto 6 with only].
  unfold downloadAssetBuffer, downloadFromS3, normaliseUrl.
  apply makes_only_bind.
  - apply makes_only_when_str; [|auto with only]. intros key.
    apply makes_only_try_catch; [|auto with only].
    apply makes_only_bind; [|auto 6 with only].
    destruct (key =? EmptyString)%string; [auto with only|].
    apply makes_only_bind; [by apply makes_only_call|auto with only].
  - intros [buffer|]; [auto with only|].
    apply makes_only_when_str; [|auto with only]. intros url.
    apply makes_only_when_str; [|auto with only]. intros targetUrl.
    apply makes_only_bind; [by apply makes_only_call|auto 6 with only].
Qed.

Lemma makes_only_uploadSourceAssets (allowed : Effect -> bool) (env : Env) (name : string)
    (sourceAssets : list SourceAsset) :
  (forall key, allowed (EUploadBufferToS3 key) = true) ->
  forall index, makes_only allowed (uploadSourceAssets env name sourceAssets index).
Proof.
  intros Hupload.
  induction sourceAssets as [|asset rest IH]; intros index; simpl; [auto with only|].
  apply makes_only_bind; [auto with only|]. intros moment.
  apply makes_only_bind.
  { unfold uploadBufferToS3. apply makes_only_bind; [by apply makes_only_call|auto with only]. }
  intros url. apply makes_only_bind; [auto with only|]. intros uploadedAt.
  apply makes_only_bind; [done|auto with only].
Qed.

(** ** The [catch] of startTraining, call by call *)

Lemma swallow_deleteFromS3 (env : Env) (key : option string) (w : World) :
  exists w',
    try_catch (deleteFromS3 env key) (fun _ => mret tt) w = (Ok tt, w')
    /\ trainings w' = trainings w
    /\ users w' = users w
    /\ trace w' = trace w ++ deletion key.
Proof.
  unfold deleteFromS3, deletion, Js.when_str, try_catch, call.
  destruct key as [key|]; [destruct (key =? EmptyString)%string|];
    try (exists w; by rewrite app_nil_r).
  destruct (s3_delete_object env (length (trace w)) key) as [[]|e]; by eexists.
Qed.

Lemma swallow_deletes (env : Env) (uploaded : list Asset.t) :
  forall w, exists done w',
    forM (fun asset => try_catch (deleteFromS3 env (Asset.key asset)) (fun _ => mret tt))
      uploaded w = (Ok done, w')
    /\ trainings w' = trainings w
    /\ users w' = users w
    /\ trace w' = trace w ++ flat_map (fun asset => deletion (Asset.key asset)) uploaded.
Proof.
  induction uploaded as [|asset rest IH]; intros w; simpl.
  - exists [], w. by rewrite app_nil_r.
  - unfold mbind, M_bind.
    destruct (swallow_deleteFromS3 env (Asset.key asset) w) as (w1 & -> & Ht1 & Hu1 & Htr1).
    destruct (IH w1) as (done & w2 & -> & Ht2 & Hu2 & Htr2).
    exists (tt :: done), w2. split; [done|]. split; [congruence|]. split; [congruence|].
    by rewrite Htr2, Htr1, <- app_assoc.
Qed.

Lemma startTraining_catch_calls (env : Env) (error : Js.Error) (w : World) (l : Locals) :
  exists w' l',
    startTraining_catch env error (w, l) = (Ok (start_failure error), (w', l'))
    /\ trainings w' = trainings w
    /\ users w' = users w
    /\ trace w'
       = trace w
         ++ (deletion (generatedZipKey l)
             ++ flat_map (fun asset => deletion (Asset.key asset)) (uploadedAssets l)
             ++ removal (localZipPath l))
         ++ [ERespond (start_failure error)].
Proof.
  unfold startTraining_catch, mbind, M_bind, get_local, gets, liftW. cbv beta iota.
  assert (Hzip : exists w1,
            Js.when_str (generatedZipKey l)
              (fun key => try_catch (deleteFromS3 env (Some key)) (fun _ => mret tt))
              (mret tt) w = (Ok tt, w1)
            /\ trainings w1 = trainings w /\ users w1 = users w
            /\ trace w1 = trace w ++ deletion (generatedZipKey l)).
  { unfold Js.when_str at 1. unfold deletion at 1, Js.when_str at 1.
    destruct (generatedZipKey l) as [key|]; [destruct (key =? EmptyString)%string eqn:Hkey|];
      try (exists w; by rewrite app_nil_r).
    destruct (swallow_deleteFromS3 env (Some key) w) as (w1 & Hrun & Ht & Hu & Htr).
    exists w1. split; [done|]. split; [done|]. split; [done|].
    rewrite Htr. unfold deletion, Js.when_str. by rewrite Hkey. }
  destruct Hzip as (w1 & -> & Ht1 & Hu1 & Htr1).
  destruct (swallow_deletes env (uploadedAssets l) w1) as (done & w2 & -> & Ht2 & Hu2 & Htr2).
  assert (Hpath : exists w3,
            Js.when_str (localZipPath l)
              (fun path => try_catch (call (EFsRemove path) (fun n => fs_remove env n path))
                             (fun _ => mret tt))
              (mret tt) w2 = (Ok tt, w3)
            /\ trainings w3 = trainings w2 /\ users w3 = users w2
            /\ trace w3 = trace w2 ++ removal (localZipPath l)).
  { unfold removal, Js.when_str, try_catch, call.
    destruct (localZipPath l) as [path|]; [destruct (path =? EmptyString)%string|];
      try (exists w2; by rewrite app_nil_r).
    destruct (fs_remove env (length (trace w2)) path) as [[]|e]; by eexists. }
  destruct Hpath as (w3 & -> & Ht3 & Hu3 & Htr3).
  eexists _, _. split; [reflexivity|]. simpl.
  split; [congruence|]. split; [congruence|].
  simpl. by rewrite Htr3, Htr2, Htr1, <- !app_assoc.
Qed.

(** X21. The [catch] of startTraining never throws, whatever the storage
    and the file system answer: it asks S3 to delete the zip, when its key
    was set, and every uploaded image that has a key, in the order of the
    upload, then removes the local zip, when its path was set, and answers
    500 with the message of the error it caught.  The collections are not
    touched. *)
Theorem startTraining_catch_cleanup (env : Env) (error : Js.Error) (w : World) (l : Locals) :
  exists w' l',
    startTraining_catch env error (w, l) = (Ok (start_failure error), (w', l'))
    /\ trainings w' = trainings w
    /\ users w' = users w
    /\ effects_since w w'
       = deletion (generatedZipKey l)
         ++ flat_map (fun asset => deletion (Asset.key asset)) (uploadedAssets l)
         ++ removal (localZipPath l)
         ++ [ERespond (start_failure error)].
Proof.
  destruct (startTraining_catch_calls env error w l) as (w' & l' & Hrun & Ht & Hu & Htr).
  exists w', l'. split; [done|]. split; [done|]. split; [done|].
  apply effects_since_app. by rewrite Htr, <- !app_assoc.
Qed.

(** ** startTraining answers once *)

#[local] Hint Extern 2 (makes_only _ (Training_create _)) =>
  apply makes_only_Training_create; intros ?; reflexivity : only.
#[local] Hint Extern 2 (makes_only _ (dispatchTraining _ _ _ _)) =>
  apply makes_only_dispatchTraining; reflexivity : only.
#[local] Hint Extern 2 (makes_only _ (loadUserAssets _ _ _ _)) =>
  apply makes_only_loadUserAssets; intros ?; reflexivity : only.
#[local] Hint Extern 2 (makes_only _ (uploadSourceAssets _ _ _ _)) =>
  apply makes_only_uploadSourceAssets; intros ?; reflexivity : only.

Ltac code_listed := repeat first [apply list_elem_of_here | apply list_elem_of_further].

Lemma answering_stop (codes : list nat) (code : nat) (body : Body) :
  code ∈ codes -> answering codes (liftW (res_json code body)).
Proof.
  intros Hcode w l. simpl. split; [done|]. exists w. split; [apply calls_only_refl|done].
Qed.

Lemma answering_bind {A} (codes : list nat) (m : M StartState A)
    (f : A -> M StartState Response) :
  makes_onlyS unanswered m -> (forall a, answering codes (f a)) -> answering codes (m ≫= f).
Proof.
  intros Hm Hf w l. unfold mbind, M_bind. specialize (Hm w l).
  destruct (m (w, l)) as [[a|e] [w1 l1]]; simpl in *; [|done].
  specialize (Hf a w1 l1). destruct (f a (w1, l1)) as [[response|e] [w' l']].
  - destruct Hf as (Hcode & w2 & Hq & Htr). split; [done|].
    exists w2. split; [by eapply calls_only_trans|done].
  - by eapply calls_only_trans.
Qed.

Lemma answering_liftW_bind {A} (codes : list nat) (m : M World A)
    (f : A -> M World Response) :
  makes_only unanswered m -> (forall a, answering codes (liftW (f a))) ->
  answering codes (liftW (m ≫= f)).
Proof.
  intros Hm Hf w l. unfold liftW, mbind, M_bind. specialize (Hm w).
  destruct (m w) as [[a|e] w1]; simpl in *; [|done].
  specialize (Hf a w1 l). unfold liftW in Hf. destruct (f a w1) as [[response|e] w'].
  - destruct Hf as (Hcode & w2 & Hq & Htr). split; [done|].
    exists w2. split; [by eapply calls_only_trans|done].
  - by eapply calls_only_trans.
Qed.

Lemma answering_createAndDispatch (codes : list nat) (env : Env) (userId name : string)
    uploaded cfg args :
  202 ∈ codes ->
  answering codes (liftW (createAndDispatch env userId name uploaded cfg args)).
Proof.
  intros Hcode. unfold createAndDispatch.
  repeat (apply answering_liftW_bind; [auto 10 with only|intros ?]).
  by apply answering_stop.
Qed.

Lemma answering_startTraining_try (env : Env) (req : StartRequest)
    (files : list UploadedFile) :
  answering [202; 400; 404] (startTraining_try env req files).
Proof.
  unfold startTraining_try.
  apply answering_bind; [unfold User_findById; auto with only|]. intros [user|];
    [|apply answering_stop; code_listed].
  apply answering_bind; [unfold gatherSourceAssets; auto 10 with only|].
  intros [message|[sourceAssets userAssetIdsUsed]]; [apply answering_stop; code_listed|].
  destruct (length sourceAssets =? 0); [apply answering_stop; code_listed|].
  apply answering_bind; [auto with only|]. intros timestamp.
  apply answering_bind; [auto 10 with only|]. intros rawName.
  apply answering_bind; [unfold prepareDataset, uploadBufferToS3; auto 30 with only|].
  intros zipUrl.
  apply answering_bind; [auto with only|]. intros uploaded.
  apply answering_bind; [auto with only|]. intros zipKey.
  apply answering_bind; [auto 20 with only|]. intros destination.
  apply answering_createAndDispatch. code_listed.
Qed.

Lemma cleanup_allowed (allowed : Effect -> bool) (l : Locals) :
  (forall key, allowed (EDeleteFromS3 key) = true) ->
  (forall path, allowed (EFsRemove path) = true) ->
  Forall (fun e => allowed e = true)
    (deletion (generatedZipKey l)
     ++ flat_map (fun asset => deletion (Asset.key asset)) (uploadedAssets l)
     ++ removal (localZipPath l)).
Proof.
  intros Hdelete Hremove.
  assert (Hdel : forall key, Forall (fun e => allowed e = true) (deletion key)).
  { intros key. unfold deletion, Js.when_str.
    destruct key as [key|]; [destruct (key =? EmptyString)%string|]; by repeat constructor. }
  apply Forall_app. split; [done|]. apply Forall_app. split.
  - induction (uploadedAssets l) as [|asset rest IH]; simpl; [done|].
    apply Forall_app. by split.
  - unfold removal, Js.when_str.
    destruct (localZipPath l) as [path|]; [destruct (path =? EmptyString)%string|];
      by repeat constructor.
Qed.

(** X22. As long as the zip is written and no upload to S3 is rejected,
    whatever else fails, startTraining never throws: the run ends with
    exactly one response, sent after every other outward call, with status
    202, 400, 404 or 500.  (The uploads of the images and the archive are
    promises the handler does not await at once; a rejection of one of
    them before it is awaited is not handled by the handler.) *)
Theorem startTraining_answers_once (env : Env) (req : StartRequest) (w : World) :
  (forall moment key, s3_upload_done env moment key = Ok tt) ->
  (forall moment path entries, archive_finalize env moment path entries = Ok tt) ->
  answers_once [202; 400; 404; 500] w (startTraining env req w).
Proof.
  intros _ _.
  assert (Hsilent : forall es, Forall (fun e => unanswered e = true) es ->
                               Forall (fun e => is_response e = false) es).
  { intros es Hes. eapply Forall_impl; [exact Hes|].
    intros e. unfold unanswered. by destruct (is_response e). }
  unfold startTraining, try_catch.
  pose proof (answering_startTraining_try env req (default [] (req_files req)) w
                (mkLocals [] None None)) as Htry.
  destruct (startTraining_try env req (default [] (req_files req))
              (w, mkLocals [] None None)) as [[response|e] [w1 l1]].
  - destruct Htry as (Hcode & w0 & (es & Hes & Hquiet) & Htr).
    apply (answers_once_log _ _ es).
    + by rewrite Htr, Hes, <- app_assoc.
    + by apply Hsilent.
    + repeat (apply elem_of_cons in Hcode as [->|Hcode]; [code_listed|]).
      by apply elem_of_nil in Hcode.
  - destruct Htry as (es & Hes & Hquiet).
    destruct (startTraining_catch_calls env e w1 l1) as (w2 & l2 & -> & _ & _ & Htr).
    apply (answers_once_log _ _
             (es ++ deletion (generatedZipKey l1)
                 ++ flat_map (fun asset => deletion (Asset.key asset)) (uploadedAssets l1)
                 ++ removal (localZipPath l1))).
    + by rewrite Htr, Hes, <- !app_assoc.
    + apply Forall_app. split; [by apply Hsilent|]. by apply Hsilent, cleanup_allowed.
    + simpl. code_listed.
Qed.

(** ** The model names startTraining uses *)

Lemma all_chars_app (p : Ascii.ascii -> bool) (a b : string) :
  all_chars p (a +:+ b) = all_chars p a && all_chars p b.
Proof. induction a as [|c a IH]; [done|]. simpl. by rewrite IH, andb_assoc. Qed.

Lemma all_chars_replace_class (keep : Ascii.ascii -> bool) (by_ : Ascii.ascii) (s : string) :
  keep by_ = true -> all_chars keep (Js.replace_class keep by_ s) = true.
Proof.
  intros Hby. induction s as [|c s IH]; [done|]. simpl.
  destruct (keep c) eqn:Hc; by rewrite ?Hc, ?Hby, IH.
Qed.

Lemma model_name_digit (d : N) : is_model_name_char (pretty_N_char d) = true.
Proof. unfold pretty_N_char. by repeat case_match. Qed.

Lemma model_name_pretty_N_go (x : N) :
  forall s, all_chars is_model_name_char s = true ->
            all_chars is_model_name_char (pretty_N_go x s) = true.
Proof.
  induction (N.lt_wf_0 x) as [x _ IH]. intros s Hs.
  destruct (decide (0 < x)%N) as [Hx|Hx].
  - rewrite pretty_N_go_step by done. apply IH; [by apply N.div_lt|].
    simpl. by rewrite model_name_digit.
  - replace x with 0%N by lia. by rewrite pretty_N_go_0.
Qed.

Lemma model_name_pretty_Z (z : Z) : all_chars is_model_name_char (pretty z) = true.
Proof.
  assert (Hpos : forall p, all_chars is_model_name_char (pretty (N.pos p)) = true).
  { intros p. unfold pretty, pretty_N. rewrite decide_False by done.
    by apply model_name_pretty_N_go. }
  destruct z as [|p|p]; [done|apply Hpos|].
  change (pretty (Z.neg p)) with ("-" +:+ pretty (N.pos p)).
  by rewrite all_chars_app, Hpos.
Qed.

Lemma uniqueModelName_clean (rawName : string) (timestamp : Z) :
  all_chars is_model_name_char
    (Js.replace_class is_model_name_char dash rawName +:+ "-" +:+ pretty timestamp) = true.
Proof.
  rewrite !all_chars_app, all_chars_replace_class, model_name_pretty_Z by done. done.
Qed.

Lemma names_clean_createAndDispatch (env : Env) (userId name : string) uploaded cfg args :
  all_chars is_model_name_char name = true ->
  all_chars is_model_name_char (Replicate.trigger_word (Replicate.input args)) = true ->
  makes_only names_clean (createAndDispatch env userId name uploaded cfg args).
Proof.
  intros Hname Htrigger. unfold createAndDispatch.
  apply makes_only_bind; [auto with only|]. intros now.
  apply makes_only_bind; [auto with only|]. intros token.
  apply makes_only_bind; [auto with only|]. intros created.
  apply makes_only_bind; [by apply makes_only_Training_create|]. intros newTraining.
  apply makes_only_bind; [auto with only|]. intros _.
  apply makes_only_bind; [|auto 6 with only].
  apply makes_only_try_catch; [by apply makes_only_dispatchTraining|auto 10 with only].
Qed.

Lemma names_clean_startTraining_try (env : Env) (req : StartRequest)
    (files : list UploadedFile) :
  makes_onlyS names_clean (startTraining_try env req files).
Proof.
  unfold startTraining_try.
  apply makes_onlyS_bind; [unfold User_findById; auto with only|]. intros [user|];
    [|auto with only].
  apply makes_onlyS_bind; [unfold gatherSourceAssets; auto 10 with only|].
  intros [message|[sourceAssets userAssetIdsUsed]]; [auto with only|].
  destruct (length sourceAssets =? 0); [auto with only|].
  apply makes_onlyS_bind; [auto with only|]. intros timestamp.
  apply makes_onlyS_bind; [auto 10 with only|]. intros rawName.
  apply makes_onlyS_bind; [unfold prepareDataset, uploadBufferToS3; auto 30 with only|].
  intros zipUrl.
  apply makes_onlyS_bind; [auto with only|]. intros uploaded.
  apply makes_onlyS_bind; [auto with only|]. intros zipKey.
  apply makes_onlyS_bind.
  { destruct (REPLICATE_USERNAME env) as [username|]; [|auto with only].
    destruct (username =? EmptyString)%string; [auto with only|].
    apply makes_onlyS_bind; [|auto with only].
    apply makes_onlyS_liftW, makes_only_try_catch; [|auto with only].
    apply makes_only_call. apply uniqueModelName_clean. }
  intros destination.
  apply makes_onlyS_liftW, names_clean_createAndDispatch.
  - apply uniqueModelName_clean.
  - simpl. by apply all_chars_replace_class.
Qed.


(** ** A closed connection *)

Section Closed.
Import Stream.
Variable stringify : Training.t -> string.

Lemma detached_step (s : Server) (conn : nat) (i : Input) :
  detached s conn ->
  i ≠ Connect conn ->
  detached (step stringify s i) conn
  /\ frames (step stringify s i) conn = frames s conn.
Proof.
  intros [Hsub Hint] Hconnect. destruct i as [other|payload|timer|other]; simpl.
  - assert (Hne : other ≠ conn) by congruence.
    destruct (streamTrainings_components other s) as (Hs & Hi & _ & _ & Hframes).
    split; [split|by apply Hframes].
    + intros handle. rewrite Hs.
      destruct (decide (fresh (dom (subscribers s)) = handle)) as [<-|Hh].
      * rewrite lookup_insert_eq. congruence.
      * rewrite lookup_insert_ne by done. apply Hsub.
    + intros timer ms. rewrite Hi.
      destruct (decide (fresh (dom (intervals s)) = timer)) as [<-|Ht].
      * rewrite lookup_insert_eq. congruence.
      * rewrite lookup_insert_ne by done. apply Hint.
  - destruct (publish_registry stringify payload s) as (Hs & Hi & _).
    split; [split; intros; rewrite ?Hs, ?Hi; auto|].
    unfold publish.
    destruct (foldl_invoke stringify payload conn (map snd (map_to_list (subscribers s))) s)
      as (_ & _ & _ & ->).
    rewrite filter_none; [by rewrite app_nil_r|].
    apply Forall_forall. intros cb Hcb ->.
    apply list_elem_of_In, in_map_iff in Hcb. destruct Hcb as [[handle cb] [Hcb Hin]].
    simpl in Hcb. subst cb. apply list_elem_of_In, elem_of_map_to_list in Hin.
    by apply Hsub in Hin.
  - unfold elapse. destruct (intervals s !! timer) as [[ms [other]]|] eqn:Htimer; [|done].
    split; [done|]. apply frames_res_write_ne. intros <-. by apply Hint in Htimer.
  - destruct (disconnect_components other s) as (Hr & _ & Hs & Hi & _).
    split; [split|by apply frames_responses].
    + intros handle Hh. by apply Hs, Hsub in Hh.
    + intros timer ms Ht. by apply Hi, Hint in Ht.
Qed.

Lemma detached_run (conn : nat) (inputs : list Input) :
  forall s,
    detached s conn ->
    Forall (fun i => i ≠ Connect conn) inputs ->
    detached (run stringify s inputs) conn
    /\ frames (run stringify s inputs) conn = frames s conn.
Proof.
  unfold run. induction inputs as [|i inputs IH]; intros s Hdetached Hinputs; [done|].
  apply Forall_cons in Hinputs as [Hi Hinputs].
  destruct (detached_step s conn i Hdetached Hi) as [Hnext Hframes].
  destruct (IH _ Hnext Hinputs) as [Hfinal Hall].
  split; [done|]. simpl. by rewrite Hall.
Qed.

End Closed.

(** X24. Once a connection is closed, nothing is written to it any more:
    whatever is published, whichever timers fire and whichever other
    connections open and close afterwards, its response stays as it was
    at the close, and no subscription and no timer serves it. *)
Theorem closed_connection_stays_silent (stringify : Training.t -> string)
    (s : Stream.Server) (conn : nat) (inputs : list Stream.Input) :
  registered s ->
  Forall (fun i => i ≠ Stream.Connect conn) inputs ->
  let later := Stream.run stringify (Stream.disconnect conn s) inputs in
  Stream.frames later conn = Stream.frames s conn
  /\ detached later conn.
Proof.
  intros Hreg Hinputs later.
  destruct (registered_disconnect conn s Hreg) as (_ & Hsub & Hint).
  destruct (detached_run stringify conn inputs (Stream.disconnect conn s)
              (conj Hsub Hint) Hinputs) as [Hdetached Hframes].
  split; [|done]. subst later. rewrite Hframes.
  destruct (disconnect_components conn s) as (Hr & _). by apply frames_responses.
Qed.

(** X25. The server leaks no timer and no subscription: in every state it
    reaches from the start, when no connection has a close listener left,
    that is, when every connection that was opened has been closed, no
    subscription and no timer is left either. *)
Theorem idle_server_holds_nothing (stringify : Training.t -> string)
    (inputs : list Stream.Input) :
  let s := Stream.run stringify Stream.empty inputs in
  Stream.listeners s = ∅ ->
  Stream.subscribers s = ∅ /\ Stream.intervals s = ∅.
Proof.
  intros s Hidle.
  destruct (registered_reachable stringify inputs) as (_ & Hsub & Hint). fold s in Hsub, Hint.
  assert (Hnone : forall conn, listeners_of s conn = []).
  { intros conn. unfold listeners_of. by rewrite Hidle, lookup_empty. }
  split; apply map_empty; intros k.
  - destruct (Stream.subscribers s !! k) as [[conn]|] eqn:Hk; [|done].
    destruct (Hsub _ _ Hk) as [heartbeat Hin]. rewrite Hnone in Hin.
    by apply elem_of_nil in Hin.
  - destruct (Stream.intervals s !! k) as [[ms [conn]]|] eqn:Hk; [|done].
    destruct (Hint _ _ _ Hk) as [handle Hin]. rewrite Hnone in Hin.
    by apply elem_of_nil in Hin.
Qed.

(** ** What a failed start leaves of the images *)

#[local] Hint Extern 2 (makes_only _ (loadUserAssets _ _ _ _)) =>
  apply makes_only_loadUserAssets; intros ?; reflexivity : only.

Lemma creates_with_uncreated (uploaded : list Asset.t) (w w' : World) :
  calls_only uncreated w w' -> creates_with uploaded w w'.
Proof.
  intros (es & Htr & Hnone). exists es. split; [done|]. intros id doc Hin.
  rewrite Forall_forall in Hnone. by apply Hnone in Hin.
Qed.

Lemma creates_with_after (uploaded : list Asset.t) (w w1 w' : World) :
  calls_only uncreated w w1 -> creates_with uploaded w1 w' -> creates_with uploaded w w'.
Proof.
  intros (es1 & Htr1 & Hnone) (es2 & Htr2 & Hcreated).
  exists (es1 ++ es2). split; [by rewrite Htr2, Htr1, app_assoc|].
  intros id doc [Hin|Hin]%elem_of_app; [|by apply (Hcreated id)].
  rewrite Forall_forall in Hnone. by apply Hnone in Hin.
Qed.

Lemma creating_stop (code : nat) (body : Body) : creating (liftW (res_json code body)).
Proof.
  intros w l. simpl. apply creates_with_uncreated. by apply calls_only_log.
Qed.

Lemma creating_bind {A} (m : M StartState A) (f : A -> M StartState Response) :
  makes_onlyS uncreated m -> (forall a, creating (f a)) -> creating (m ≫= f).
Proof.
  intros Hm Hf w l. unfold mbind, M_bind. specialize (Hm w l).
  destruct (m (w, l)) as [[a|e] [w1 l1]]; simpl in *.
  - specialize (Hf a w1 l1). destruct (f a (w1, l1)) as [r [w' l']].
    by eapply creates_with_after.
  - by apply creates_with_uncreated.
Qed.

Lemma creates_with_createAndDispatch (env : Env) (userId name : string)
    (uploaded : list Asset.t) (cfg : Config.t) (args : Replicate.Args) (w : World) :
  creates_with uploaded w (createAndDispatch env userId name uploaded cfg args w).2.
Proof.
  unfold createAndDispatch, try_catch, mbind, M_bind, new_Date, gets, Training_create,
    broadcastTraining, dispatchTraining, populateTrainingForClient, res_json,
    Training_findByIdAndUpdate, throw.
  simpl.
  set (id := fresh (dom (trainings w))).
  set (doc := newTrainingDocument userId name uploaded _ cfg _).
  assert (Hdoc : forall (rest : list Effect) id' doc',
            Forall (fun e => uncreated e = true) rest ->
            ETrainingCreate id' doc' ∈ ETrainingCreate id doc :: rest ->
            Training.imageAssets doc' = Some uploaded).
  { intros rest id' doc' Hrest [[= -> ->]|Hin]%elem_of_cons; [done|].
    rewrite Forall_forall in Hrest. by apply Hrest in Hin. }
  assert (Hthen : forall (rest : list Effect) (w' : World),
            Forall (fun e => uncreated e = true) rest ->
            trace w' = trace w ++ ETrainingCreate id doc :: rest ->
            creates_with uploaded w w').
  { intros rest w' Hrest Htr. exists (ETrainingCreate id doc :: rest). split; [done|].
    intros id' doc'. by apply Hdoc. }
  destruct (broadcastTraining_run env _ id _) as [[]|e]; simpl.
  - destruct (dispatchTraining_run env id args "initial" _) as [[[]|e] store1]; simpl.
    + destruct (populateTrainingForClient_run env id store1 (users w)) as [p|e]; simpl.
      * eapply (Hthen [EBroadcastTraining id; EDispatchTraining id args "initial";
                       EPopulateTrainingForClient id; ERespond _]);
          [|simpl; rewrite <- ?app_assoc; reflexivity]; by repeat constructor.
      * apply (Hthen [EBroadcastTraining id; EDispatchTraining id args "initial";
                      EPopulateTrainingForClient id]);
          [by repeat constructor|simpl; by rewrite <- ?app_assoc].
    + destruct (broadcastTraining_run _ _ _ _) as [[]|e2]; simpl;
        (eapply (Hthen [EBroadcastTraining id; EDispatchTraining id args "initial";
                        ETrainingFindByIdAndUpdate id _; EBroadcastTraining id]);
         [|simpl; rewrite <- ?app_assoc; reflexivity]; by repeat constructor).
  - apply (Hthen [EBroadcastTraining id]);
      [by repeat constructor|simpl; by rewrite <- ?app_assoc].
Qed.

(** From the read of [uploadedAssets] on. *)
Lemma creating_dispatch (env : Env) (userId : string) (uniqueModelName : string)
    (record : list Asset.t -> option string -> Config.t)
    (destination : M StartState (option string))
    (replicateArgs : option string -> Replicate.Args) :
  (forall w l, exists d w',
      destination (w, l) = (d, (w', l)) /\ calls_only uncreated w w') ->
  creating
    (uploaded ← get_local uploadedAssets;
     zipKey ← get_local generatedZipKey;
     destination ← destination;
     liftW (createAndDispatch env userId uniqueModelName uploaded (record uploaded zipKey)
              (replicateArgs destination))).
Proof.
  intros Hdestination w l. unfold mbind, M_bind, get_local, gets. cbv beta iota.
  destruct (Hdestination w l) as (d & w1 & -> & Hquiet).
  destruct d as [d|e]; [|by apply creates_with_uncreated].
  unfold liftW.
  pose proof (creates_with_createAndDispatch env userId uniqueModelName (uploadedAssets l)
                (record (uploadedAssets l) (generatedZipKey l)) (replicateArgs d) w1)
    as Hcreated.
  destruct (createAndDispatch env userId uniqueModelName (uploadedAssets l) _ _ w1)
    as [r w'].
  by eapply creates_with_after.
Qed.

Lemma creating_startTraining_try (env : Env) (req : StartRequest)
    (files : list UploadedFile) :
  creating (startTraining_try env req files).
Proof.
  unfold startTraining_try.
  apply creating_bind; [unfold User_findById; auto with only|]. intros [user|];
    [|apply creating_stop].
  apply creating_bind; [unfold gatherSourceAssets; auto 10 with only|].
  intros [message|[sourceAssets userAssetIdsUsed]]; [apply creating_stop|].
  destruct (length sourceAssets =? 0); [apply creating_stop|].
  apply creating_bind; [auto with only|]. intros timestamp.
  apply creating_bind; [auto 10 with only|]. intros rawName.
  apply creating_bind; [unfold prepareDataset, uploadBufferToS3; auto 30 with only|].
  intros zipUrl.
  match goal with
  | |- creating (_ ← _; _ ← _; _ ← ?dest; liftW (createAndDispatch _ _ ?name _ _ _)) =>
      set (destination := dest)
  end.
  refine (creating_dispatch env (body_userId req) _
            (fun uploaded zipKey => Config.mk _ _ _ _ _ (default EmptyString zipKey) _ _)
            destination
            (fun d => Replicate.mkArgs "ostris" "flux-dev-lora-trainer" TRAINER_VERSION _ d)
            _).
  intros w l. subst destination.
  destruct (REPLICATE_USERNAME env) as [username|];
    [destruct (username =? EmptyString)%string|];
    try (eexists _, w; split; [reflexivity|apply calls_only_refl]).
  unfold mbind, M_bind, liftW, try_catch, call, throw.
  destruct (replicate_models_create env username _) as [[]|e];
    eexists _, _; (split; [reflexivity|]); by apply calls_only_log.
Qed.

Lemma deletion_listed (uploaded : list Asset.t) (asset : Asset.t) (key : string) :
  asset ∈ uploaded -> Asset.key asset = Some key -> key ≠ EmptyString ->
  EDeleteFromS3 key ∈ flat_map (fun asset => deletion (Asset.key asset)) uploaded.
Proof.
  intros Hin Hkey Hne%String.eqb_neq. apply list_elem_of_In, in_flat_map.
  exists asset. split; [by apply list_elem_of_In|].
  unfold deletion, Js.when_str. rewrite Hkey, Hne. by left.
Qed.

(** X26. When startTraining answers 500 after it has created the training
    record, because the dispatch failed or the record could not be
    broadcast or read back, the cleanup asks S3 to delete every image the
    created record lists under a key: the record it leaves points at
    images that are deleted. *)
Theorem failed_start_deletes_images (env : Env) (req : StartRequest) (w : World) :
  let '(r, w') := startTraining env req w in
  forall response id doc asset key,
    r = Ok response ->
    res_status response = 500 ->
    ETrainingCreate id doc ∈ effects_since w w' ->
    asset ∈ default [] (Training.imageAssets doc) ->
    Asset.key asset = Some key ->
    key ≠ EmptyString ->
    precedes (ETrainingCreate id doc) (EDeleteFromS3 key) (effects_since w w').
Proof.
  unfold startTraining, try_catch.
  pose proof (answering_startTraining_try env req (default [] (req_files req)) w
                (mkLocals [] None None)) as Hanswer.
  pose proof (creating_startTraining_try env req (default [] (req_files req)) w
                (mkLocals [] None None)) as Hcreating.
  destruct (startTraining_try env req (default [] (req_files req))
              (w, mkLocals [] None None)) as [[accepted|e] [w1 l1]].
  - intros response id doc asset key [= <-] Hcode. destruct Hanswer as [Hlisted _].
    rewrite Hcode in Hlisted.
    repeat (apply elem_of_cons in Hlisted as [Hlisted|Hlisted]; [discriminate Hlisted|]).
    by apply elem_of_nil in Hlisted.
  - destruct Hcreating as (es & Hes & Hcreated).
    destruct (startTraining_catch_calls env e w1 l1) as (w2 & l2 & -> & _ & _ & Htr).
    intros response id doc asset key _ _ Hin Hasset Hkey Hne.
    set (cleanup := deletion (generatedZipKey l1)
                    ++ flat_map (fun asset => deletion (Asset.key asset)) (uploadedAssets l1)
                    ++ removal (localZipPath l1)) in *.
    rewrite Hes, <- app_assoc in Htr. rewrite (effects_since_app _ _ _ Htr) in Hin |- *.
    assert (Hclean : Forall (fun e => uncreated e = true) cleanup)
      by by apply cleanup_allowed.
    apply elem_of_app in Hin as [Hin|Hin].
    + rewrite (Hcreated id doc Hin) in Hasset. simpl in Hasset.
      assert (Hdeleted : EDeleteFromS3 key ∈ cleanup).
      { subst cleanup. apply elem_of_app. right. apply elem_of_app. left.
        by eapply deletion_listed. }
      apply list_elem_of_split in Hin as (before & between & ->).
      apply list_elem_of_split in Hdeleted as (c1 & c2 & ->).
      exists before, (between ++ c1), (c2 ++ [ERespond (start_failure e)]).
      by rewrite <- !app_assoc.
    + exfalso. apply elem_of_app in Hin as [Hin|Hin].
      * rewrite Forall_forall in Hclean. by apply Hclean in Hin.
      * by apply list_elem_of_singleton in Hin.
Qed.

(** * Runs of the list handlers, the helpers and the failing environments *)

Lemma pagination_window_witness :
  Paging.totalPages 10 25 = 3%Z
  /\ Paging.effectivePage 10 7 25 = 3%Z
  /\ Paging.skip 10 7 25 = 20%Z.
Proof.
  destruct (pagination_window 10 7 25 (conj eq_refl eq_refl) eq_refl (conj eq_refl eq_refl))
    as (Hcover & Hserved & _ & Hbeyond & Hskip & _).
  assert (Hpages : Paging.totalPages 10 25 = 3%Z) by lia.
  rewrite Hpages in Hbeyond. rewrite Hskip, (Hbeyond eq_refl). done.
Defined.

Lemma pagination_flags_witness :
  Paging.hasNextPage (Paging.pagination 10 1 25) = true
  /\ Paging.hasPrevPage (Paging.pagination 10 3 25) = true.
Proof.
  split.
  - apply (pagination_flags 10 1 25); [by vm_compute|by vm_compute|by vm_compute|].
    vm_compute. by split.
  - apply (pagination_flags 10 3 25); [by vm_compute|by vm_compute|by vm_compute|].
    by vm_compute.
Defined.

Lemma page_of_window_witness :
  Paging.page_of 2 2 [1; 2; 3; 4; 5] = [3; 4]
  /\ Paging.page_of 0 2 [1; 2; 3; 4; 5] = [1; 2; 3; 4; 5].
Proof.
  destruct (page_of_window 2 2 [1; 2; 3; 4; 5] ltac:(by vm_compute) eq_refl eq_refl)
    as (_ & Hpaged & _).
  destruct (page_of_window 0 2 [1; 2; 3; 4; 5] ltac:(by vm_compute) eq_refl eq_refl)
    as (Hall & _).
  destruct (Hpaged eq_refl) as (-> & _). by rewrite (Hall eq_refl).
Defined.

Lemma pages_partition_witness :
  concat (map (fun p => Paging.page_of 2 (Z.of_nat p) [1; 2; 3; 4; 5])
            (seq 1 (Z.to_nat (Paging.totalPages 2 (Z.of_nat (length [1; 2; 3; 4; 5]))))))
  = [1; 2; 3; 4; 5].
Proof. by apply (pages_partition 2 [1; 2; 3; 4; 5]); vm_compute. Defined.

Lemma parseInt_reads_decimal_witness :
  Paging.parseInt (pretty 25%Z) = Some 25%Z
  /\ Paging.numericLimit (Some (pretty (-3)%Z)) = 10%Z.
Proof.
  split.
  - by apply (parseInt_reads_decimal 25).
  - by apply (parseInt_reads_decimal (-3)).
Defined.

Lemma statusBreakdown_lookup_witness :
  Paging.statusBreakdown [(Some "queued", 2%Z); (None, 1%Z); (Some "failed", 4%Z)]
    !! "failed" = Some 4%Z.
Proof.
  apply statusBreakdown_lookup; [by apply (bool_decide_unpack _); vm_compute|].
  split; [|done]. do 2 apply list_elem_of_further. apply list_elem_of_here.
Defined.


Lemma generateTrainingImageKey_same_name_witness :
  S3.generateTrainingImageKey (fun s => s) 1700000000000 "lq1-a" "ada-1" (Some "ada.jpg") 0
  = S3.generateTrainingImageKey (fun s => s) 1700000000999 "lq1-b" "ada-1" (Some "ada.jpg") 7.
Proof. by apply generateTrainingImageKey_same_name. Defined.

Lemma unknown_training_not_found_witness :
  (checkTrainingStatus Sample.working "65a1f0c2b3d4e5f6a7b8c9d0" Sample.world).1
  = Ok (mkResponse 404 (Failure "Training not found" None))
  /\ (cancelTraining Sample.working "65a1f0c2b3d4e5f6a7b8c9d0" Sample.world).1
     = Ok (mkResponse 404 (Failure "Training not found" None)).
Proof.
  destruct (unknown_training_not_found Sample.working "65a1f0c2b3d4e5f6a7b8c9d0"
              Sample.world eq_refl eq_refl)
    as (-> & -> & _).
  done.
Defined.

Lemma checkTrainingStatus_failures_witness :
  (checkTrainingStatus Outage.provider_down "t2" Sample.world).1
  = Ok (mkResponse 500 (Failure "Failed to check training status"
                          (Some "provider unreachable")))
  /\ trainings (checkTrainingStatus Outage.provider_down "t2" Sample.world).2
     = trainings Sample.world.
Proof.
  pose proof (checkTrainingStatus_failures Outage.provider_down "t2" Sample.world
                Sample.running eq_refl
                (handle_real "processing" "trn_456" None eq_refl eq_refl)) as Hfail.
  simpl in Hfail.
  destruct (checkTrainingStatus Outage.provider_down "t2" Sample.world) as [r w'].
  destruct Hfail as [Hdown _]. destruct (Hdown _ eq_refl) as (Hr & Hstore & _).
  simpl. by rewrite Hr, Hstore.
Defined.

Lemma cancelTraining_after_acknowledgment_witness :
  exists canceled,
    trainings (cancelTraining Sample.working "t2" Sample.world).2
    = <["t2" := canceled]> (trainings Sample.world)
    /\ Training.status canceled = "canceled".
Proof.
  pose proof (cancelTraining_after_acknowledgment Sample.working "t2" Sample.world
                Sample.running eq_refl
                (handle_real "processing" "trn_456" None eq_refl eq_refl) eq_refl) as Hack.
  simpl in Hack.
  destruct (cancelTraining Sample.working "t2" Sample.world) as [r w'].
  destruct Hack as (update & canceled & Hstore & Hstatus & _). by exists canceled.
Defined.

Lemma downloadAssetBuffer_prefers_storage_witness :
  downloadAssetBuffer Sample.working (Some Outage.stored) 0 Sample.world
  = (Ok (Some [255; 216]%N), log (EDownloadFromS3 "users/u2/images/ada.jpg") Sample.world).
Proof. by apply downloadAssetBuffer_prefers_storage. Defined.

Lemma downloadAssetBuffer_without_url_witness :
  (exists w', downloadAssetBuffer Outage.storage_down (Some Outage.stored) 0 Sample.world
              = (Ok None, w'))
  /\ exists w', downloadAssetBuffer Sample.working (Some Outage.bare) 0 Sample.world
                = (Ok None, w').
Proof.
  split.
  - destruct (downloadAssetBuffer_without_url Outage.storage_down Outage.stored 0
                Sample.world eq_refl) as (result & w' & Hrun & _ & ->).
    by exists w'.
  - destruct (downloadAssetBuffer_without_url Sample.working Outage.bare 0
                Sample.world eq_refl) as (result & w' & Hrun & _ & ->).
    by exists w'.
Defined.

Lemma downloadAssetBuffer_falls_back_witness :
  (downloadAssetBuffer Outage.storage_down (Some Outage.linked) 0 Sample.world).1
  = Ok (Some [255; 216; 255]%N)
  /\ exists e,
       (downloadAssetBuffer Outage.provider_down (Some Outage.linked) 0 Sample.world).1
       = Throw e.
Proof.
  split.
  - pose proof (downloadAssetBuffer_falls_back Outage.storage_down Outage.linked 0
                  Sample.world "https://cdn.example/ada.jpg" eq_refl ltac:(done)
                  ltac:(done) ltac:(done)) as Hrun.
    destruct (downloadAssetBuffer Outage.storage_down (Some Outage.linked) 0 Sample.world)
      as [r w'].
    simpl in Hrun. by destruct Hrun as [_ ->].
  - pose proof (downloadAssetBuffer_falls_back Outage.provider_down Outage.linked 0
                  Sample.world "https://cdn.example/ada.jpg" eq_refl ltac:(done)
                  ltac:(done) ltac:(done)) as Hrun.
    destruct (downloadAssetBuffer Outage.provider_down (Some Outage.linked) 0 Sample.world)
      as [r w'].
    simpl in Hrun. destruct Hrun as [_ ->]. by eexists.
Defined.

Lemma closed_connection_stays_silent_witness :
  Stream.frames
    (Stream.run (fun _ => "{}")
       (Stream.disconnect 0 (Stream.streamTrainings 0 Stream.empty))
       [Stream.Publish (Stream.Plain Sample.running); Stream.Elapse 0; Stream.Connect 1;
        Stream.Publish (Stream.Plain Sample.finished)])
    0
  = Stream.frames (Stream.streamTrainings 0 Stream.empty) 0.
Proof.
  apply closed_connection_stays_silent.
  - apply registered_connect, registered_empty.
  - by repeat constructor.
Defined.

Lemma idle_server_holds_nothing_witness :
  Stream.subscribers
    (Stream.run (fun _ => "{}") Stream.empty
       [Stream.Connect 0; Stream.Connect 1; Stream.Disconnect 1; Stream.Disconnect 0])
  = ∅.
Proof.
  apply (idle_server_holds_nothing (fun _ => "{}")
           [Stream.Connect 0; Stream.Connect 1; Stream.Disconnect 1; Stream.Disconnect 0]).
  by vm_compute.
Defined.

Lemma failed_start_deletes_images_witness :
  exists id doc key,
    precedes (ETrainingCreate id doc) (EDeleteFromS3 key)
      (effects_since Sample.world
         (startTraining Sample.dispatch_fails Sample.upload Sample.world).2).
Proof.
  pose proof (failed_start_deletes_images Sample.dispatch_fails Sample.upload Sample.world)
    as Hdeleted.
  set (effects :=
         effects_since Sample.world
           (startTraining Sample.dispatch_fails Sample.upload Sample.world).2).
  let created := eval vm_compute in (Sample.created_in effects) in
  match created with
  | Some (?id, ?doc) =>
      let assets := eval vm_compute in (Training.imageAssets doc) in
      match assets with
      | Some (?asset :: _) =>
          let key := eval vm_compute in (Asset.key asset) in
          match key with
          | Some ?key => exists id, doc, key; pose (image := asset)
          end
      end
  end.
  subst effects.
  destruct (startTraining Sample.dispatch_fails Sample.upload Sample.world) as [r w'] eqn:Hrun.
  vm_compute in Hrun. injection Hrun as <- <-.
  eapply (Hdeleted _ _ _ image); [reflexivity|reflexivity| | |reflexivity|done].
  - elem_of_computed.
  - apply list_elem_of_here.
Defined.

Lemma startTraining_answers_once_witness :
  answers_once [202; 400; 404; 500] Sample.world
    (startTraining Sample.working Sample.upload Sample.world)
  /\ answers_once [202; 400; 404; 500] Sample.world
       (startTraining Sample.dispatch_fails Sample.upload Sample.world).
Proof.
  split; by apply startTraining_answers_once.
Defined.
